(** * rl_agents.agents.common.models: configurable network blocks

    A shallow embedding of [src/rl_agents/agents/common/models.py]:
    the dense block ([MultiLayerPerceptron]), the dueling head
    ([DuelingNetwork]), the ego-attention layer and network
    ([EgoAttention], [EgoAttentionNetwork]) and the scaled dot-product
    [attention] primitive, over a small model of the tensor runtime.

    Numbers are the real numbers of the Standard Library, so every
    statement below is one of exact arithmetic.  Tensors are row-major:
    a shape and the flat list of the entries, as the runtime stores a
    contiguous tensor.  Python exceptions are values of [exn]; the
    random generator and the heap of constructed modules are threaded
    through the state monad [M]. *)

From Stdlib Require Import Reals Lra Lia ZArith.
From stdpp Require Import gmap strings list.

#[local] Set Warnings "-register-all".

(** ** Exceptions and results *)

Inductive exn :=
| TypeError
| ValueError (msg : string)
| KeyError (key : string)
| IndexError
| AttributeError (name : string)
| RuntimeError
| ZeroDivisionError
| RecursionError.

Inductive result (A : Type) :=
| Ok (a : A)
| Raise (e : exn).
Arguments Ok {A} a.
Arguments Raise {A} e.

#[global] Instance result_ret : MRet result := @Ok.
#[global] Instance result_bind : MBind result :=
  λ A B f m, match m with Ok a => f a | Raise e => Raise e end.
#[global] Instance result_fmap : FMap result :=
  λ A B f m, match m with Ok a => Ok (f a) | Raise e => Raise e end.

Definition of_option {A} (e : exn) (o : option A) : result A :=
  match o with Some a => Ok a | None => Raise e end.

(** ** Python values and dictionaries *)

Inductive pyval :=
| PyNone
| PyBool (b : bool)
| PyInt (z : Z)
| PyFloat (r : R)
| PyStr (s : string)
| PyList (l : list pyval)
| PyDict (d : gmap string pyval).

Abbreviation dict := (gmap string pyval).

(** [bool(v)]: the truth value Python's [if] tests. *)
Definition truthy (v : pyval) : bool :=
  match v with
  | PyNone => false
  | PyBool b => b
  | PyInt z => negb (z =? 0)%Z
  | PyFloat r => if Req_dec_T r 0 then false else true
  | PyStr s => negb (String.eqb s "")
  | PyList l => match l with [] => false | _ => true end
  | PyDict d => negb (Nat.eqb (size d) 0)
  end.

(** [d[k]] and [d.get(k, None)]. *)
Definition getitem (d : dict) (k : string) : result pyval :=
  of_option (KeyError k) (d !! k).
Definition dict_get (d : dict) (k : string) : pyval :=
  default PyNone (d !! k).

Definition as_dict (v : pyval) : result dict :=
  match v with PyDict d => Ok d | _ => Raise TypeError end.
Definition as_list (v : pyval) : result (list pyval) :=
  match v with PyList l => Ok l | _ => Raise TypeError end.

(** An integer used as a tensor dimension: the runtime refuses what is
    not an [int] (booleans included) and negative sizes. *)
Definition as_size (v : pyval) : result nat :=
  match v with
  | PyInt z => if (z <? 0)%Z then Raise RuntimeError else Ok (Z.to_nat z)
  | _ => Raise TypeError
  end.

(** A number used as a float. *)
Definition as_float (v : pyval) : result R :=
  match v with
  | PyInt z => Ok (IZR z)
  | PyFloat r => Ok r
  | PyBool b => Ok (if b then 1%R else 0%R)
  | _ => Raise TypeError
  end.

(** Modelled from the spec: [Configurable.__init__] of
    [rl_agents.configuration], which is not among the sources.  The
    spec: every component defines its recognised keys and defaults, and
    unset keys fall back to the component's default.  The resolved
    mapping is what [self.config] holds after the call. *)
Definition Configurable_init (default_config config : dict) : dict :=
  config ∪ default_config.

(** ** Tensors *)

Record tensor (A : Type) := Tensor { shape : list nat; data : list A }.
Arguments Tensor {A} shape data.
Arguments shape {A} t.
Arguments data {A} t.

Definition numel (s : list nat) : nat := foldr Nat.mul 1 s.

(** The storage holds one entry per index. *)
Definition wf {A} (t : tensor A) : Prop := length (data t) = numel (shape t).

(** [chunks k w l]: the first [k] consecutive blocks of width [w]. *)
Fixpoint chunks {A} (k w : nat) (l : list A) : list (list A) :=
  match k with
  | 0 => []
  | S k' => take w l :: chunks k' w (drop w l)
  end.

(** Columns of a list of rows of width [m]. *)
Fixpoint transpose {A} (m : nat) (rows : list (list A)) : list (list A) :=
  match rows with
  | [] => replicate m []
  | r :: rs => zip_with cons r (transpose m rs)
  end.

Fixpoint split_last (s : list nat) : option (list nat * nat) :=
  match s with
  | [] => None
  | d :: s' =>
      match split_last s' with
      | None => Some ([], d)
      | Some (lead, l) => Some (d :: lead, l)
      end
  end.

Definition split_last2 (s : list nat) : option (list nat * nat * nat) :=
  match split_last s with
  | Some (s', m) =>
      match split_last s' with
      | Some (lead, n) => Some (lead, n, m)
      | None => None
      end
  | None => None
  end.

Definition sumR (l : list R) : R := foldr Rplus 0%R l.
Definition dot (a b : list R) : R := sumR (zip_with Rmult a b).
Definition mean (l : list R) : R := (sumR l / INR (length l))%R.

Definition tmap {A B} (f : A → B) (t : tensor A) : tensor B :=
  Tensor (shape t) (f <$> data t).

(** *** Broadcasting *)

Definition pad_shape (r : nat) (s : list nat) : list nat :=
  replicate (r - length s) 1 ++ s.

Fixpoint broadcast_dims (a b : list nat) : option (list nat) :=
  match a, b with
  | [], [] => Some []
  | x :: a', y :: b' =>
      match broadcast_dims a' b' with
      | Some r =>
          if decide (x = y) then Some (x :: r)
          else if decide (x = 1) then Some (y :: r)
          else if decide (y = 1) then Some (x :: r)
          else None
      | None => None
      end
  | _, _ => None
  end.

Definition broadcast_shapes (a b : list nat) : option (list nat) :=
  let r := length a `max` length b in
  broadcast_dims (pad_shape r a) (pad_shape r b).

(** Entries of a tensor of shape [s] laid out at shape [t], where each
    dimension of [s] is the one of [t] or 1. *)
Fixpoint expand_data {A} (s t : list nat) (d : list A) : list A :=
  match s, t with
  | a :: s', b :: t' =>
      let cs := concat (expand_data s' t' <$> chunks a (numel s') d) in
      if decide (a = b) then cs else concat (replicate b cs)
  | _, _ => d
  end.

Fixpoint expandable (s t : list nat) : bool :=
  match s, t with
  | [], [] => true
  | a :: s', b :: t' =>
      (bool_decide (a = b) || bool_decide (a = 1)) && expandable s' t'
  | _, _ => false
  end.

Definition expand_to {A} (s : list nat) (t : tensor A) : option (tensor A) :=
  let p := pad_shape (length s) (shape t) in
  if expandable p s then Some (Tensor s (expand_data p s (data t))) else None.

Definition binop (f : R → R → R) (a b : tensor R) : result (tensor R) :=
  match broadcast_shapes (shape a) (shape b) with
  | None => Raise RuntimeError
  | Some s =>
      let r := length s in
      Ok (Tensor s (zip_with f
                      (expand_data (pad_shape r (shape a)) s (data a))
                      (expand_data (pad_shape r (shape b)) s (data b))))
  end.

(** ** The tensor runtime *)

Module torch.

(** [x.view(s)] and [x.reshape(s)] with every size given. *)
Definition view {A} (s : list nat) (x : tensor A) : result (tensor A) :=
  if decide (numel s = numel (shape x)) then Ok (Tensor s (data x))
  else Raise RuntimeError.

(** [x.reshape(b, -1)]: the free size is inferred, which the runtime
    refuses when the known sizes multiply to 0. *)
Definition reshape_infer {A} (b : nat) (x : tensor A) : result (tensor A) :=
  let n := numel (shape x) in
  if decide (0 < b ∧ n `mod` b = 0) then Ok (Tensor [b; n `div` b] (data x))
  else Raise RuntimeError.

(** [x.shape[i]] *)
Definition shape_at {A} (x : tensor A) (i : nat) : result nat :=
  of_option IndexError (shape x !! i).

(** [x.size(-1)] *)
Definition size_last {A} (x : tensor A) : result nat :=
  of_option IndexError (snd <$> split_last (shape x)).

(** [torch.cat((a, b), dim=1)] *)
Definition cat1 {A} (a b : tensor A) : result (tensor A) :=
  match shape a, shape b with
  | b0 :: na :: ra, b1 :: nb :: rb =>
      if decide (b0 = b1 ∧ ra = rb) then
        Ok (Tensor (b0 :: (na + nb) :: ra)
              (concat (zip_with app (chunks b0 (na * numel ra) (data a))
                                    (chunks b0 (nb * numel ra) (data b)))))
      else Raise RuntimeError
  | _, _ => Raise RuntimeError
  end.

(** [x.permute(0, 2, 1, 3)] *)
Definition permute_0213 {A} (x : tensor A) : result (tensor A) :=
  match shape x with
  | [b; n; h; f] =>
      Ok (Tensor [b; h; n; f]
            (concat ((λ c, concat (concat (transpose h (chunks n h (chunks (n * h) f c)))))
                       <$> chunks b (n * h * f) (data x))))
  | _ => Raise RuntimeError
  end.

(** [x.transpose(-2, -1)] *)
Definition transpose_last2 {A} (x : tensor A) : result (tensor A) :=
  match split_last2 (shape x) with
  | Some (lead, n, m) =>
      Ok (Tensor (lead ++ [m; n])
            (concat ((λ c, concat (transpose m (chunks n m c)))
                       <$> chunks (numel lead) (n * m) (data x))))
  | None => Raise IndexError
  end.

(** The product of an [n]x[m] by an [m]x[p] matrix, both row-major. *)
Definition mm (n m p : nat) (a b : list R) : list R :=
  let cols := transpose p (chunks m p b) in
  concat ((λ r, dot r <$> cols) <$> chunks n m a).

(** [torch.matmul(a, b)]: a vector operand is a one-row (left) or
    one-column (right) matrix whose added dimension is removed from
    the product; the leading dimensions broadcast. *)
Definition matmul (a b : tensor R) : result (tensor R) :=
  let va := bool_decide (length (shape a) = 1) in
  let vb := bool_decide (length (shape b) = 1) in
  let sa := if va then 1 :: shape a else shape a in
  let sb := if vb then shape b ++ [1] else shape b in
  match split_last2 sa, split_last2 sb with
  | Some (la, n, m), Some (lb, m', p) =>
      if decide (m = m') then
        match broadcast_shapes la lb with
        | Some lead =>
            let r := length lead in
            let da := expand_data (pad_shape r la ++ [n; m]) (lead ++ [n; m]) (data a) in
            let db := expand_data (pad_shape r lb ++ [m; p]) (lead ++ [m; p]) (data b) in
            Ok (Tensor (lead ++ (if va then [] else [n]) ++ (if vb then [] else [p]))
                  (concat (zip_with (mm n m p)
                             (chunks (numel lead) (n * m) da)
                             (chunks (numel lead) (m * p) db))))
        | None => Raise RuntimeError
        end
      else Raise RuntimeError
  | _, _ => Raise RuntimeError
  end.

(** [x.masked_fill(mask, v)]: the mask broadcasts to the shape of [x]. *)
Definition masked_fill (x : tensor R) (mask : tensor bool) (v : R) : result (tensor R) :=
  match expand_to (shape x) mask with
  | Some m => Ok (Tensor (shape x) (zip_with (λ s (k : bool), if k then v else s) (data x) (data m)))
  | None => Raise RuntimeError
  end.

(** Rows along the last dimension (a scalar is one row of one entry). *)
Definition rows {A} (x : tensor A) : list (list A) :=
  match split_last (shape x) with
  | Some (lead, n) => chunks (numel lead) n (data x)
  | None => chunks 1 1 (data x)
  end.

Definition softmax_row (r : list R) : list R :=
  let z := sumR (exp <$> r) in (λ s, exp s / z)%R <$> r.

(** [F.softmax(x, dim=-1)] *)
Definition softmax (x : tensor R) : tensor R :=
  Tensor (shape x) (concat (softmax_row <$> rows x)).

Definition relu (x : tensor R) : tensor R := tmap (Rmax 0) x.
Definition tanh (x : tensor R) : tensor R := tmap Rtrigo_def.tanh x.

(** [x.expand(-1, k)] *)
Definition expand_m1 {A} (k : nat) (x : tensor A) : result (tensor A) :=
  match shape x with
  | [b; c] => of_option RuntimeError (expand_to [b; k] x)
  | _ => Raise RuntimeError
  end.

(** [x.mean(1)] *)
Definition mean1 (x : tensor R) : result (tensor R) :=
  match shape x with
  | b :: c :: rest =>
      Ok (Tensor (b :: rest)
            (concat ((λ ch, mean <$> transpose (numel rest) (chunks c (numel rest) ch))
                       <$> chunks b (c * numel rest) (data x))))
  | _ => Raise IndexError
  end.

(** [x.unsqueeze(1)] *)
Definition unsqueeze1 {A} (x : tensor A) : result (tensor A) :=
  match shape x with
  | b :: rest => Ok (Tensor (b :: 1 :: rest) (data x))
  | [] => Raise IndexError
  end.

(** [x.squeeze(1)] *)
Definition squeeze1 {A} (x : tensor A) : result (tensor A) :=
  match shape x with
  | b :: 1 :: rest => Ok (Tensor (b :: rest) (data x))
  | _ :: _ :: _ => Ok x
  | _ => Raise IndexError
  end.

Definition add (a b : tensor R) : result (tensor R) := binop Rplus a b.
Definition sub (a b : tensor R) : result (tensor R) := binop Rminus a b.
Definition div_scalar (x : tensor R) (c : R) : tensor R := tmap (λ s, s / c)%R x.

(** Bounds of a Python slice [lo:hi] on a dimension of size [n]. *)
Definition slice_index (i : Z) (n : nat) : nat :=
  if (i <? 0)%Z then Z.to_nat (Z.max 0 (i + Z.of_nat n))
  else Z.to_nat (Z.min i (Z.of_nat n)).
Definition slice_bounds (lo : Z) (hi : option Z) (n : nat) : nat * nat :=
  let l := slice_index lo n in
  let h := match hi with Some h => slice_index h n | None => n end in
  (l, h - l).

(** [x[:, lo:hi, :]] *)
Definition slice1 {A} (lo : Z) (hi : option Z) (x : tensor A) : result (tensor A) :=
  match shape x with
  | b :: n :: f :: rest =>
      let '(l, w) := slice_bounds lo hi n in
      let k := numel (f :: rest) in
      Ok (Tensor (b :: w :: f :: rest)
            (concat ((λ c, take (w * k) (drop (l * k) c)) <$> chunks b (n * k) (data x))))
  | _ => Raise IndexError
  end.

(** [x[:, :, lo:hi]] *)
Definition slice2 {A} (lo : Z) (hi : option Z) (x : tensor A) : result (tensor A) :=
  match shape x with
  | b :: n :: f :: rest =>
      let '(l, w) := slice_bounds lo hi f in
      let k := numel rest in
      Ok (Tensor (b :: n :: w :: rest)
            (concat ((λ c, take (w * k) (drop (l * k) c)) <$> chunks (b * n) (f * k) (data x))))
  | _ => Raise IndexError
  end.

(** [x < c] *)
Definition lt_scalar (x : tensor R) (c : R) : tensor bool :=
  tmap (λ s, if Rlt_dec s c then true else false) x.

(** [x.repeat((1, h, 1, 1))] *)
Definition repeat_1h11 {A} (h : nat) (x : tensor A) : result (tensor A) :=
  match shape x with
  | [b; c; d; e] =>
      Ok (Tensor [b; c * h; d; e]
            (concat ((λ ch, concat (replicate h ch)) <$> chunks b (c * d * e) (data x))))
  | _ => Raise RuntimeError
  end.

End torch.

(** ** Module objects, the heap and the generator *)

(** [nn.Linear]: [weight] has [out_features] rows of [in_features]
    entries. *)
Record Linear := {
  in_features : nat;
  out_features : nat;
  weight : list (list R);
  bias : option (list R)
}.

(** [nn.Dropout]; [training] is the mode flag of [nn.Module], which a
    new module has set. *)
Record Dropout := {
  p : R;
  training : bool
}.

Inductive activation_fn := F_relu | torch_tanh.

Record MultiLayerPerceptron := {
  mlp_config : dict;
  activation : activation_fn;
  layers : list Linear;
  predict : option Linear
}.

(** A sub-module built by [model_factory] is held by reference. *)
Definition loc := nat.

Record DuelingNetwork := {
  dueling_config : dict;
  base_module : loc;
  advantage : Linear;
  value : Linear
}.

(** [att_training] is the mode flag of the layer itself, the one that
    [train()] and [eval()] of an enclosing network set. *)
Record EgoAttention := {
  att_config : dict;
  features_per_head : Z;
  value_all : Linear;
  key_all : Linear;
  query_ego : Linear;
  attention_combine : Linear;
  att_training : bool
}.

Record EgoAttentionNetwork := {
  net_config : dict;
  ego_embedding : loc;
  others_embedding : loc;
  attention_layer : EgoAttention;
  output_layer : loc
}.

Inductive module :=
| ModMLP (m : MultiLayerPerceptron)
| ModDueling (d : DuelingNetwork)
| ModEgoNet (n : EgoAttentionNetwork).

(** The generator: a stream of uniform draws from [0, 1) and the number
    of draws consumed so far. *)
Record rng := Rng { draws : nat → R; pos : nat }.

Record world := World { heap : gmap loc module; gen : rng }.

Definition M (A : Type) : Type := world → result (A * world).

#[global] Instance M_ret : MRet M := λ A a w, Ok (a, w).
#[global] Instance M_bind : MBind M :=
  λ A B f m w, match m w with Ok (a, w') => f a w' | Raise e => Raise e end.
#[global] Instance M_fmap : FMap M :=
  λ A B f m w, match m w with Ok (a, w') => Ok (f a, w') | Raise e => Raise e end.

Definition lift {A} (r : result A) : M A :=
  λ w, match r with Ok a => Ok (a, w) | Raise e => Raise e end.

Definition raise {A} (e : exn) : M A := λ _, Raise e.

(** [n] fresh draws. *)
Definition uniform (n : nat) : M (list R) :=
  λ w, Ok (draws (gen w) <$> seq (pos (gen w)) n,
           World (heap w) (Rng (draws (gen w)) (pos (gen w) + n))).

(** A new object on the heap. *)
Definition alloc (m : module) : M loc :=
  λ w, let l := fresh (dom (heap w)) in Ok (l, World (<[l := m]> (heap w)) (gen w)).

(** ** [nn.Linear] and [nn.Dropout] *)

(** The parameters of a new layer are drawn from the generator. *)
Definition Linear_init (in_features out_features : pyval) (with_bias : bool) : M Linear :=
  i ← lift (as_size in_features);
  o ← lift (as_size out_features);
  w ← uniform (o * i);
  b ← (if with_bias then Some <$> uniform o else mret None);
  mret {| in_features := i; out_features := o; weight := chunks o i w; bias := b |}.

(** One row through the layer: [x W^T + b]. *)
Definition Linear_row (self : Linear) (x : list R) : list R :=
  let y := dot x <$> weight self in
  match bias self with
  | Some b => zip_with Rplus y b
  | None => y
  end.

Definition Linear_forward (self : Linear) (x : tensor R) : result (tensor R) :=
  match split_last (shape x) with
  | Some (lead, d) =>
      if decide (d = in_features self) then
        Ok (Tensor (lead ++ [out_features self])
              (concat (Linear_row self <$> chunks (numel lead) d (data x))))
      else Raise RuntimeError
  | None => Raise RuntimeError
  end.

Definition Dropout_init (p : pyval) : result Dropout :=
  p ← as_float p;
  if Rlt_dec p 0 then Raise (ValueError "dropout probability has to be between 0 and 1")
  else if Rlt_dec 1 p then Raise (ValueError "dropout probability has to be between 0 and 1")
  else Ok {| p := p; training := true |}.

(** [F.dropout(x, p, training)]: the identity when [p] is 0, outside
    training or on an empty tensor; otherwise each entry is kept with
    probability [1 - p] and the kept ones are scaled by [1 / (1 - p)]. *)
Definition Dropout_forward (self : Dropout) (x : tensor R) : M (tensor R) :=
  if Req_dec_T (p self) 0 then mret x
  else if negb (training self) then mret x
  else if decide (numel (shape x) = 0) then mret x
  else if Req_dec_T (p self) 1 then mret (tmap (λ _, 0%R) x)
  else
    us ← uniform (numel (shape x));
    mret (Tensor (shape x)
            (zip_with (λ s u, s * ((if Rlt_dec u (1 - p self) then 1 else 0) / (1 - p self)))%R
               (data x) us)).

(** ** [attention] *)

Definition attention (query key value : tensor R) (mask : option (tensor bool))
    (dropout : option Dropout) : M (tensor R * tensor R) :=
  d_k ← lift (torch.size_last query);
  keyT ← lift (torch.transpose_last2 key);
  qk ← lift (torch.matmul query keyT);
  let scores := torch.div_scalar qk (sqrt (INR d_k)) in
  scores ← lift (match mask with
                 | Some m => torch.masked_fill scores m (-1e9)
                 | None => Ok scores
                 end);
  let p_attn := torch.softmax scores in
  p_attn ← match dropout with
           | Some d => Dropout_forward d p_attn
           | None => mret p_attn
           end;
  output ← lift (torch.matmul p_attn value);
  mret (output, p_attn).

(** ** Factories of functions *)

Definition py_eq_str (v : pyval) (s : string) : bool :=
  match v with PyStr t => String.eqb t s | _ => false end.

Definition activation_factory (activation_type : pyval) : result activation_fn :=
  if py_eq_str activation_type "RELU" then Ok F_relu
  else if py_eq_str activation_type "TANH" then Ok torch_tanh
  else Raise (ValueError "Unknown activation_type").

Definition apply_activation (f : activation_fn) (x : tensor R) : tensor R :=
  match f with
  | F_relu => torch.relu x
  | torch_tanh => torch.tanh x
  end.

(** ** [MultiLayerPerceptron] *)

Definition MultiLayerPerceptron_default_config : dict :=
  {[ "in" := PyNone;
     "layers" := PyList [PyInt 64; PyInt 64];
     "activation" := PyStr "RELU";
     "reshape" := PyStr "True";
     "out" := PyNone ]}.

#[global] Instance pyval_inhabited : Inhabited pyval := populate PyNone.

(** The constructor; the second component is the resolved mapping, which
    the caller's [config] holds afterwards. *)
Definition MultiLayerPerceptron_init (config : dict) : M (MultiLayerPerceptron * dict) :=
  let config := Configurable_init MultiLayerPerceptron_default_config config in
  in_ ← lift (getitem config "in");
  ls ← lift (getitem config "layers" ≫= as_list);
  let sizes := in_ :: ls in
  act ← lift (getitem config "activation" ≫= activation_factory);
  layers_list ← mapM (λ i, Linear_init (sizes !!! i) (sizes !!! (i + 1)) true)
                     (seq 0 (length sizes - 1));
  pred ← (if truthy (dict_get config "out") then
            out ← lift (getitem config "out");
            Some <$> Linear_init (default PyNone (last sizes)) out true
          else mret None);
  mret ({| mlp_config := config; activation := act;
           layers := layers_list; predict := pred |}, config).

(** [for layer in self.layers: x = self.activation(layer(x))] *)
Fixpoint forward_layers (act : activation_fn) (ls : list Linear) (x : tensor R)
    : result (tensor R) :=
  match ls with
  | [] => Ok x
  | layer :: ls' =>
      y ← Linear_forward layer x;
      forward_layers act ls' (apply_activation act y)
  end.

(** The part of [forward] after the optional flattening. *)
Definition MultiLayerPerceptron_body (self : MultiLayerPerceptron) (x : tensor R)
    : result (tensor R) :=
  x ← forward_layers (activation self) (layers self) x;
  if truthy (dict_get (mlp_config self) "out") then
    match predict self with
    | Some pr => Linear_forward pr x
    | None => Raise (AttributeError "predict")
    end
  else Ok x.

(** [x.reshape(x.shape[0], -1)] *)
Definition reshape_batch (x : tensor R) : result (tensor R) :=
  b ← torch.shape_at x 0;
  torch.reshape_infer b x.

Definition MultiLayerPerceptron_forward (self : MultiLayerPerceptron) (x : tensor R)
    : result (tensor R) :=
  reshape ← getitem (mlp_config self) "reshape";
  x ← (if truthy reshape then reshape_batch x else Ok x);
  MultiLayerPerceptron_body self x.

(** ** [DuelingNetwork] *)

Definition DuelingNetwork_default_config : dict :=
  {[ "in" := PyNone;
     "base_module" := PyDict {[ "type" := PyStr "MultiLayerPerceptron"; "out" := PyNone ]};
     "out" := PyNone ]}.

Definition DuelingNetwork_init (model_factory : dict → M (loc * dict)) (config : dict)
    : M (DuelingNetwork * dict) :=
  let config := Configurable_init DuelingNetwork_default_config config in
  in_ ← lift (getitem config "in");
  bm ← lift (getitem config "base_module" ≫= as_dict);
  '(base, bm) ← model_factory (<["in" := in_]> bm);
  hidden ← lift (getitem bm "layers" ≫= as_list);
  out ← lift (getitem config "out");
  width ← lift (of_option IndexError (last hidden));
  adv ← Linear_init width out true;
  hidden ← lift (getitem bm "layers" ≫= as_list);
  width ← lift (of_option IndexError (last hidden));
  val ← Linear_init width (PyInt 1) true;
  let config := <["base_module" := PyDict bm]> config in
  mret ({| dueling_config := config; base_module := base;
           advantage := adv; value := val |}, config).

Definition DuelingNetwork_forward (call : loc → tensor R → M (tensor R))
    (self : DuelingNetwork) (x : tensor R) : M (tensor R) :=
  x ← call (base_module self) x;
  adv ← lift (Linear_forward (advantage self) x);
  v ← lift (Linear_forward (value self) x);
  out ← lift (getitem (dueling_config self) "out" ≫= as_size);
  v ← lift (torch.expand_m1 out v);
  s ← lift (torch.add v adv);
  m ← lift (torch.mean1 adv ≫= torch.unsqueeze1);
  out ← lift (getitem (dueling_config self) "out" ≫= as_size);
  m ← lift (torch.expand_m1 out m);
  lift (torch.sub s m).

(** ** [EgoAttention] *)

Definition EgoAttention_default_config : dict :=
  {[ "feature_size" := PyInt 64;
     "heads" := PyInt 4;
     "dropout_factor" := PyInt 0 ]}.

(** [a / b] on numbers, and [int(r)], which truncates toward zero. *)
Definition py_truediv (a b : pyval) : result R :=
  x ← as_float a;
  y ← as_float b;
  if Req_dec_T y 0 then Raise ZeroDivisionError else Ok (x / y)%R.
Definition py_int (r : R) : Z :=
  if Rle_dec 0 r then Int_part r else (- Int_part (- r))%Z.

Definition EgoAttention_init (config : dict) : M (EgoAttention * dict) :=
  let config := Configurable_init EgoAttention_default_config config in
  fs ← lift (getitem config "feature_size");
  hd ← lift (getitem config "heads");
  q ← lift (py_truediv fs hd);
  v ← Linear_init fs fs false;
  k ← Linear_init fs fs false;
  qe ← Linear_init fs fs false;
  c ← Linear_init fs fs false;
  mret ({| att_config := config; features_per_head := py_int q;
           value_all := v; key_all := k; query_ego := qe;
           attention_combine := c; att_training := true |}, config).

(** A Python integer passed as a size of [view]. *)
Definition size_of_Z (z : Z) : result nat :=
  if (z <? 0)%Z then Raise RuntimeError else Ok (Z.to_nat z).

Definition EgoAttention_forward (self : EgoAttention) (ego others : tensor R)
    (mask : option (tensor bool)) : M (tensor R * tensor R) :=
  let cfg := att_config self in
  batch_size ← lift (torch.shape_at others 0);
  n_others ← lift (torch.shape_at others 1);
  let n_entities := n_others + 1 in
  feature_size ← lift (getitem cfg "feature_size" ≫= as_size);
  ego3 ← lift (torch.view [batch_size; 1; feature_size] ego);
  input_all ← lift (torch.cat1 ego3 others);
  k ← lift (Linear_forward (key_all self) input_all);
  heads ← lift (getitem cfg "heads" ≫= as_size);
  fph ← lift (size_of_Z (features_per_head self));
  k ← lift (torch.view [batch_size; n_entities; heads; fph] k);
  v ← lift (Linear_forward (value_all self) input_all);
  heads ← lift (getitem cfg "heads" ≫= as_size);
  v ← lift (torch.view [batch_size; n_entities; heads; fph] v);
  q ← lift (Linear_forward (query_ego self) ego);
  heads ← lift (getitem cfg "heads" ≫= as_size);
  q ← lift (torch.view [batch_size; 1; heads; fph] q);
  k ← lift (torch.permute_0213 k);
  v ← lift (torch.permute_0213 v);
  q ← lift (torch.permute_0213 q);
  mask ← match mask with
         | Some m =>
             m ← lift (torch.view [batch_size; 1; 1; n_entities] m);
             heads ← lift (getitem cfg "heads" ≫= as_size);
             Some <$> lift (torch.repeat_1h11 heads m)
         | None => mret None
         end;
  dropout ← lift (getitem cfg "dropout_factor" ≫= Dropout_init);
  '(attended, attention_matrix) ← attention q k v mask (Some dropout);
  feature_size ← lift (getitem cfg "feature_size" ≫= as_size);
  flat ← lift (torch.view [batch_size; feature_size] attended);
  combined ← lift (Linear_forward (attention_combine self) flat);
  ego1 ← lift (torch.squeeze1 ego);
  s ← lift (torch.add combined ego1);
  mret (torch.div_scalar s 2, attention_matrix).

(** ** [EgoAttentionNetwork] *)

Definition EgoAttentionNetwork_default_config : dict :=
  {[ "in" := PyNone;
     "out" := PyNone;
     "n_head" := PyInt 4;
     "presence_feature_idx" := PyInt 0;
     "embedding_layer" := PyDict {[ "type" := PyStr "MultiLayerPerceptron";
                                    "layers" := PyList [PyInt 128; PyInt 128; PyInt 128];
                                    "reshape" := PyBool false ]};
     "attention_layer" := PyDict {[ "type" := PyStr "EgoAttention";
                                    "feature_size" := PyInt 128;
                                    "heads" := PyInt 4 ]};
     "output_layer" := PyDict {[ "type" := PyStr "MultiLayerPerceptron";
                                 "layers" := PyList [PyInt 128; PyInt 128; PyInt 128];
                                 "reshape" := PyBool false ]} ]}.

Definition EgoAttentionNetwork_init (model_factory : dict → M (loc * dict)) (config : dict)
    : M (EgoAttentionNetwork * dict) :=
  let config := Configurable_init EgoAttentionNetwork_default_config config in
  emb ← lift (getitem config "embedding_layer" ≫= as_dict);
  emb_in ← lift (getitem emb "in");
  emb ← (if negb (truthy emb_in) then
           in_ ← lift (getitem config "in");
           mret (<["in" := in_]> emb)
         else mret emb);
  att ← lift (getitem config "attention_layer" ≫= as_dict);
  fs ← lift (getitem att "feature_size");
  outl ← lift (getitem config "output_layer" ≫= as_dict);
  let outl := <["in" := fs]> outl in
  out ← lift (getitem config "out");
  let outl := <["out" := out]> outl in
  '(emb_ref, emb) ← model_factory emb;
  let ego_embedding := emb_ref in
  let others_embedding := ego_embedding in
  '(att_obj, att) ← EgoAttention_init att;
  '(out_ref, outl) ← model_factory outl;
  let config := <["output_layer" := PyDict outl]>
                  (<["attention_layer" := PyDict att]>
                     (<["embedding_layer" := PyDict emb]> config)) in
  mret ({| net_config := config;
           ego_embedding := ego_embedding;
           others_embedding := others_embedding;
           attention_layer := att_obj;
           output_layer := out_ref |}, config).

Definition as_int (v : pyval) : result Z :=
  match v with
  | PyInt z => Ok z
  | PyBool b => Ok (if b then 1 else 0)%Z
  | _ => Raise TypeError
  end.

Definition split_input (self : EgoAttentionNetwork) (x : tensor R)
    : result (tensor R * tensor R * tensor bool) :=
  ego ← torch.slice1 0 (Some 1%Z) x;
  others ← torch.slice1 1 None x;
  idx ← getitem (net_config self) "presence_feature_idx" ≫= as_int;
  idx' ← getitem (net_config self) "presence_feature_idx" ≫= as_int;
  presence ← torch.slice2 idx (Some (idx' + 1)%Z) x;
  Ok (ego, others, torch.lt_scalar presence 0.5).

Definition EgoAttentionNetwork_forward (call : loc → tensor R → M (tensor R))
    (self : EgoAttentionNetwork) (x : tensor R) : M (tensor R) :=
  '(ego, others, mask) ← lift (split_input self x);
  e ← call (ego_embedding self) ego;
  o ← call (others_embedding self) others;
  '(ego_embedded_att, _) ← EgoAttention_forward (attention_layer self) e o (Some mask);
  call (output_layer self) ego_embedded_att.

Definition get_attention_matrix (call : loc → tensor R → M (tensor R))
    (self : EgoAttentionNetwork) (x : tensor R) : M (tensor R) :=
  '(ego, others, mask) ← lift (split_input self x);
  e ← call (ego_embedding self) ego;
  o ← call (others_embedding self) others;
  '(_, attention_matrix) ← EgoAttention_forward (attention_layer self) e o (Some mask);
  mret attention_matrix.

(** ** [optimizer_factory] *)

(** An optimizer of [torch.optim] is represented by the class that is
    called and the keyword arguments it is given; what the class does
    with them is the library's. *)
Inductive optimizer (P : Type) :=
| torch_optim_Adam (params : P) (lr weight_decay : pyval)
| torch_optim_RMSprop (params : P) (weight_decay : pyval).
Arguments torch_optim_Adam {P} params lr weight_decay.
Arguments torch_optim_RMSprop {P} params weight_decay.

Definition optimizer_factory {P} (optimizer_type : pyval) (params : P)
    (lr weight_decay : pyval) : result (optimizer P) :=
  if py_eq_str optimizer_type "ADAM" then
    Ok (torch_optim_Adam params lr weight_decay)
  else if py_eq_str optimizer_type "RMS_PROP" then
    Ok (torch_optim_RMSprop params weight_decay)
  else Raise (ValueError "Unknown optimizer type").

(** ** [model_factory] and the call of a module held by reference *)

(** The constructors call [model_factory] for their sub-modules; [fuel]
    bounds the depth of that recursion, as the interpreter's recursion
    limit does. *)
Fixpoint model_factory (fuel : nat) (config : dict) : M (loc * dict) :=
  match fuel with
  | 0 => raise RecursionError
  | S fuel =>
      ty ← lift (getitem config "type");
      if py_eq_str ty "MultiLayerPerceptron" then
        '(m, c) ← MultiLayerPerceptron_init config;
        l ← alloc (ModMLP m);
        mret (l, c)
      else if py_eq_str ty "DuelingNetwork" then
        '(d, c) ← DuelingNetwork_init (model_factory fuel) config;
        l ← alloc (ModDueling d);
        mret (l, c)
      else if py_eq_str ty "EgoAttentionNetwork" then
        '(n, c) ← EgoAttentionNetwork_init (model_factory fuel) config;
        l ← alloc (ModEgoNet n);
        mret (l, c)
      else raise (ValueError "Unknown model type")
  end.

(** [self.sub(x)]: the forward pass of the module at [l]. *)
Fixpoint call (fuel : nat) (l : loc) (x : tensor R) : M (tensor R) :=
  match fuel with
  | 0 => raise RecursionError
  | S fuel =>
      λ w, match heap w !! l with
           | Some (ModMLP m) => lift (MultiLayerPerceptron_forward m x) w
           | Some (ModDueling d) => DuelingNetwork_forward (call fuel) d x w
           | Some (ModEgoNet n) => EgoAttentionNetwork_forward (call fuel) n x w
           | None => Raise (AttributeError "module")
           end
  end.

(** ** Views used to state the properties *)

(** The matrices of a tensor whose last two dimensions are [n] and [m]:
    [c] row-major blocks, each a list of [n] rows. *)
Definition mats {A} (c n m : nat) (d : list A) : list (list (list A)) :=
  chunks n m <$> chunks c (n * m) d.

(** [sum_j p_j * V_j]: the rows of [V] weighted by [p]. *)
Fixpoint wsum (w : nat) (p : list R) (V : list (list R)) : list R :=
  match p, V with
  | pj :: p', vj :: V' => zip_with Rplus (Rmult pj <$> vj) (wsum w p' V')
  | _, _ => replicate w 0%R
  end.

(** What the attention primitive is to compute on one head, on the rows
    [Q] of the queries, [K] of the keys and [V] of the values: the scaled
    scores, the sentinel at the masked positions, the softmax of each
    row, and the values weighted by it. *)
Definition scores_spec (d : nat) (Q K : list (list R)) : list (list R) :=
  (λ q, (λ k, dot q k / sqrt (INR d))%R <$> K) <$> Q.

Definition fill_row (s : list R) (mk : list bool) : list R :=
  zip_with (λ x (m : bool), if m then (-1e9)%R else x) s mk.

Definition fill_spec (S : list (list R)) (Mk : list (list bool)) : list (list R) :=
  zip_with fill_row S Mk.

Definition probs_spec (S : list (list R)) : list (list R) :=
  torch.softmax_row <$> S.

Definition output_spec (w : nat) (P V : list (list R)) : list (list R) :=
  (λ p, wsum w p V) <$> P.

(** The same on every head: [Qs], [Ks], [Vs] and [Ms] list the matrices
    of the heads. *)
Definition heads_scores (d : nat) (Qs Ks : list (list (list R)))
    (Ms : option (list (list (list bool)))) : list (list (list R)) :=
  let Ss := zip_with (scores_spec d) Qs Ks in
  match Ms with
  | Some ms => zip_with fill_spec Ss ms
  | None => Ss
  end.

Definition flat3 {A} (xs : list (list (list A))) : list A :=
  concat (@concat A <$> xs).

(** The rows of scaled scores of a call, before the mask is applied. *)
Definition score_rows (d c nq nk : nat) (query key : tensor R) : list (list R) :=
  concat (zip_with (scores_spec d) (mats c nq d (data query)) (mats c nk d (data key))).

(** The number of masked positions of a row of the mask, and the sum of
    the weights of a row over the unmasked positions. *)
Definition masked_count (mk : list bool) : nat :=
  length (filter (λ b, b = true) mk).

Definition unmasked_sum (P : list R) (mk : list bool) : R :=
  sumR (zip_with (λ x (m : bool), if m then 0%R else x) P mk).

Definition unmasked_exp (s : list R) (mk : list bool) : R :=
  sumR (zip_with (λ x (m : bool), if m then 0%R else exp x) s mk).

(** The entries of an optional mask broadcast to the shape [s]. *)
Definition mask_bits (s : list nat) (mask : option (tensor bool))
    : option (option (list bool)) :=
  match mask with
  | None => Some None
  | Some m => (λ t, Some (data t)) <$> expand_to s m
  end.

(** A dropout that leaves its input alone. *)
Definition dropout_idle (dropout : option Dropout) : Prop :=
  match dropout with
  | None => True
  | Some d => p d = 0%R ∨ training d = false
  end.

(** [c] matrices of [n] rows of [m] entries. *)
Definition shaped3 {A} (c n m : nat) (xs : list (list (list A))) : Prop :=
  length xs = c ∧ Forall (λ x, length x = n ∧ Forall (λ r, length r = m) x) xs.

(** The parameters of a layer have the sizes that its constructor gives
    them. *)
Definition Linear_wf (l : Linear) : Prop :=
  length (weight l) = out_features l
  ∧ ∀ b, bias l = Some b → length b = out_features l.

(** *** The tensors that [EgoAttention.forward] hands to [attention] *)

(** The ego followed by the others, along the entities. *)
Definition input_all (b n fs : nat) (ego others : tensor R) : tensor R :=
  Tensor [b; 1 + n; fs]
    (concat (zip_with app (chunks b fs (data ego)) (chunks b (n * fs) (data others)))).

(** The entries of one batch element, from entity-major to
    head-major. *)
Definition by_head {A} (N heads fph : nat) (c : list A) : list A :=
  concat (concat (transpose heads (chunks N heads (chunks (N * heads) fph c)))).

(** A projection of [N] entities per batch element, split into heads. *)
Definition heads_of (lin : Linear) (b N heads fph : nat) (x : tensor R) : tensor R :=
  Tensor [b; heads; N; fph]
    (concat (by_head N heads fph
               <$> chunks b (N * heads * fph)
                     (concat (Linear_row lin <$> chunks (b * N) (in_features lin) (data x))))).

(** The mask of the [N] entities, repeated for every head. *)
Definition head_mask (b N heads : nat) (m : tensor bool) : tensor bool :=
  Tensor [b; heads; 1; N]
    (concat ((λ ch, concat (replicate heads ch)) <$> chunks b N (data m))).

(** A layer as its constructor leaves it, for a feature size [fs] that
    [heads] divides, with the dropout [drop] that its configuration
    gives. *)
Definition att_ok (self : EgoAttention) (fs heads fph : nat) (drop : Dropout) : Prop :=
  att_config self !! "feature_size" = Some (PyInt (Z.of_nat fs))
  ∧ att_config self !! "heads" = Some (PyInt (Z.of_nat heads))
  ∧ (getitem (att_config self) "dropout_factor" ≫= Dropout_init) = Ok drop
  ∧ features_per_head self = Z.of_nat fph
  ∧ fs = heads * fph
  ∧ Forall (λ l, in_features l = fs ∧ out_features l = fs ∧ Linear_wf l)
      [value_all self; key_all self; query_ego self; attention_combine self].

(** *** The dense block row by row *)

Definition act_fn (a : activation_fn) : R → R :=
  match a with
  | F_relu => Rmax 0
  | torch_tanh => Rtrigo_def.tanh
  end.

(** One row through the layers, each followed by the activation. *)
Fixpoint layers_row (a : activation_fn) (ls : list Linear) (r : list R) : list R :=
  match ls with
  | [] => r
  | l :: ls' => layers_row a ls' (act_fn a <$> Linear_row l r)
  end.

(** One row through the block. *)
Definition mlp_row (m : MultiLayerPerceptron) (r : list R) : list R :=
  let y := layers_row (activation m) (layers m) r in
  if truthy (dict_get (mlp_config m) "out") then
    match predict m with
    | Some pr => Linear_row pr y
    | None => y
    end
  else y.

(** The sizes of the layers chain from [i] to [o]. *)
Fixpoint layers_ok (ls : list Linear) (i o : nat) : Prop :=
  match ls with
  | [] => i = o
  | l :: ls' => in_features l = i ∧ Linear_wf l ∧ layers_ok ls' (out_features l) o
  end.

(** A block from [i] to [o] features that does not flatten its input,
    as the embedding and output blocks of the network are configured. *)
Definition mlp_ok (m : MultiLayerPerceptron) (i o : nat) : Prop :=
  (∃ v, mlp_config m !! "reshape" = Some v ∧ truthy v = false)
  ∧ ∃ mid, layers_ok (layers m) i mid
           ∧ if truthy (dict_get (mlp_config m) "out")
             then ∃ pr, predict m = Some pr ∧ in_features pr = mid
                        ∧ out_features pr = o ∧ Linear_wf pr
             else mid = o.

(** *** The split of the input of the network *)

Definition ego_of (b N F : nat) (x : tensor R) : tensor R :=
  Tensor [b; 1; F] (concat ((λ c, take F c) <$> chunks b (N * F) (data x))).

Definition others_of (b N F : nat) (x : tensor R) : tensor R :=
  Tensor [b; N - 1; F]
    (concat ((λ c, take ((N - 1) * F) (drop F c)) <$> chunks b (N * F) (data x))).

(** One bit per entity, the ego included: whether its presence feature
    is below 0.5. *)
Definition presence_of (b N F idx : nat) (x : tensor R) : tensor bool :=
  Tensor [b; N; 1]
    ((λ s, if Rlt_dec s 0.5 then true else false)
       <$> concat ((λ c, take 1 (drop idx c)) <$> chunks (b * N) F (data x))).

(** A network whose embedding and output blocks are dense blocks on the
    heap [σ] that do not flatten, from [F] raw features to the feature
    size [fs] of the attention layer and from [fs] to [out]. *)
Definition net_ok (self : EgoAttentionNetwork) (σ : gmap loc module)
    (F fs heads fph out idx : nat) (drop : Dropout) : Prop :=
  (∃ m, σ !! ego_embedding self = Some (ModMLP m) ∧ mlp_ok m F fs)
  ∧ (∃ m, σ !! others_embedding self = Some (ModMLP m) ∧ mlp_ok m F fs)
  ∧ (∃ m, σ !! output_layer self = Some (ModMLP m) ∧ mlp_ok m fs out)
  ∧ att_ok (attention_layer self) fs heads fph drop
  ∧ net_config self !! "presence_feature_idx" = Some (PyInt (Z.of_nat idx))
  ∧ idx < F.

(** ** Small instances *)

(** An empty heap and a generator that only draws 0. *)
Definition world0 : world := World ∅ (Rng (λ _, 0%R) 0).

(** One head, one query and two keys; the second key is masked. *)
Definition ex_query : tensor R := Tensor [1; 1; 1; 1] [1%R].
Definition ex_key : tensor R := Tensor [1; 1; 2; 1] [3%R; 5%R].
Definition ex_value : tensor R := Tensor [1; 1; 2; 1] [7%R; 11%R].
Definition ex_mask : tensor bool := Tensor [1; 1; 1; 2] [false; true].

(** The same with an unmasked key whose score is far below the
    sentinel. *)
Definition low_key : tensor R := Tensor [1; 1; 2; 1] [(-2e9)%R; 0%R].

(** A dense block that never flattens: the block of one layer of one
    input and one output, applied to any number of entities. *)
Definition unit_linear (with_bias : bool) : Linear :=
  {| in_features := 1; out_features := 1; weight := [[1%R]];
     bias := if with_bias then Some [0%R] else None |}.

Definition unit_mlp (reshape : pyval) : MultiLayerPerceptron :=
  {| mlp_config := <["reshape" := reshape]> (<["in" := PyInt 1]> (<["layers" := PyList [PyInt 1]]>
                     MultiLayerPerceptron_default_config));
     activation := F_relu;
     layers := [unit_linear true];
     predict := None |}.

(** A dueling head on the representation [repr]: two actions, the value
    and both advantages read off the single feature. *)
Definition ex_dueling : DuelingNetwork :=
  {| dueling_config := {[ "in" := PyInt 1; "out" := PyInt 2 ]};
     base_module := 0;
     advantage := {| in_features := 1; out_features := 2;
                     weight := [[1%R]; [3%R]]; bias := Some [0%R; 0%R] |};
     value := unit_linear true |}.

(** A dense block without layers, and a heap that holds it at 0 as the
    base module of [ex_dueling]. *)
Definition id_mlp : MultiLayerPerceptron :=
  {| mlp_config := {[ "reshape" := PyBool false ]};
     activation := F_relu; layers := []; predict := None |}.

Definition dueling_world : world :=
  World {[ 0 := ModMLP id_mlp ]} (Rng (λ _, 0%R) 0).

(** An attention layer of one head on one feature, in evaluation mode,
    with the dropout factor [dropout_factor]; and its inputs: an ego, one
    other entity, and the mask that hides the other. *)
Definition ex_att (dropout_factor : pyval) : EgoAttention :=
  {| att_config := {[ "feature_size" := PyInt 1; "heads" := PyInt 1;
                      "dropout_factor" := dropout_factor ]};
     features_per_head := 1;
     value_all := unit_linear false;
     key_all := unit_linear false;
     query_ego := unit_linear false;
     attention_combine := unit_linear false;
     att_training := false |}.

Definition ex_ego : tensor R := Tensor [1; 1; 1] [2%R].
Definition ex_others : tensor R := Tensor [1; 1; 1] [3%R].
Definition ex_presence : tensor bool := Tensor [1; 2; 1] [false; true].
Definition no_others : tensor R := Tensor [1; 0; 1] [].

(** A generator whose first draw keeps an entry at [p = 0.5] and whose
    later draws drop it. *)
Definition flip_world : world :=
  World ∅ (Rng (λ i, if decide (i = 0) then 0%R else 1%R) 0).

(** A network on one raw feature, which is also the presence feature:
    the embedding block, shared by both roles, is at 0 and the output
    block at 1 of the heap of [net_world]. *)
Definition ex_net : EgoAttentionNetwork :=
  {| net_config := {[ "presence_feature_idx" := PyInt 0 ]};
     ego_embedding := 0;
     others_embedding := 0;
     attention_layer := ex_att (PyInt 0);
     output_layer := 1 |}.

Definition net_world : world :=
  World {[ 0 := ModMLP (unit_mlp (PyBool false));
           1 := ModMLP (unit_mlp (PyBool false)) ]} (Rng (λ _, 0%R) 0).

(** A lone absent ego, and an absent ego with an absent other. *)
Definition ex_alone : tensor R := Tensor [1; 1; 1] [0%R].
Definition ex_absent : tensor R := Tensor [1; 2; 1] [0%R; 0%R].

(** A configuration of the network on one feature: embedding and output
    blocks without layers, one head. *)
Definition ex_net_config : dict :=
  {[ "embedding_layer" := PyDict {[ "type" := PyStr "MultiLayerPerceptron";
                                    "in" := PyInt 1;
                                    "layers" := PyList [];
                                    "reshape" := PyBool false ]};
     "attention_layer" := PyDict {[ "type" := PyStr "EgoAttention";
                                    "feature_size" := PyInt 1;
                                    "heads" := PyInt 1 ]};
     "output_layer" := PyDict {[ "type" := PyStr "MultiLayerPerceptron";
                                 "layers" := PyList [];
                                 "reshape" := PyBool false ]} ]}.

(** A configuration of a dense block from 2 features through 3 to 1,
    whose [out] is the integer 0. *)
Definition ex_mlp_config : dict :=
  {[ "in" := PyInt 2; "layers" := PyList [PyInt 3; PyInt 1]; "out" := PyInt 0 ]}.

(** A configuration that spells the activation in lower case. *)
Definition ex_lowercase_config : dict := {[ "in" := PyInt 2; "activation" := PyStr "relu" ]}.

(** A configuration of a dueling head whose base module has no hidden
    layer. *)
Definition ex_flat_dueling_config : dict :=
  {[ "in" := PyInt 1; "out" := PyInt 2;
     "base_module" := PyDict {[ "type" := PyStr "MultiLayerPerceptron";
                                "layers" := PyList [] ]} ]}.

(** A configuration of a dueling head on a base module of one hidden
    layer of one unit. *)
Definition ex_dueling_config : dict :=
  {[ "in" := PyInt 1; "out" := PyInt 2;
     "base_module" := PyDict {[ "type" := PyStr "MultiLayerPerceptron";
                                "layers" := PyList [PyInt 1] ]} ]}.

(** * Properties *)

(** ** Blocks and columns *)

Section blocks.
Context {A : Type}.
Implicit Types (l : list A) (ls : list (list A)).

Lemma length_chunks k w l : length (chunks k w l) = k.
Proof. revert l; induction k as [|k IH]; intros l; simpl; [done|by rewrite IH]. Qed.

Lemma chunks_app k w a l :
  length a = w → chunks (S k) w (a ++ l) = a :: chunks k w l.
Proof.
  intros <-. simpl. by rewrite take_app_length, drop_app_length.
Qed.

Lemma chunks_concat w ls :
  Forall (λ c, length c = w) ls → chunks (length ls) w (concat ls) = ls.
Proof.
  induction 1 as [|c ls Hc _ IH]; [done|].
  cbn [length concat]. rewrite chunks_app by done. by rewrite IH.
Qed.

Lemma concat_chunks k w l : length l = k * w → concat (chunks k w l) = l.
Proof.
  revert l; induction k as [|k IH]; intros l Hl; simpl in *.
  - by destruct l.
  - rewrite IH; [apply take_drop|]. rewrite length_drop. lia.
Qed.

Lemma Forall_chunks k w l :
  k * w ≤ length l → Forall (λ c, length c = w) (chunks k w l).
Proof.
  revert l; induction k as [|k IH]; intros l Hl; simpl in *; constructor.
  - rewrite length_take. lia.
  - apply IH. rewrite length_drop. lia.
Qed.

Lemma chunks_take k w n l : k * w ≤ n → chunks k w (take n l) = chunks k w l.
Proof.
  revert n l; induction k as [|k IH]; intros n l Hn; simpl in *; [done|].
  rewrite take_take, Nat.min_l by lia. f_equal.
  replace n with (w + (n - w)) at 1 by lia.
  rewrite <- take_drop_commute. apply IH. lia.
Qed.

Lemma chunks_add j k w l :
  chunks (j + k) w l = chunks j w l ++ chunks k w (drop (j * w) l).
Proof.
  revert l; induction j as [|j IH]; intros l; simpl; [done|].
  rewrite IH, drop_drop. by rewrite (Nat.add_comm w).
Qed.

Lemma chunks_chunks a b w l :
  concat (chunks b w <$> chunks a (b * w) l) = chunks (a * b) w l.
Proof.
  revert l; induction a as [|a IH]; intros l; simpl; [done|].
  rewrite IH, chunks_add. f_equal. by apply chunks_take.
Qed.

Lemma chunks_fmap {B} (f : A → B) k w l :
  chunks k w (f <$> l) = (fmap f : list A → list B) <$> chunks k w l.
Proof.
  revert l; induction k as [|k IH]; intros l; simpl; [done|].
  by rewrite fmap_take, <- IH, fmap_drop.
Qed.

Lemma chunks_zip_with {B C} (f : A → B → C) k w l (l' : list B) :
  chunks k w (zip_with f l l') = zip_with (zip_with f) (chunks k w l) (chunks k w l').
Proof.
  revert l l'; induction k as [|k IH]; intros l l'; simpl; [done|].
  by rewrite <- IH, zip_with_take, zip_with_drop.
Qed.

Lemma length_transpose m ls :
  Forall (λ r, length r = m) ls → length (transpose m ls) = m.
Proof.
  induction 1 as [|r ls Hr _ IH]; simpl.
  - apply length_replicate.
  - rewrite length_zip_with. lia.
Qed.

Lemma Forall_zip_cons n (r : list A) (T : list (list A)) :
  Forall (λ c, length c = n) T →
  Forall (λ c, length c = S n) (zip_with cons r T).
Proof.
  intros HT; revert r; induction HT as [|c T Hc _ IH]; intros [|x r]; simpl;
    constructor; [by rewrite <- Hc|apply IH].
Qed.

Lemma Forall_transpose m ls :
  Forall (λ c, length c = length ls) (transpose m ls).
Proof.
  induction ls as [|r ls IH]; simpl.
  - by apply Forall_replicate.
  - by apply Forall_zip_cons.
Qed.

Lemma transpose_zip_cons n (r : list A) (T : list (list A)) :
  length r = length T →
  transpose (S n) (zip_with cons r T) = r :: transpose n T.
Proof.
  revert T; induction r as [|x r IH]; intros [|c T] Hl; simpl in *; try done.
  injection Hl as Hl. by rewrite IH.
Qed.

Lemma transpose_involutive m ls :
  Forall (λ r, length r = m) ls →
  transpose (length ls) (transpose m ls) = ls.
Proof.
  induction 1 as [|r ls Hr Hls IH]; simpl.
  - by destruct m.
  - rewrite transpose_zip_cons, IH; [done|].
    by rewrite length_transpose.
Qed.

End blocks.

(** ** Shapes and broadcasting *)

Lemma numel_app s t : numel (s ++ t) = numel s * numel t.
Proof. induction s as [|a s IH]; simpl; [lia|]. rewrite IH. lia. Qed.

Lemma split_last_snoc s d : split_last (s ++ [d]) = Some (s, d).
Proof. induction s as [|a s IH]; simpl; [done|]. by rewrite IH. Qed.

Lemma split_last_snoc2 s n m : split_last (s ++ [n; m]) = Some (s ++ [n], m).
Proof.
  replace (s ++ [n; m]) with ((s ++ [n]) ++ [m]) by (by rewrite <- app_assoc).
  apply split_last_snoc.
Qed.

Lemma split_last2_snoc s n m : split_last2 (s ++ [n; m]) = Some (s, n, m).
Proof. unfold split_last2. by rewrite split_last_snoc2, split_last_snoc. Qed.

Lemma pad_shape_same s : pad_shape (length s) s = s.
Proof. unfold pad_shape. by rewrite Nat.sub_diag. Qed.

Lemma broadcast_dims_same s : broadcast_dims s s = Some s.
Proof.
  induction s as [|a s IH]; simpl; [done|].
  rewrite IH. by rewrite decide_True.
Qed.

Lemma broadcast_shapes_same s : broadcast_shapes s s = Some s.
Proof.
  unfold broadcast_shapes. rewrite Nat.max_id, pad_shape_same.
  apply broadcast_dims_same.
Qed.

Lemma expandable_same s : expandable s s = true.
Proof.
  induction s as [|a s IH]; simpl; [done|].
  by rewrite bool_decide_eq_true_2, IH.
Qed.

Lemma expand_data_same {A} s (d : list A) :
  length d = numel s → expand_data s s d = d.
Proof.
  revert d; induction s as [|a s IH]; intros d Hd; simpl in *; [done|].
  rewrite decide_True by done.
  rewrite (Forall_fmap_ext_1 (expand_data s s) Datatypes.id).
  - rewrite list_fmap_id. by apply concat_chunks.
  - eapply Forall_impl; [apply (Forall_chunks a (numel s)); lia|].
    intros c Hc. by apply IH.
Qed.

Lemma expand_to_same {A} (t : tensor A) s :
  shape t = s → wf t → expand_to s t = Some t.
Proof.
  intros <- Hwf. unfold expand_to. rewrite pad_shape_same, expandable_same.
  rewrite expand_data_same by done. by destruct t.
Qed.

(** ** The monads *)

Lemma M_bind_lift {A B} (r : result A) (k : A → M B) (w : world) (a : A) :
  r = Ok a → (lift r ≫= k) w = k a w.
Proof. by intros ->. Qed.

Lemma M_bind_ok {A B} (m : M A) (k : A → M B) (w w' : world) (a : A) :
  m w = Ok (a, w') → (m ≫= k) w = k a w'.
Proof. unfold mbind, M_bind. by intros ->. Qed.

Lemma result_bind_ok {A B} (r : result A) (k : A → result B) (a : A) :
  r = Ok a → r ≫= k = k a.
Proof. by intros ->. Qed.

(** ** Matrix products *)

Lemma zip_with_ext_Forall {A B C} (f g : A → B → C) (P : A → Prop) (Q : B → Prop) l k :
  Forall P l → Forall Q k →
  (∀ x y, P x → Q y → f x y = g x y) →
  zip_with f l k = zip_with g l k.
Proof.
  intros Hl; revert k; induction Hl as [|x l Hx _ IH]; intros k Hk Hfg; [done|].
  destruct Hk as [|y k Hy Hk]; [done|]. simpl. f_equal; [by apply Hfg|by apply IH].
Qed.

Lemma fmap_zip_with {A B C D} (f : C → D) (g : A → B → C) l k :
  f <$> zip_with g l k = zip_with (λ x y, f (g x y)) l k.
Proof.
  revert k; induction l as [|x l IH]; intros [|y k]; simpl; try done.
  by rewrite IH.
Qed.

Lemma dot_nil_r a : dot a [] = 0%R.
Proof. unfold dot. by destruct a. Qed.

Lemma dot_cons x a y b : dot (x :: a) (y :: b) = (x * y + dot a b)%R.
Proof. done. Qed.

(** The dot products with the columns are the rows weighted by the
    entries. *)
Lemma dot_transpose w p V :
  Forall (λ v, length v = w) V →
  dot p <$> transpose w V = wsum w p V.
Proof.
  intros HV; revert p; induction HV as [|v V Hv HV IH]; intros p; simpl.
  - rewrite fmap_replicate, dot_nil_r. by destruct p.
  - destruct p as [|pj p].
    + unfold dot; simpl.
      rewrite const_fmap with (y := 0%R) by done.
      rewrite length_zip_with, length_transpose, Hv, Nat.min_id by done. done.
    + simpl. rewrite <- IH. clear IH.
      assert (length v = length (transpose w V)) as Hl by (by rewrite length_transpose).
      revert Hl. generalize (transpose w V). clear.
      induction v as [|x v IH]; intros [|c T] Hl; simpl in *; try done.
      f_equal. apply IH. lia.
Qed.

(** The product with a transposed matrix: the dot products of the rows. *)
Lemma mm_transpose n m p a b :
  length b = p * m →
  torch.mm n m p a (concat (transpose m (chunks p m b)))
  = concat ((λ q, dot q <$> chunks p m b) <$> chunks n m a).
Proof.
  intros Hb. unfold torch.mm.
  assert (Forall (λ r, length r = m) (chunks p m b)) as Hrows
    by (apply Forall_chunks; lia).
  assert (chunks m p (concat (transpose m (chunks p m b))) = transpose m (chunks p m b)) as ->.
  { rewrite <- (length_transpose m (chunks p m b)) at 1 by done.
    apply chunks_concat. eapply Forall_impl; [apply Forall_transpose|].
    intros c Hc. by rewrite Hc, length_chunks. }
  pose proof (transpose_involutive m (chunks p m b) Hrows) as Hinv.
  rewrite length_chunks in Hinv. by rewrite Hinv.
Qed.

Lemma mm_wsum n m p a b :
  length b = m * p →
  torch.mm n m p a b = concat ((λ r, wsum p r (chunks m p b)) <$> chunks n m a).
Proof.
  intros Hb. unfold torch.mm. f_equal. apply list_fmap_ext. intros _ r _.
  apply dot_transpose. apply Forall_chunks. lia.
Qed.

(** ** Nested views of the flat storage *)

Section views.
Context {A : Type}.

Lemma fmap_concat {B} (f : A → B) (ls : list (list A)) :
  f <$> concat ls = concat ((fmap f : list A → list B) <$> ls).
Proof. induction ls as [|l ls IH]; simpl; [done|]. by rewrite fmap_app, IH. Qed.

Lemma concat_concat (xs : list (list (list A))) :
  concat (concat xs) = concat (@concat A <$> xs).
Proof. induction xs as [|x xs IH]; simpl; [done|]. by rewrite concat_app, IH. Qed.

Lemma length_concat_uniform w (ls : list (list A)) :
  Forall (λ c, length c = w) ls → length (concat ls) = length ls * w.
Proof.
  induction 1 as [|c ls Hc _ IH]; simpl; [done|].
  rewrite length_app, IH. lia.
Qed.

Lemma shaped3_mats c n m (d : list A) :
  c * (n * m) ≤ length d → shaped3 c n m (mats c n m d).
Proof.
  intros Hd. split.
  - unfold mats. by rewrite length_fmap, length_chunks.
  - unfold mats. apply Forall_fmap.
    eapply Forall_impl; [apply (Forall_chunks c (n * m)); lia|].
    intros x Hx; simpl in *. split; [apply length_chunks|].
    apply Forall_chunks. lia.
Qed.

Lemma shaped3_length_concat c n m (xs : list (list (list A))) :
  shaped3 c n m xs → Forall (λ x, length x = n * m) (@concat A <$> xs).
Proof.
  intros [_ Hxs]. apply Forall_fmap. eapply Forall_impl; [exact Hxs|].
  intros x [Hn Hm]. simpl. rewrite (length_concat_uniform m) by done. by rewrite Hn.
Qed.

Lemma length_flat3 c n m (xs : list (list (list A))) :
  shaped3 c n m xs → length (flat3 xs) = c * (n * m).
Proof.
  intros Hs. unfold flat3.
  rewrite (length_concat_uniform (n * m)) by (by eapply shaped3_length_concat).
  rewrite length_fmap. by destruct Hs as [-> _].
Qed.

Lemma chunks_flat3 c n m (xs : list (list (list A))) :
  shaped3 c n m xs → chunks c (n * m) (flat3 xs) = @concat A <$> xs.
Proof.
  intros Hs. unfold flat3.
  replace c with (length (@concat A <$> xs))
    by (rewrite length_fmap; by destruct Hs).
  apply chunks_concat. by eapply shaped3_length_concat.
Qed.

Lemma mats_flat3 c n m (xs : list (list (list A))) : shaped3 c n m xs → mats c n m (flat3 xs) = xs.
Proof.
  intros Hs. unfold mats. rewrite (chunks_flat3 c n m) by done.
  rewrite <- list_fmap_compose.
  rewrite (Forall_fmap_ext_1 _ Datatypes.id); [apply list_fmap_id|].
  destruct Hs as [_ Hxs]. eapply Forall_impl; [exact Hxs|].
  intros x [Hn Hm]. simpl. rewrite <- Hn. by apply chunks_concat.
Qed.

Lemma flat3_mats c n m (d : list A) :
  length d = c * (n * m) → flat3 (mats c n m d) = d.
Proof.
  intros Hd. unfold flat3, mats. rewrite <- list_fmap_compose.
  rewrite (Forall_fmap_ext_1 _ Datatypes.id).
  - rewrite list_fmap_id. by apply concat_chunks.
  - eapply Forall_impl; [apply (Forall_chunks c (n * m)); lia|].
    intros x Hx; simpl in *. by apply concat_chunks.
Qed.

Lemma rows_flat3 c n m (xs : list (list (list A))) :
  shaped3 c n m xs → chunks (c * n) m (flat3 xs) = concat xs.
Proof.
  intros Hs. rewrite <- chunks_chunks.
  change (chunks n m <$> chunks c (n * m) (flat3 xs)) with (mats c n m (flat3 xs)).
  by rewrite mats_flat3.
Qed.

Lemma fmap_flat3 {B} (f : A → B) (xs : list (list (list A))) :
  f <$> flat3 xs
  = flat3 ((fmap (fmap f : list A → list B) : list (list A) → list (list B)) <$> xs).
Proof.
  unfold flat3. rewrite fmap_concat, <- !list_fmap_compose. f_equal.
  apply list_fmap_ext. intros _ x _. simpl. apply fmap_concat.
Qed.

Lemma mats_zip_with {B C} (f : A → B → C) c n m d (d' : list B) :
  mats c n m (zip_with f d d')
  = zip_with (zip_with (zip_with f)) (mats c n m d) (mats c n m d').
Proof.
  unfold mats. rewrite chunks_zip_with.
  generalize (chunks c (n * m) d) (chunks c (n * m) d'). intros l.
  induction l as [|x l IH]; intros [|y k]; simpl; try done.
  by rewrite chunks_zip_with, IH.
Qed.

End views.

Lemma shaped3_zip_with {A B C} (f : list (list A) → list (list B) → list (list C))
    c n m n' m' n'' m'' xs ys :
  shaped3 c n m xs → shaped3 c n' m' ys →
  (∀ x y, length x = n → Forall (λ r, length r = m) x →
          length y = n' → Forall (λ r, length r = m') y →
          length (f x y) = n'' ∧ Forall (λ r, length r = m'') (f x y)) →
  shaped3 c n'' m'' (zip_with f xs ys).
Proof.
  intros [Hc Hxs] [Hc' Hys] Hf. split.
  - rewrite length_zip_with. lia.
  - clear Hc Hc'. revert ys Hys; induction Hxs as [|x xs [Hx1 Hx2] _ IH];
      intros ys Hys; [constructor|].
    destruct Hys as [|y ys [Hy1 Hy2] Hys]; [constructor|].
    simpl. constructor; [by apply Hf|by apply IH].
Qed.

Lemma shaped3_fmap {A B} (f : list (list A) → list (list B)) c n m n' m' xs :
  shaped3 c n m xs →
  (∀ x, length x = n → Forall (λ r, length r = m) x →
        length (f x) = n' ∧ Forall (λ r, length r = m') (f x)) →
  shaped3 c n' m' (f <$> xs).
Proof.
  intros [Hc Hxs] Hf. split; [by rewrite length_fmap|].
  apply Forall_fmap. eapply Forall_impl; [exact Hxs|].
  intros x [H1 H2]. by apply Hf.
Qed.

(** ** The runtime on well-formed tensors *)

Lemma length_expand_data {A} s t (d : list A) :
  expandable s t = true → length d = numel s →
  length (expand_data s t d) = numel t.
Proof.
  revert t d; induction s as [|a s IH]; intros [|b t] d He Hd; simpl in *; try done.
  apply andb_true_iff in He as [Hab He].
  assert (length (concat (expand_data s t <$> chunks a (numel s) d)) = a * numel t) as Hcs.
  { rewrite (length_concat_uniform (numel t)).
    - by rewrite length_fmap, length_chunks.
    - apply Forall_fmap. eapply Forall_impl; [apply (Forall_chunks a (numel s)); lia|].
      intros c Hc; simpl in *. by apply IH. }
  destruct (decide (a = b)) as [->|Hne]; [done|].
  apply orb_true_iff in Hab as [Hab|Hab]; apply bool_decide_eq_true_1 in Hab; [done|].
  subst a. rewrite (length_concat_uniform (1 * numel t)).
  - rewrite length_replicate. lia.
  - by apply Forall_replicate.
Qed.

Lemma mask_bits_length s mask bits :
  (∀ m, mask = Some m → wf m) →
  mask_bits s mask = Some (Some bits) → length bits = numel s.
Proof.
  intros Hwf. destruct mask as [m|]; simpl; [|done].
  unfold expand_to. destruct (expandable _ s) eqn:He; simpl; [|done].
  intros [= <-]. apply length_expand_data; [done|].
  rewrite (Hwf m eq_refl). unfold pad_shape. rewrite numel_app.
  clear. induction (length s - length (shape m)); simpl; lia.
Qed.

Lemma matmul_batched lead n m k (a b : tensor R) :
  shape a = lead ++ [n; m] → shape b = lead ++ [m; k] → wf a → wf b →
  torch.matmul a b
  = Ok (Tensor (lead ++ [n; k])
          (concat (zip_with (torch.mm n m k)
                     (chunks (numel lead) (n * m) (data a))
                     (chunks (numel lead) (m * k) (data b))))).
Proof.
  intros Ha Hb Wa Wb. unfold wf in *. unfold torch.matmul. rewrite Ha, Hb in *.
  rewrite !bool_decide_eq_false_2 by (rewrite length_app; simpl; lia).
  rewrite !split_last2_snoc, decide_True by done.
  rewrite broadcast_shapes_same. cbv zeta.
  by rewrite pad_shape_same, !expand_data_same.
Qed.

Lemma transpose_last2_batched {A} lead n m (x : tensor A) :
  shape x = lead ++ [n; m] →
  torch.transpose_last2 x
  = Ok (Tensor (lead ++ [m; n])
          (concat ((λ c, concat (transpose m (chunks n m c)))
                     <$> chunks (numel lead) (n * m) (data x)))).
Proof. intros Hx. unfold torch.transpose_last2. by rewrite Hx, split_last2_snoc. Qed.

Lemma softmax_batched lead n m xs :
  shaped3 (numel lead) n m xs →
  torch.softmax (Tensor (lead ++ [n; m]) (flat3 xs))
  = Tensor (lead ++ [n; m]) (flat3 (probs_spec <$> xs)).
Proof.
  intros Hs. unfold torch.softmax, torch.rows. simpl.
  rewrite split_last_snoc2, numel_app. simpl. rewrite Nat.mul_1_r.
  rewrite (rows_flat3 _ n m) by done. f_equal.
  unfold flat3, probs_spec. by rewrite fmap_concat, concat_concat.
Qed.

(** The raw scores of one head: the dot products of the rows of the
    queries with the rows of the keys. *)
Lemma scores_batched lead nq nk d (query key : tensor R) :
  shape query = lead ++ [nq; d] → shape key = lead ++ [nk; d] →
  wf query → wf key →
  (torch.transpose_last2 key ≫= torch.matmul query)
  = Ok (Tensor (lead ++ [nq; nk])
          (flat3 (zip_with (λ Q K, (λ q, dot q <$> K) <$> Q)
                    (mats (numel lead) nq d (data query))
                    (mats (numel lead) nk d (data key))))).
Proof.
  intros Hq Hk Wq Wk. unfold wf in *. rewrite Hq, Hk, numel_app in *. simpl in *.
  rewrite (transpose_last2_batched lead nk d) by done. simpl.
  assert (Forall (λ c, length c = nk * d) (chunks (numel lead) (nk * d) (data key))) as Hkc
    by (apply Forall_chunks; lia).
  erewrite (matmul_batched lead nq d nk); [|done|done|by (unfold wf; rewrite Hq, numel_app)|].
  2:{ unfold wf; simpl. rewrite numel_app; simpl.
      rewrite (length_concat_uniform (d * nk)).
      - rewrite length_fmap, length_chunks. lia.
      - apply Forall_fmap. eapply Forall_impl; [exact Hkc|].
        intros c Hc; simpl in *. rewrite (length_concat_uniform nk).
        + rewrite length_transpose; [done|]. apply Forall_chunks. lia.
        + eapply Forall_impl; [apply Forall_transpose|].
          intros r Hr; simpl in *. by rewrite Hr, length_chunks. }
  simpl. f_equal. unfold flat3, mats.
  replace (numel lead) with
    (length ((λ c, concat (transpose d (chunks nk d c))) <$> chunks (numel lead) (nk * d) (data key))) at 2
    by (by rewrite length_fmap, length_chunks).
  rewrite chunks_concat.
  2:{ apply Forall_fmap. eapply Forall_impl; [exact Hkc|].
      intros c Hc; simpl in *. rewrite (length_concat_uniform nk).
      + rewrite length_transpose; [done|]. apply Forall_chunks. lia.
      + eapply Forall_impl; [apply Forall_transpose|].
        intros r Hr; simpl in *. by rewrite Hr, length_chunks. }
  rewrite zip_with_fmap_r, zip_with_fmap_l, zip_with_fmap_r.
  f_equal. rewrite fmap_zip_with. f_equal.
  apply (zip_with_ext_Forall _ _ (λ _, True) (λ c, length c = nk * d));
    [by apply Forall_true|done|].
  intros a c _ Hc. simpl. apply mm_transpose. lia.
Qed.

Lemma Dropout_forward_idle d x w :
  dropout_idle (Some d) → Dropout_forward d x w = Ok (x, w).
Proof.
  intros [Hp|Ht]; unfold Dropout_forward.
  - by destruct (Req_dec_T (p d) 0).
  - destruct (Req_dec_T (p d) 0); [done|]. by rewrite Ht.
Qed.

Lemma shaped3_scores c nq nk d Qs Ks :
  shaped3 c nq d Qs → shaped3 c nk d Ks →
  shaped3 c nq nk (zip_with (scores_spec d) Qs Ks).
Proof.
  intros HQ HK. eapply shaped3_zip_with; [exact HQ|exact HK|].
  intros Q K HQn _ HKn _. unfold scores_spec. split; [by rewrite length_fmap|].
  apply Forall_fmap, Forall_true. intros q. simpl. by rewrite length_fmap.
Qed.

Lemma shaped3_fill c n m (Ss : list (list (list R))) (Ms : list (list (list bool))) :
  shaped3 c n m Ss → shaped3 c n m Ms →
  shaped3 c n m (zip_with fill_spec Ss Ms).
Proof.
  intros HS HM. eapply shaped3_zip_with; [exact HS|exact HM|].
  intros S Mk HSn HSm HMn HMm. unfold fill_spec. split.
  - rewrite length_zip_with. lia.
  - clear HSn HMn. revert Mk HMm. induction HSm as [|r S Hr _ IH]; intros Mk HMm;
      [constructor|].
    destruct HMm as [|r' Mk Hr' HMm]; [constructor|]. simpl. constructor; [|by apply IH].
    unfold fill_row. rewrite length_zip_with. lia.
Qed.

Lemma shaped3_probs c n m Ss :
  shaped3 c n m Ss → shaped3 c n m (probs_spec <$> Ss).
Proof.
  intros HS. eapply shaped3_fmap; [exact HS|].
  intros S HSn HSm. unfold probs_spec. split; [by rewrite length_fmap|].
  apply Forall_fmap. eapply Forall_impl; [exact HSm|].
  intros r Hr; simpl in *. unfold torch.softmax_row. by rewrite length_fmap.
Qed.

Lemma shaped3_heads_scores c nq nk d Qs Ks Ms :
  shaped3 c nq d Qs → shaped3 c nk d Ks →
  (∀ ms, Ms = Some ms → shaped3 c nq nk ms) →
  shaped3 c nq nk (heads_scores d Qs Ks Ms).
Proof.
  intros HQ HK HM. unfold heads_scores. destruct Ms as [ms|].
  - apply shaped3_fill; [by eapply shaped3_scores|by apply HM].
  - by eapply shaped3_scores.
Qed.

(** The values of one head weighted by the rows of a probability
    matrix. *)
Lemma output_batched lead nq nk dv Ps (x : tensor R) :
  shaped3 (numel lead) nq nk Ps →
  shape x = lead ++ [nk; dv] → wf x →
  torch.matmul (Tensor (lead ++ [nq; nk]) (flat3 Ps)) x
  = Ok (Tensor (lead ++ [nq; dv])
          (flat3 (zip_with (output_spec dv) Ps (mats (numel lead) nk dv (data x))))).
Proof.
  intros HP Hx Wx.
  rewrite (matmul_batched lead nq nk dv); [|done|done| |done].
  2:{ unfold wf; simpl. rewrite (length_flat3 _ nq nk) by done.
      rewrite numel_app. simpl. lia. }
  simpl. f_equal. unfold wf in Wx. rewrite Hx, numel_app in Wx. simpl in Wx.
  rewrite (chunks_flat3 _ nq nk) by done.
  unfold flat3, mats. rewrite fmap_zip_with, zip_with_fmap_l, zip_with_fmap_r.
  do 2 f_equal.
  apply (zip_with_ext_Forall _ _ (λ P, length P = nq ∧ Forall (λ r, length r = nk) P)
           (λ c, length c = nk * dv)).
  - by destruct HP.
  - apply Forall_chunks. lia.
  - intros P c [HPn HPm] Hc. rewrite mm_wsum by lia.
    unfold output_spec. rewrite <- HPn. by rewrite chunks_concat.
Qed.

(** The scaled and masked scores of every head. *)
Lemma masked_scores_batched lead nq nk d (query key : tensor R) mask bits qk :
  shape query = lead ++ [nq; d] → shape key = lead ++ [nk; d] →
  wf query → wf key →
  (∀ m, mask = Some m → wf m) →
  mask_bits (lead ++ [nq; nk]) mask = Some bits →
  (torch.transpose_last2 key ≫= torch.matmul query) = Ok qk →
  match mask with
  | Some m => torch.masked_fill (torch.div_scalar qk (sqrt (INR d))) m (-1e9)
  | None => Ok (torch.div_scalar qk (sqrt (INR d)))
  end
  = Ok (Tensor (lead ++ [nq; nk])
          (flat3 (heads_scores d (mats (numel lead) nq d (data query))
                    (mats (numel lead) nk d (data key))
                    (mats (numel lead) nq nk <$> bits)))).
Proof.
  intros Hq Hk Wq Wk Wm Hbits Hqk.
  rewrite (scores_batched lead nq nk d) in Hqk by done. injection Hqk as <-.
  assert (shaped3 (numel lead) nq d (mats (numel lead) nq d (data query))) as HQ.
  { apply shaped3_mats. unfold wf in Wq. rewrite Wq, Hq, numel_app. simpl. lia. }
  assert (shaped3 (numel lead) nk d (mats (numel lead) nk d (data key))) as HK.
  { apply shaped3_mats. unfold wf in Wk. rewrite Wk, Hk, numel_app. simpl. lia. }
  pose proof (shaped3_scores _ _ _ _ _ _ HQ HK) as HS.
  assert (torch.div_scalar
            (Tensor (lead ++ [nq; nk])
               (flat3 (zip_with (λ Q K, (λ q, dot q <$> K) <$> Q)
                         (mats (numel lead) nq d (data query))
                         (mats (numel lead) nk d (data key)))))
            (sqrt (INR d))
          = Tensor (lead ++ [nq; nk])
              (flat3 (zip_with (scores_spec d) (mats (numel lead) nq d (data query))
                        (mats (numel lead) nk d (data key))))) as ->.
  { unfold torch.div_scalar, tmap. simpl. f_equal.
    rewrite fmap_flat3, fmap_zip_with. f_equal.
    apply zip_with_ext; [|done|done]. intros Q K. unfold scores_spec.
    rewrite <- list_fmap_compose. apply list_fmap_ext. intros _ q _. simpl.
    by rewrite <- list_fmap_compose. }
  destruct mask as [m|]; simpl in Hbits.
  - unfold torch.masked_fill; simpl.
    destruct (expand_to (lead ++ [nq; nk]) m) as [mt|] eqn:He; [|done].
    simpl in Hbits. injection Hbits as <-. simpl.
    specialize (mask_bits_length (lead ++ [nq; nk]) (Some m) (data mt) Wm) as Hl.
    simpl in Hl. rewrite He in Hl. specialize (Hl eq_refl).
    rewrite numel_app in Hl. simpl in Hl. f_equal. f_equal.
    unfold heads_scores.
    set (D := zip_with _ (flat3 _) (data mt)).
    assert (length D = numel lead * (nq * nk)) as HD.
    { unfold D. rewrite length_zip_with, (length_flat3 _ nq nk) by done. lia. }
    rewrite <- (flat3_mats (numel lead) nq nk D) by done. f_equal.
    unfold D. rewrite mats_zip_with, (mats_flat3 _ nq nk) by done. done.
  - by injection Hbits as <-.
Qed.

(** [attention] up to the softmax. *)
Lemma attention_softmax lead nq nk d (query key value : tensor R)
    (mask : option (tensor bool)) (bits : option (list bool))
    (dropout : option Dropout) (w : world) :
  shape query = lead ++ [nq; d] →
  shape key = lead ++ [nk; d] →
  wf query → wf key →
  (∀ m, mask = Some m → wf m) →
  mask_bits (lead ++ [nq; nk]) mask = Some bits →
  let c := numel lead in
  let Ps := probs_spec <$> heads_scores d (mats c nq d (data query))
                             (mats c nk d (data key)) (mats c nq nk <$> bits) in
  shaped3 c nq nk Ps
  ∧ attention query key value mask dropout w
    = (p_attn ← match dropout with
                | Some d0 => Dropout_forward d0 (Tensor (lead ++ [nq; nk]) (flat3 Ps))
                | None => mret (Tensor (lead ++ [nq; nk]) (flat3 Ps))
                end;
       output ← lift (torch.matmul p_attn value);
       mret (output, p_attn)) w.
Proof.
  intros Hq Hk Wq Wk Wm Hbits c Ps.
  assert (shaped3 c nq nk (heads_scores d (mats c nq d (data query))
                             (mats c nk d (data key)) (mats c nq nk <$> bits))) as HS.
  { apply shaped3_heads_scores.
    - apply shaped3_mats. unfold wf in Wq. rewrite Wq, Hq, numel_app. simpl. lia.
    - apply shaped3_mats. unfold wf in Wk. rewrite Wk, Hk, numel_app. simpl. lia.
    - intros ms Hms. destruct bits as [b|]; [|done]. injection Hms as <-.
      apply shaped3_mats.
      rewrite (mask_bits_length _ _ _ Wm Hbits), numel_app. simpl. lia. }
  split; [by apply shaped3_probs|].
  unfold attention.
  assert (torch.size_last query = Ok d) as Hd
    by (unfold torch.size_last; by rewrite Hq, split_last_snoc2).
  rewrite (M_bind_lift _ _ _ _ Hd).
  destruct (torch.transpose_last2 key) as [keyT|] eqn:HkT;
    [|by rewrite (transpose_last2_batched lead nk d) in HkT].
  rewrite (M_bind_lift _ _ _ keyT eq_refl).
  destruct (torch.matmul query keyT) as [qk|] eqn:Hqk.
  2:{ pose proof (scores_batched lead nq nk d query key Hq Hk Wq Wk) as Hs.
      rewrite HkT in Hs. simpl in Hs. by rewrite Hqk in Hs. }
  rewrite (M_bind_lift _ _ _ qk eq_refl). cbv zeta.
  pose proof (masked_scores_batched lead nq nk d query key mask bits qk
                Hq Hk Wq Wk Wm Hbits) as Hms.
  rewrite HkT in Hms. simpl in Hms. specialize (Hms Hqk).
  rewrite (M_bind_lift _ _ _ _ Hms).
  by rewrite softmax_batched.
Qed.

(** [attention] head by head, when the dropout is idle. *)
Lemma attention_heads lead nq nk d dv (query key value : tensor R)
    (mask : option (tensor bool)) (bits : option (list bool))
    (dropout : option Dropout) (w : world) :
  shape query = lead ++ [nq; d] →
  shape key = lead ++ [nk; d] →
  shape value = lead ++ [nk; dv] →
  wf query → wf key → wf value →
  (∀ m, mask = Some m → wf m) →
  mask_bits (lead ++ [nq; nk]) mask = Some bits →
  dropout_idle dropout →
  let c := numel lead in
  let Ps := probs_spec <$> heads_scores d (mats c nq d (data query))
                             (mats c nk d (data key)) (mats c nq nk <$> bits) in
  attention query key value mask dropout w
  = Ok ((Tensor (lead ++ [nq; dv])
           (flat3 (zip_with (output_spec dv) Ps (mats c nk dv (data value)))),
         Tensor (lead ++ [nq; nk]) (flat3 Ps)), w).
Proof.
  intros Hq Hk Hv Wq Wk Wv Wm Hbits Hidle c Ps.
  destruct (attention_softmax lead nq nk d query key value mask bits dropout w
              Hq Hk Wq Wk Wm Hbits) as [HP ->].
  fold c. fold Ps.
  assert ((match dropout with
           | Some d0 => Dropout_forward d0 (Tensor (lead ++ [nq; nk]) (flat3 Ps))
           | None => mret (Tensor (lead ++ [nq; nk]) (flat3 Ps))
           end) w = Ok (Tensor (lead ++ [nq; nk]) (flat3 Ps), w)) as Hdrop.
  { destruct dropout as [d0|]; [by apply Dropout_forward_idle|done]. }
  rewrite (M_bind_ok _ _ _ _ _ Hdrop).
  rewrite (M_bind_lift _ _ _ _ (output_batched lead nq nk dv Ps value HP Hv Wv)).
  done.
Qed.

(** Dropout keeps the shape, whatever it draws. *)
Lemma Dropout_forward_shape (d0 : Dropout) (x : tensor R) (w : world) :
  wf x →
  ∃ x' w', Dropout_forward d0 x w = Ok (x', w')
           ∧ shape x' = shape x ∧ wf x' ∧ heap w' = heap w.
Proof.
  intros Wx. unfold Dropout_forward.
  destruct (Req_dec_T (p d0) 0); [by eexists _, _|].
  destruct (negb (training d0)); [by eexists _, _|].
  destruct (decide (numel (shape x) = 0)); [by eexists _, _|].
  destruct (Req_dec_T (p d0) 1).
  - eexists _, _. split; [done|]. split; [done|]. split; [|done].
    unfold wf, tmap. simpl. by rewrite length_fmap.
  - eexists _, _. split; [done|]. split; [done|]. split; [|done].
    unfold wf in *. simpl. rewrite length_zip_with, length_fmap, length_seq. lia.
Qed.

Lemma length_mm n m k a b :
  m * k ≤ length b → length (torch.mm n m k a b) = n * k.
Proof.
  intros Hb. unfold torch.mm. rewrite (length_concat_uniform k).
  - by rewrite length_fmap, length_chunks.
  - apply Forall_fmap, Forall_true. intros r. simpl.
    rewrite length_fmap. apply length_transpose. by apply Forall_chunks.
Qed.

Lemma matmul_batched_wf lead n m k (a b : tensor R) :
  shape b = lead ++ [m; k] → wf b →
  length (concat (zip_with (torch.mm n m k)
                    (chunks (numel lead) (n * m) (data a))
                    (chunks (numel lead) (m * k) (data b))))
  = numel (lead ++ [n; k]).
Proof.
  intros Hb Wb. unfold wf in Wb. rewrite Hb, numel_app in Wb. simpl in Wb.
  rewrite numel_app. simpl. rewrite (length_concat_uniform (n * k)).
  - rewrite length_zip_with, !length_chunks. lia.
  - apply (Forall_zip_with_snd _ (λ c, length c = m * k)).
    + apply Forall_true. intros x y Hy. apply length_mm. lia.
    + apply Forall_chunks. lia.
Qed.

(** [attention] returns, whatever the dropout draws. *)
Lemma attention_total lead nq nk d dv (query key value : tensor R)
    (mask : option (tensor bool)) (bits : option (list bool))
    (dropout : option Dropout) (w : world) :
  shape query = lead ++ [nq; d] →
  shape key = lead ++ [nk; d] →
  shape value = lead ++ [nk; dv] →
  wf query → wf key → wf value →
  (∀ m, mask = Some m → wf m) →
  mask_bits (lead ++ [nq; nk]) mask = Some bits →
  ∃ out pr w',
    attention query key value mask dropout w = Ok ((out, pr), w')
    ∧ shape out = lead ++ [nq; dv] ∧ wf out
    ∧ shape pr = lead ++ [nq; nk] ∧ wf pr
    ∧ torch.matmul pr value = Ok out
    ∧ heap w' = heap w.
Proof.
  intros Hq Hk Hv Wq Wk Wv Wm Hbits.
  destruct (attention_softmax lead nq nk d query key value mask bits dropout w
              Hq Hk Wq Wk Wm Hbits) as [HP ->].
  set (P := Tensor (lead ++ [nq; nk]) (flat3 _)) in *.
  assert (wf P) as WP.
  { unfold wf, P. simpl. rewrite (length_flat3 _ nq nk) by done.
    rewrite numel_app. simpl. lia. }
  assert (∃ P' w', (match dropout with
                    | Some d0 => Dropout_forward d0 P
                    | None => mret P
                    end) w = Ok (P', w')
                   ∧ shape P' = lead ++ [nq; nk] ∧ wf P' ∧ heap w' = heap w)
    as (P' & w' & Hdrop & HsP' & WP' & Hheap).
  { destruct dropout as [d0|]; [|by eexists _, _].
    destruct (Dropout_forward_shape d0 P w WP) as (P' & w' & H1 & H2 & H3 & H4).
    by eexists _, _. }
  rewrite (M_bind_ok _ _ _ _ _ Hdrop).
  pose proof (matmul_batched lead nq nk dv P' value HsP' Hv WP' Wv) as Hmm.
  rewrite (M_bind_lift _ _ _ _ Hmm).
  eexists _, _, _. split; [done|]. split; [done|]. split.
  { unfold wf. simpl. by apply matmul_batched_wf. }
  done.
Qed.

(** ** Softmax of a masked row *)

Section softmax.
Local Open Scope R_scope.

Lemma exp_nat n x : exp (INR n * x) = exp x ^ n.
Proof.
  induction n as [|n IH].
  - simpl. rewrite Rmult_0_l. apply exp_0.
  - rewrite S_INR, Rmult_plus_distr_r, Rmult_1_l, exp_plus, IH. simpl. ring.
Qed.

Lemma Rlt_mult_inv a b c : 0 < c → a * c < b → a < b * / c.
Proof.
  intros Hc H. apply (Rmult_lt_reg_r c); [done|].
  replace (b * / c * c) with b by (field; lra). done.
Qed.

Lemma exp_14 : 1e6 < exp 14.
Proof.
  replace 14 with (INR 896 * (1/64)).
  2:{ replace (INR 896) with 896 by (rewrite INR_IZR_INZ; reflexivity). lra. }
  rewrite exp_nat.
  apply Rlt_le_trans with ((65/64) ^ 896).
  - replace (65/64) with (IZR 65 * / IZR 64) by lra.
    rewrite Rpow_mult_distr, pow_inv, !pow_IZR.
    apply Rlt_mult_inv; [apply IZR_lt; reflexivity|].
    replace 1e6 with (IZR 1000000) by lra. rewrite <- mult_IZR. apply IZR_lt. reflexivity.
  - apply pow_incr. split; [lra|]. left.
    replace (65/64) with (1 + 1/64) by lra. apply exp_ineq1. lra.
Qed.

Lemma sumR_app a b : sumR (a ++ b) = sumR a + sumR b.
Proof. induction a as [|x a IH]; simpl; [lra|]. rewrite IH. lra. Qed.

Lemma sumR_replicate n c : sumR (replicate n c) = INR n * c.
Proof.
  induction n as [|n IH]; [simpl; lra|].
  rewrite S_INR. simpl. rewrite IH. lra.
Qed.

Lemma unmasked_exp_nonneg s mk : 0 <= unmasked_exp s mk.
Proof.
  unfold unmasked_exp. revert mk; induction s as [|x s IH]; intros [|[] mk]; simpl;
    try lra.
  - specialize (IH mk). lra.
  - specialize (IH mk). pose proof (exp_pos x). lra.
Qed.

Lemma unmasked_exp_ge s mk u su :
  mk !! u = Some false → s !! u = Some su → exp su <= unmasked_exp s mk.
Proof.
  revert s mk; induction u as [|u IH]; intros [|x s] [|b mk] Hm Hs; simpl in *;
    try done.
  - injection Hm as ->. injection Hs as ->.
    pose proof (unmasked_exp_nonneg s mk). unfold unmasked_exp in *. simpl. lra.
  - specialize (IH s mk Hm Hs). unfold unmasked_exp in *. simpl.
    destruct b; [lra|]. pose proof (exp_pos x). lra.
Qed.

Lemma sumR_exp_fill s mk :
  length s = length mk →
  sumR (exp <$> fill_row s mk)
  = unmasked_exp s mk + INR (masked_count mk) * exp (-1e9).
Proof.
  unfold unmasked_exp, masked_count, fill_row. rewrite fmap_zip_with. unfold sumR.
  revert mk; induction s as [|x s IH]; intros [|b mk] Hl; simpl in *; try done.
  - lra.
  - injection Hl as Hl. rewrite (IH mk Hl). destruct b.
    + rewrite filter_cons_True by done. cbn [length]. rewrite S_INR. lra.
    + rewrite filter_cons_False by done. lra.
Qed.

Lemma masked_count_pos mk j : mk !! j = Some true → (1 ≤ masked_count mk)%nat.
Proof.
  unfold masked_count. revert mk; induction j as [|j IH]; intros [|b mk] Hj;
    simpl in *; try done.
  - injection Hj as ->. rewrite filter_cons_True by done. simpl. lia.
  - specialize (IH mk Hj). destruct b.
    + rewrite filter_cons_True by done. simpl. lia.
    + by rewrite filter_cons_False by done.
Qed.

Lemma unmasked_sum_softmax s mk :
  length s = length mk →
  unmasked_sum (torch.softmax_row (fill_row s mk)) mk
  = unmasked_exp s mk / sumR (exp <$> fill_row s mk).
Proof.
  intros Hl. unfold torch.softmax_row. generalize (sumR (exp <$> fill_row s mk)) as z.
  intros z. unfold unmasked_sum, unmasked_exp, fill_row.
  rewrite fmap_zip_with. unfold sumR.
  revert mk Hl; induction s as [|x s IH]; intros [|b mk] Hl; simpl in *; try done.
  - lra.
  - injection Hl as Hl. rewrite (IH mk Hl). destruct b; lra.
Qed.

Lemma softmax_row_masked s mk j :
  mk !! j = Some true → (j < length s)%nat →
  torch.softmax_row (fill_row s mk) !! j
  = Some (exp (-1e9) / sumR (exp <$> fill_row s mk)).
Proof.
  intros Hj Hlt. unfold torch.softmax_row. rewrite list_lookup_fmap.
  unfold fill_row. rewrite lookup_zip_with.
  destruct (lookup_lt_is_Some_2 s j Hlt) as [x ->]. simpl. by rewrite Hj.
Qed.

(** The two bounds of a row whose best unmasked score is far enough
    above the sentinel. *)
Lemma softmax_masked_row s mk u su :
  length s = length mk →
  mk !! u = Some false → s !! u = Some su →
  -1e9 + 14 + ln (INR (masked_count mk)) <= su →
  (∀ j, mk !! j = Some true →
        ∃ pj, torch.softmax_row (fill_row s mk) !! j = Some pj ∧ pj < 1e-6)
  ∧ Rabs (unmasked_sum (torch.softmax_row (fill_row s mk)) mk - 1) <= 1e-5.
Proof.
  intros Hl Hu Hsu Hgap.
  pose proof (sumR_exp_fill s mk Hl) as HZ.
  pose proof (unmasked_exp_ge s mk u su Hu Hsu) as HU.
  pose proof (exp_pos su) as Hsu0. pose proof (exp_pos (-1e9)) as HE.
  set (E := exp (-1e9)) in *. set (U := unmasked_exp s mk) in *.
  set (Z := sumR (exp <$> fill_row s mk)) in *.
  set (m := masked_count mk) in *.
  assert (0 <= INR m) as Hm0 by apply pos_INR.
  assert (0 < Z) as HZ0 by (rewrite HZ; nra).
  assert ((1 ≤ m)%nat → 1e6 * INR m * E < exp su) as Hbig.
  { intros Hm. apply (le_INR 1) in Hm. simpl in Hm.
    apply Rlt_le_trans with (exp (-1e9 + 14 + ln (INR m))).
    - rewrite !exp_plus, exp_ln by lra. fold E. pose proof exp_14 as H14.
      assert (0 < INR m * E) as Hp by nra.
      apply Rlt_le_trans with (exp 14 * (INR m * E)); [|right; ring].
      rewrite Rmult_assoc. by apply Rmult_lt_compat_r.
    - destruct Hgap as [Hgap| ->]; [left; by apply exp_increasing|right; done]. }
  split.
  - intros j Hj. eexists. split.
    + apply softmax_row_masked; [done|]. rewrite Hl. by eapply lookup_lt_Some.
    + fold Z E. pose proof (masked_count_pos mk j Hj) as Hm. fold m in Hm.
      specialize (Hbig Hm). apply (le_INR 1) in Hm. simpl in Hm.
      apply (Rmult_lt_reg_r Z); [done|].
      replace (E / Z * Z) with E by (field; lra). nra.
  - rewrite unmasked_sum_softmax by done. fold U Z.
    replace (U / Z - 1) with (- (INR m * E / Z)) by (rewrite HZ; field; lra).
    rewrite Rabs_Ropp, Rabs_right.
    2:{ apply Rle_ge. apply Rmult_le_pos; [nra|]. left. by apply Rinv_0_lt_compat. }
    destruct (Nat.eq_dec m 0%nat) as [Hm|Hm].
    + rewrite Hm. simpl. lra.
    + assert (1 ≤ m)%nat as Hm1 by lia. specialize (Hbig Hm1).
      apply (Rmult_le_reg_r Z); [done|].
      replace (INR m * E / Z * Z) with (INR m * E) by (field; lra). nra.
Qed.

Lemma softmax_row_const n c :
  (0 < n)%nat → torch.softmax_row (replicate n c) = replicate n (1 / INR n).
Proof.
  intros Hn. unfold torch.softmax_row.
  rewrite !fmap_replicate, sumR_replicate. f_equal.
  apply (lt_INR 0) in Hn. simpl in Hn. pose proof (exp_pos c). field. lra.
Qed.

Lemma fill_row_all_masked s mk :
  length s = length mk → Forall (λ b, b = true) mk →
  fill_row s mk = replicate (length mk) (-1e9).
Proof.
  intros Hl Hmk. revert s Hl; induction Hmk as [|b mk -> _ IH]; intros [|x s] Hl;
    simpl in *; try done.
  injection Hl as Hl. unfold fill_row in *. simpl. f_equal. by apply IH.
Qed.

End softmax.

(** ** The rows of the attention weights *)

Lemma concat_zip_with {A B C} (f : A → B → C) n (xs : list (list A)) (ys : list (list B)) :
  Forall (λ x, length x = n) xs → Forall (λ y, length y = n) ys →
  concat (zip_with (zip_with f) xs ys) = zip_with f (concat xs) (concat ys).
Proof.
  intros Hxs; revert ys; induction Hxs as [|x xs Hx _ IH]; intros ys Hys; [done|].
  destruct Hys as [|y ys Hy Hys]; simpl.
  - by rewrite zip_with_nil_r.
  - rewrite zip_with_app by congruence. f_equal. by apply IH.
Qed.

Lemma attention_rows lead nq nk d dv (query key value : tensor R) (m : tensor bool)
    (bits : list bool) (dropout : option Dropout) (w : world) :
  shape query = lead ++ [nq; d] →
  shape key = lead ++ [nk; d] →
  shape value = lead ++ [nk; dv] →
  wf query → wf key → wf value → wf m →
  mask_bits (lead ++ [nq; nk]) (Some m) = Some (Some bits) →
  dropout_idle dropout →
  ∃ out pr,
    attention query key value (Some m) dropout w = Ok ((out, pr), w)
    ∧ shape pr = lead ++ [nq; nk]
    ∧ torch.rows pr
      = torch.softmax_row
          <$> zip_with fill_row (score_rows d (numel lead) nq nk query key)
                (chunks (numel lead * nq) nk bits).
Proof.
  intros Hq Hk Hv Wq Wk Wv Wm Hbits Hidle.
  assert (∀ m0, Some m = Some m0 → wf m0) as Wm' by (by intros ? [= <-]).
  eexists _, _. split; [by eapply attention_heads|]. split; [done|].
  set (c := numel lead).
  assert (shaped3 c nq d (mats c nq d (data query))) as HQ.
  { apply shaped3_mats. unfold wf in Wq. rewrite Wq, Hq, numel_app. simpl. lia. }
  assert (shaped3 c nk d (mats c nk d (data key))) as HK.
  { apply shaped3_mats. unfold wf in Wk. rewrite Wk, Hk, numel_app. simpl. lia. }
  assert (shaped3 c nq nk (mats c nq nk bits)) as HM.
  { apply shaped3_mats. rewrite (mask_bits_length _ _ _ Wm' Hbits), numel_app.
    simpl. fold c. lia. }
  pose proof (shaped3_scores _ _ _ _ _ _ HQ HK) as HS.
  unfold torch.rows. simpl. rewrite split_last_snoc2, numel_app. simpl.
  rewrite Nat.mul_1_r. fold c.
  rewrite (rows_flat3 c nq nk).
  2:{ apply shaped3_probs. apply shaped3_fill; done. }
  unfold probs_spec. rewrite <- fmap_concat. f_equal.
  unfold fill_spec, fill_row.
  rewrite (concat_zip_with _ nq).
  - unfold score_rows. f_equal. unfold mats. by rewrite chunks_chunks.
  - destruct HS as [_ HS]. eapply Forall_impl; [exact HS|]. by intros x [? _].
  - destruct HM as [_ HM]. eapply Forall_impl; [exact HM|]. by intros x [? _].
Qed.

(** * The claims *)

(** ** The attention primitive *)

(** C1.  On queries of shape [(.., nq, d)], keys of shape [(.., nk, d)]
    and values of shape [(.., nk, dv)], with an optional boolean mask that
    broadcasts to the scores and no active dropout, [attention] returns,
    head by head, the softmax over the last axis of the scores
    [q . k / sqrt d] with the masked positions replaced by [-1e9], and
    as output that probability matrix times the values. *)
Theorem attention_computes lead nq nk d dv (query key value : tensor R)
    (mask : option (tensor bool)) (bits : option (list bool))
    (dropout : option Dropout) (w : world) :
  shape query = lead ++ [nq; d] →
  shape key = lead ++ [nk; d] →
  shape value = lead ++ [nk; dv] →
  wf query → wf key → wf value →
  (∀ m, mask = Some m → wf m) →
  mask_bits (lead ++ [nq; nk]) mask = Some bits →
  dropout_idle dropout →
  let c := numel lead in
  let Ps := probs_spec <$> heads_scores d (mats c nq d (data query))
                             (mats c nk d (data key)) (mats c nq nk <$> bits) in
  attention query key value mask dropout w
  = Ok ((Tensor (lead ++ [nq; dv])
           (flat3 (zip_with (output_spec dv) Ps (mats c nk dv (data value)))),
         Tensor (lead ++ [nq; nk]) (flat3 Ps)), w).
Proof. apply attention_heads. Qed.

Lemma attention_computes_witness :
  let Ps := probs_spec <$> heads_scores 1 (mats 1 1 1 (data ex_query))
                             (mats 1 2 1 (data ex_key))
                             (mats 1 1 2 <$> Some [false; true]) in
  attention ex_query ex_key ex_value (Some ex_mask) None world0
  = Ok ((Tensor [1; 1; 1; 1]
           (flat3 (zip_with (output_spec 1) Ps (mats 1 2 1 (data ex_value)))),
         Tensor [1; 1; 1; 2] (flat3 Ps)), world0).
Proof.
  apply (attention_computes [1; 1] 1 2 1 1 ex_query ex_key ex_value
           (Some ex_mask) (Some [false; true]) None world0);
    [reflexivity | reflexivity | reflexivity | reflexivity | reflexivity
    | reflexivity | intros m [= <-]; reflexivity | reflexivity | exact I].
Defined.

Lemma score_rows_length d c nq nk (query key : tensor R) i srow :
  score_rows d c nq nk query key !! i = Some srow → length srow = nk.
Proof.
  assert (Forall (λ r, length r = nk) (score_rows d c nq nk query key)) as HF.
  { unfold score_rows. apply Forall_concat.
    apply (Forall_zip_with_snd _ (λ K, length K = nk)).
    - apply Forall_true. intros Q K HK. unfold scores_spec.
      apply Forall_fmap, Forall_true. intros q. simpl. by rewrite length_fmap.
    - unfold mats. apply Forall_fmap, Forall_true. intros x. apply length_chunks. }
  intros Hi. by eapply (proj1 (Forall_lookup _ _) HF).
Qed.

(** C2, as amended.  In a call with a mask and no active dropout, take a
    row of scores that has an unmasked position whose scaled score is at
    least [-1e9 + 14 + ln m], [m] being the number of masked positions
    of the row.  Then every masked position of the row has a weight
    below [1e-6], and the weights of the unmasked positions sum to 1
    within [1e-5]. *)
Theorem attention_masked_weights lead nq nk d dv (query key value : tensor R)
    (m : tensor bool) (bits : list bool) (dropout : option Dropout) (w : world)
    (i : nat) (srow : list R) (mrow : list bool) (u : nat) (su : R) :
  shape query = lead ++ [nq; d] →
  shape key = lead ++ [nk; d] →
  shape value = lead ++ [nk; dv] →
  wf query → wf key → wf value → wf m →
  mask_bits (lead ++ [nq; nk]) (Some m) = Some (Some bits) →
  dropout_idle dropout →
  score_rows d (numel lead) nq nk query key !! i = Some srow →
  chunks (numel lead * nq) nk bits !! i = Some mrow →
  mrow !! u = Some false →
  srow !! u = Some su →
  (-1e9 + 14 + ln (INR (masked_count mrow)) <= su)%R →
  ∃ out pr prow,
    attention query key value (Some m) dropout w = Ok ((out, pr), w)
    ∧ torch.rows pr !! i = Some prow
    ∧ (∀ j, mrow !! j = Some true → ∃ pj, prow !! j = Some pj ∧ (pj < 1e-6)%R)
    ∧ (Rabs (unmasked_sum prow mrow - 1) <= 1e-5)%R.
Proof.
  intros Hq Hk Hv Wq Wk Wv Wm Hbits Hidle Hs Hm Hu Hsu Hgap.
  destruct (attention_rows lead nq nk d dv query key value m bits dropout w)
    as (out & pr & Hatt & _ & Hrows); try done.
  exists out, pr, (torch.softmax_row (fill_row srow mrow)).
  split; [done|]. split.
  - rewrite Hrows, list_lookup_fmap, lookup_zip_with, Hs. simpl. by rewrite Hm.
  - apply (softmax_masked_row srow mrow u su); try done.
    rewrite (score_rows_length _ _ _ _ _ _ _ _ Hs).
    assert (∀ m0, Some m = Some m0 → wf m0) as Wm' by (by intros ? [= <-]).
    pose proof (mask_bits_length _ _ _ Wm' Hbits) as Hl.
    rewrite numel_app in Hl. simpl in Hl.
    assert (Forall (λ r, length r = nk) (chunks (numel lead * nq) nk bits)) as HF
      by (apply Forall_chunks; lia).
    symmetry. eapply (proj1 (Forall_lookup _ _) HF). done.
Qed.

Lemma attention_masked_weights_witness :
  ∃ out pr prow,
    attention ex_query ex_key ex_value (Some ex_mask) None world0
    = Ok ((out, pr), world0)
    ∧ torch.rows pr !! 0 = Some prow
    ∧ (∀ j, [false; true] !! j = Some true → ∃ pj, prow !! j = Some pj ∧ (pj < 1e-6)%R)
    ∧ (Rabs (unmasked_sum prow [false; true] - 1) <= 1e-5)%R.
Proof.
  apply (attention_masked_weights [1; 1] 1 2 1 1 ex_query ex_key ex_value ex_mask
           [false; true] None world0 0
           [dot [1%R] [3%R] / sqrt (INR 1); dot [1%R] [5%R] / sqrt (INR 1)]%R
           [false; true] 0 (dot [1%R] [3%R] / sqrt (INR 1))%R);
    [reflexivity | reflexivity | reflexivity | reflexivity | reflexivity
    | reflexivity | reflexivity | reflexivity | exact I | reflexivity
    | reflexivity | reflexivity | reflexivity | ].
  change (masked_count [false; true]) with 1. change (INR 1) with 1%R.
  rewrite ln_1, sqrt_1. unfold dot, sumR. simpl. lra.
Defined.

(** C2 as it is stated fails: here the only unmasked position has the
    score [-2e9], below the sentinel, and the masked position gets more
    than half of the weight. *)
Lemma attention_masked_weight_large :
  ∃ out pr x,
    attention ex_query low_key ex_value (Some ex_mask) None world0
    = Ok ((out, pr), world0)
    ∧ data ex_mask !! 0 = Some false
    ∧ data ex_mask !! 1 = Some true
    ∧ data pr !! 1 = Some x
    ∧ ¬ (x < 1e-6)%R.
Proof.
  eexists _, _, (exp (-1e9) / (exp (dot [1] [-2e9] / sqrt (INR 1)) + (exp (-1e9) + 0)))%R.
  split.
  { apply (attention_heads [1; 1] 1 2 1 1 ex_query low_key ex_value
             (Some ex_mask) (Some [false; true]) None world0);
      [reflexivity | reflexivity | reflexivity | reflexivity | reflexivity
      | reflexivity | intros m [= <-]; reflexivity | reflexivity | exact I]. }
  split; [reflexivity|]. split; [reflexivity|]. split; [reflexivity|].
  change (INR 1) with 1%R. rewrite sqrt_1. unfold dot, sumR. simpl.
  assert (exp (((1 * -2e9) + 0) / 1) <= exp (-1e9))%R as Hle.
  { left. apply exp_increasing. lra. }
  pose proof (exp_pos (-1e9)) as HE. pose proof (exp_pos (((1 * -2e9) + 0) / 1)) as HE'.
  intros Hlt.
  apply (Rmult_lt_compat_r (exp (((1 * -2e9) + 0) / 1) + (exp (-1e9) + 0))) in Hlt; [|lra].
  unfold Rdiv in Hlt at 1. rewrite Rmult_assoc, Rinv_l in Hlt by lra. lra.
Qed.

(** ** The dense block *)

(** C9.  [forward] flattens its input exactly when the configured
    [reshape] is truthy, and the default is the string ["True"]: so a
    non-empty string, ["False"] included, makes the input flattened to
    [(batch, -1)], and [False], [0], the empty string and [None] leave it
    as it is. *)
Theorem reshape_truthiness (self : MultiLayerPerceptron) (x : tensor R) (v : pyval) :
  mlp_config self !! "reshape" = Some v →
  MultiLayerPerceptron_default_config !! "reshape" = Some (PyStr "True")
  ∧ MultiLayerPerceptron_forward self x
    = (if truthy v then reshape_batch x ≫= MultiLayerPerceptron_body self
       else MultiLayerPerceptron_body self x)
  ∧ (∀ s, v = PyStr s → s ≠ "" →
       MultiLayerPerceptron_forward self x
       = reshape_batch x ≫= MultiLayerPerceptron_body self)
  ∧ (v = PyStr "False" →
       MultiLayerPerceptron_forward self x
       = reshape_batch x ≫= MultiLayerPerceptron_body self)
  ∧ (v ∈ [PyBool false; PyInt 0; PyStr ""; PyNone] →
       MultiLayerPerceptron_forward self x = MultiLayerPerceptron_body self x)
  ∧ (∀ b rest, shape x = b :: rest → 0 < b →
       reshape_batch x = Ok (Tensor [b; numel rest] (data x))).
Proof.
  intros Hv.
  assert (MultiLayerPerceptron_forward self x
          = (if truthy v then reshape_batch x ≫= MultiLayerPerceptron_body self
             else MultiLayerPerceptron_body self x)) as Hfw.
  { unfold MultiLayerPerceptron_forward, getitem. rewrite Hv. simpl.
    by destruct (truthy v). }
  split; [done|]. split; [done|]. split; [|split; [|split]].
  - intros s -> Hs. rewrite Hfw. simpl.
    destruct (String.eqb_spec s ""); [done|]. done.
  - intros ->. by rewrite Hfw.
  - intros Hin. rewrite Hfw.
    repeat (apply elem_of_cons in Hin as [->|Hin]; [done|]).
    by apply elem_of_nil in Hin.
  - intros b rest Hx Hb. unfold reshape_batch, torch.shape_at. rewrite Hx. simpl.
    unfold torch.reshape_infer. rewrite Hx. simpl.
    rewrite decide_True.
    + rewrite (Nat.mul_comm b), Nat.div_mul by lia. done.
    + split; [done|]. rewrite Nat.mul_comm. apply Nat.Div0.mod_mul.
Qed.

Lemma reshape_truthiness_witness :
  MultiLayerPerceptron_default_config !! "reshape" = Some (PyStr "True")
  ∧ MultiLayerPerceptron_forward (unit_mlp (PyStr "False")) (Tensor [2; 1; 1] [1%R; 2%R])
    = (if truthy (PyStr "False")
       then reshape_batch (Tensor [2; 1; 1] [1%R; 2%R])
              ≫= MultiLayerPerceptron_body (unit_mlp (PyStr "False"))
       else MultiLayerPerceptron_body (unit_mlp (PyStr "False")) (Tensor [2; 1; 1] [1%R; 2%R]))
  ∧ (∀ s, PyStr "False" = PyStr s → s ≠ "" →
       MultiLayerPerceptron_forward (unit_mlp (PyStr "False")) (Tensor [2; 1; 1] [1%R; 2%R])
       = reshape_batch (Tensor [2; 1; 1] [1%R; 2%R])
           ≫= MultiLayerPerceptron_body (unit_mlp (PyStr "False")))
  ∧ (PyStr "False" = PyStr "False" →
       MultiLayerPerceptron_forward (unit_mlp (PyStr "False")) (Tensor [2; 1; 1] [1%R; 2%R])
       = reshape_batch (Tensor [2; 1; 1] [1%R; 2%R])
           ≫= MultiLayerPerceptron_body (unit_mlp (PyStr "False")))
  ∧ (PyStr "False" ∈ [PyBool false; PyInt 0; PyStr ""; PyNone] →
       MultiLayerPerceptron_forward (unit_mlp (PyStr "False")) (Tensor [2; 1; 1] [1%R; 2%R])
       = MultiLayerPerceptron_body (unit_mlp (PyStr "False")) (Tensor [2; 1; 1] [1%R; 2%R]))
  ∧ (∀ b rest, shape (Tensor [2; 1; 1] [1%R; 2%R]) = b :: rest → 0 < b →
       reshape_batch (Tensor [2; 1; 1] [1%R; 2%R])
       = Ok (Tensor [b; numel rest] (data (Tensor [2; 1; 1] [1%R; 2%R])))).
Proof.
  apply (reshape_truthiness (unit_mlp (PyStr "False")) (Tensor [2; 1; 1] [1%R; 2%R])
           (PyStr "False")).
  reflexivity.
Defined.

Lemma resolved_in_unset (config : dict) :
  config !! "in" = None ∨ config !! "in" = Some PyNone →
  Configurable_init MultiLayerPerceptron_default_config config !! "in" = Some PyNone.
Proof.
  unfold Configurable_init. intros [Hin|Hin].
  - rewrite lookup_union_r by done. reflexivity.
  - by apply lookup_union_Some_l.
Qed.

(** The construction when [in] is unset. *)
Lemma init_without_in (config : dict) (w : world)
    (act : activation_fn) :
  let cfg := Configurable_init MultiLayerPerceptron_default_config config in
  (config !! "in" = None ∨ config !! "in" = Some PyNone) →
  (getitem cfg "activation" ≫= activation_factory) = Ok act →
  (∀ l ls, cfg !! "layers" = Some (PyList (l :: ls)) →
     MultiLayerPerceptron_init config w = Raise TypeError)
  ∧ (cfg !! "layers" = Some (PyList []) → truthy (dict_get cfg "out") = true →
     MultiLayerPerceptron_init config w = Raise TypeError)
  ∧ (cfg !! "layers" = Some (PyList []) → truthy (dict_get cfg "out") = false →
     MultiLayerPerceptron_init config w
     = Ok (({| mlp_config := cfg; activation := act; layers := []; predict := None |},
            cfg), w)).
Proof.
  intros cfg Hin Hact. apply resolved_in_unset in Hin. fold cfg in Hin.
  assert (getitem cfg "in" = Ok PyNone) as Hin' by (unfold getitem; by rewrite Hin).
  split; [|split].
  - intros l ls Hl. unfold MultiLayerPerceptron_init. fold cfg.
    rewrite (M_bind_lift _ _ _ _ Hin').
    assert (getitem cfg "layers" ≫= as_list = Ok (l :: ls)) as Hl'
      by (unfold getitem; by rewrite Hl).
    rewrite (M_bind_lift _ _ _ _ Hl'). cbv zeta.
    rewrite (M_bind_lift _ _ _ _ Hact). reflexivity.
  - intros Hl Hout. unfold MultiLayerPerceptron_init. fold cfg.
    rewrite (M_bind_lift _ _ _ _ Hin').
    assert (getitem cfg "layers" ≫= as_list = Ok []) as Hl'
      by (unfold getitem; by rewrite Hl).
    rewrite (M_bind_lift _ _ _ _ Hl'). cbv zeta.
    rewrite (M_bind_lift _ _ _ _ Hact). rewrite Hout. simpl.
    unfold dict_get in Hout. unfold getitem.
    destruct (cfg !! "out") as [o|]; [|done]. reflexivity.
  - intros Hl Hout. unfold MultiLayerPerceptron_init. fold cfg.
    rewrite (M_bind_lift _ _ _ _ Hin').
    assert (getitem cfg "layers" ≫= as_list = Ok []) as Hl'
      by (unfold getitem; by rewrite Hl).
    rewrite (M_bind_lift _ _ _ _ Hl'). cbv zeta.
    rewrite (M_bind_lift _ _ _ _ Hact). rewrite Hout. simpl. by destruct w.
Qed.

(** C6, as amended.  There is no [ConfigurationError], and an empty
    [layers] is not refused.  With [in] unset and a known activation, the
    construction raises the [TypeError] of the [Linear] constructor as
    soon as a layer is to be built, that is when [layers] is not empty
    or [out] is set, and then no block is constructed; with an empty
    [layers] and no [out] it returns a block without layers. *)
Theorem MultiLayerPerceptron_init_in_unset (config : dict) (w : world)
    (act : activation_fn) :
  let cfg := Configurable_init MultiLayerPerceptron_default_config config in
  (config !! "in" = None ∨ config !! "in" = Some PyNone) →
  (getitem cfg "activation" ≫= activation_factory) = Ok act →
  (∀ l ls, cfg !! "layers" = Some (PyList (l :: ls)) →
     MultiLayerPerceptron_init config w = Raise TypeError)
  ∧ (cfg !! "layers" = Some (PyList []) → truthy (dict_get cfg "out") = true →
     MultiLayerPerceptron_init config w = Raise TypeError)
  ∧ (cfg !! "layers" = Some (PyList []) → truthy (dict_get cfg "out") = false →
     MultiLayerPerceptron_init config w
     = Ok (({| mlp_config := cfg; activation := act; layers := []; predict := None |},
            cfg), w)).
Proof. apply init_without_in. Qed.

Lemma MultiLayerPerceptron_init_in_unset_witness :
  let cfg := Configurable_init MultiLayerPerceptron_default_config ∅ in
  (∀ l ls, cfg !! "layers" = Some (PyList (l :: ls)) →
     MultiLayerPerceptron_init ∅ world0 = Raise TypeError)
  ∧ (cfg !! "layers" = Some (PyList []) → truthy (dict_get cfg "out") = true →
     MultiLayerPerceptron_init ∅ world0 = Raise TypeError)
  ∧ (cfg !! "layers" = Some (PyList []) → truthy (dict_get cfg "out") = false →
     MultiLayerPerceptron_init ∅ world0
     = Ok (({| mlp_config := cfg; activation := F_relu; layers := []; predict := None |},
            cfg), world0)).
Proof.
  apply (MultiLayerPerceptron_init_in_unset ∅ world0 F_relu);
    [left; reflexivity | reflexivity].
Defined.

(** C6 as it is stated fails: with [in] unset and an empty [layers], a
    block is constructed and nothing is raised. *)
Lemma MultiLayerPerceptron_init_empty_layers :
  let config : dict := {[ "layers" := PyList [] ]} in
  config !! "in" = None
  ∧ config !! "layers" = Some (PyList [])
  ∧ ∃ block cfg,
      MultiLayerPerceptron_init config world0 = Ok ((block, cfg), world0)
      ∧ layers block = [] ∧ predict block = None.
Proof.
  split; [reflexivity|]. split; [reflexivity|].
  eexists _, _. split.
  { apply (init_without_in {[ "layers" := PyList [] ]} world0 F_relu);
      [left; reflexivity | reflexivity | reflexivity | reflexivity]. }
  split; reflexivity.
Qed.

(** ** Linear layers *)

Lemma length_Linear_row (l : Linear) (x : list R) :
  Linear_wf l → length (Linear_row l x) = out_features l.
Proof.
  intros [Hw Hb]. unfold Linear_row. destruct (bias l) as [b|].
  - rewrite length_zip_with, length_fmap, Hw, (Hb b eq_refl). lia.
  - by rewrite length_fmap.
Qed.

Lemma Linear_forward_batched (l : Linear) lead (x : tensor R) :
  shape x = lead ++ [in_features l] →
  Linear_forward l x
  = Ok (Tensor (lead ++ [out_features l])
          (concat (Linear_row l <$> chunks (numel lead) (in_features l) (data x)))).
Proof.
  intros Hx. unfold Linear_forward. rewrite Hx, split_last_snoc.
  by rewrite decide_True.
Qed.

Lemma Forall_Linear_rows (l : Linear) (xs : list (list R)) :
  Linear_wf l → Forall (λ r, length r = out_features l) (Linear_row l <$> xs).
Proof.
  intros Hl. apply Forall_fmap, Forall_true. intros x. by apply length_Linear_row.
Qed.

Lemma Linear_rows_length (l : Linear) k w (d : list R) :
  Linear_wf l →
  length (concat (Linear_row l <$> chunks k w d)) = k * out_features l.
Proof.
  intros Hl. rewrite (length_concat_uniform (out_features l)).
  - by rewrite length_fmap, length_chunks.
  - by apply Forall_Linear_rows.
Qed.

(** ** Broadcasting a column *)

Lemma chunks_singletons {A} (d : list A) :
  chunks (length d) 1 d = (λ x, [x]) <$> d.
Proof.
  induction d as [|x d IH]; [done|].
  rewrite fmap_cons. cbn [length chunks take drop]. rewrite drop_0. by rewrite IH.
Qed.

Lemma concat_replicate_singleton {A} k (x : A) :
  concat (replicate k [x]) = replicate k x.
Proof. induction k as [|k IH]; simpl; [done|]. by rewrite IH. Qed.

Lemma transpose_singletons {A} (l : list A) :
  transpose 1 ((λ x, [x]) <$> l) = [l].
Proof.
  induction l as [|x l IH]; [done|].
  rewrite fmap_cons. cbn [transpose]. by rewrite IH.
Qed.

Lemma expand_m1_column {A} b k (v : tensor A) :
  shape v = [b; 1] → length (data v) = b →
  torch.expand_m1 k v = Ok (Tensor [b; k] (concat (replicate k <$> data v))).
Proof.
  intros Hs Hl. unfold torch.expand_m1, expand_to. rewrite Hs. simpl.
  rewrite (bool_decide_eq_true_2 (b = b)) by done. simpl.
  rewrite orb_true_r. simpl. rewrite decide_True by done.
  do 3 f_equal. rewrite <- Hl, chunks_singletons, <- list_fmap_compose.
  apply list_fmap_ext. intros _ x _. simpl.
  destruct (decide (1 = k)) as [<-|_]; [done|]. apply concat_replicate_singleton.
Qed.

Lemma binop_same f s (a b : tensor R) :
  shape a = s → shape b = s → wf a → wf b →
  binop f a b = Ok (Tensor s (zip_with f (data a) (data b))).
Proof.
  intros Ha Hb Wa Wb. unfold binop. rewrite Ha, Hb, broadcast_shapes_same.
  unfold wf in *. rewrite Ha in Wa. rewrite Hb in Wb.
  by rewrite pad_shape_same, !expand_data_same.
Qed.

Lemma mean1_rows b k (rows : list (list R)) :
  length rows = b → Forall (λ r, length r = k) rows →
  torch.mean1 (Tensor [b; k] (concat rows)) = Ok (Tensor [b] (mean <$> rows)).
Proof.
  intros Hb Hk. unfold torch.mean1. simpl. rewrite Nat.mul_1_r.
  rewrite <- Hb, chunks_concat by done. do 2 f_equal. clear Hb.
  induction Hk as [|r rows Hr _ IH]; [done|].
  rewrite !fmap_cons. cbn [concat]. rewrite IH.
  by rewrite <- Hr, chunks_singletons, transpose_singletons.
Qed.

(** ** The dueling head *)

Section dueling.
Local Open Scope R_scope.

Lemma sumR_shift c a : sumR ((λ x, x - c) <$> a) = sumR a - INR (length a) * c.
Proof.
  unfold sumR. induction a as [|x a IH]; [simpl; lra|].
  rewrite fmap_cons. cbn [foldr length]. rewrite IH, S_INR. lra.
Qed.

Lemma mean_centered a : (0 < length a)%nat → mean ((λ x, x - mean a) <$> a) = 0.
Proof.
  intros Hl. unfold mean at 1. rewrite sumR_shift, length_fmap. unfold mean.
  apply (lt_INR 0) in Hl. simpl in Hl. field. lra.
Qed.

Lemma dueling_row k v mu a :
  length a = k →
  zip_with Rminus (zip_with Rplus (replicate k v) a) (replicate k mu)
  = (λ x, v + x - mu) <$> a.
Proof.
  intros <-. induction a as [|x a IH]; [done|].
  rewrite fmap_cons. cbn [length replicate zip_with]. by rewrite IH.
Qed.

Lemma dueling_rows k Vd (Arows : list (list R)) :
  Forall (λ a, length a = k) Arows →
  zip_with Rminus
    (zip_with Rplus (concat (replicate k <$> Vd)) (concat Arows))
    (concat (replicate k <$> (mean <$> Arows)))
  = concat (zip_with (λ v a, (λ x, v + x - mean a) <$> a) Vd Arows).
Proof.
  intros HA; revert Vd; induction HA as [|a Arows Ha _ IH]; intros Vd.
  - simpl. by rewrite !zip_with_nil_r.
  - destruct Vd as [|v Vd]; [done|].
    rewrite !fmap_cons. cbn [concat zip_with].
    rewrite zip_with_app by (by rewrite length_replicate).
    rewrite zip_with_app
      by (by rewrite length_zip_with, !length_replicate, Ha, Nat.min_id).
    by rewrite IH, dueling_row.
Qed.

End dueling.

Lemma as_size_of_nat n : as_size (PyInt (Z.of_nat n)) = Ok n.
Proof.
  unfold as_size. destruct (Z.ltb_spec (Z.of_nat n) 0); [lia|].
  by rewrite Nat2Z.id.
Qed.

(** The forward pass of the dueling head after its base module. *)
Lemma DuelingNetwork_forward_rows (call : loc → tensor R → M (tensor R))
    (self : DuelingNetwork) (x repr : tensor R) (w w' : world) (b h out : nat) :
  call (base_module self) x w = Ok (repr, w') →
  shape repr = [b; h] →
  in_features (advantage self) = h →
  out_features (advantage self) = out →
  Linear_wf (advantage self) →
  in_features (value self) = h →
  out_features (value self) = 1 →
  Linear_wf (value self) →
  dueling_config self !! "out" = Some (PyInt (Z.of_nat out)) →
  DuelingNetwork_forward call self x w
  = Ok (Tensor [b; out]
          (concat (zip_with (λ v a, (λ y, v + y - mean a)%R <$> a)
                     (concat (Linear_row (value self) <$> chunks b h (data repr)))
                     (Linear_row (advantage self) <$> chunks b h (data repr)))), w').
Proof.
  intros Hcall Hs Hai Hao Haw Hvi Hvo Hvw Hout.
  unfold DuelingNetwork_forward. rewrite (M_bind_ok _ _ _ _ _ Hcall).
  set (Arows := Linear_row (advantage self) <$> chunks b h (data repr)).
  set (Vd := concat (Linear_row (value self) <$> chunks b h (data repr))).
  assert (Forall (λ r, length r = out) Arows) as HA
    by (subst out; by apply Forall_Linear_rows).
  assert (length Arows = b) as HAb by (unfold Arows; by rewrite length_fmap, length_chunks).
  assert (length Vd = b) as HVb
    by (unfold Vd; rewrite Linear_rows_length, Hvo by done; lia).
  assert (Linear_forward (advantage self) repr = Ok (Tensor [b; out] (concat Arows))) as Hadv.
  { rewrite (Linear_forward_batched _ [b]) by (by rewrite Hs, Hai).
    simpl. by rewrite Nat.mul_1_r, Hai, Hao. }
  assert (Linear_forward (value self) repr = Ok (Tensor [b; 1] Vd)) as Hval.
  { rewrite (Linear_forward_batched _ [b]) by (by rewrite Hs, Hvi).
    simpl. by rewrite Nat.mul_1_r, Hvi, Hvo. }
  rewrite (M_bind_lift _ _ _ _ Hadv), (M_bind_lift _ _ _ _ Hval).
  assert (getitem (dueling_config self) "out" ≫= as_size = Ok out) as Hout'.
  { unfold getitem. rewrite Hout. simpl. apply as_size_of_nat. }
  rewrite (M_bind_lift _ _ _ _ Hout').
  rewrite (M_bind_lift _ _ _ _ (expand_m1_column b out (Tensor [b; 1] Vd) eq_refl HVb)).
  assert (length (concat Arows) = b * out) as HAl
    by (rewrite (length_concat_uniform out) by done; by rewrite HAb).
  assert (length (concat (replicate out <$> Vd)) = b * out) as HVl.
  { rewrite (length_concat_uniform out).
    - by rewrite length_fmap, HVb.
    - apply Forall_fmap, Forall_true. intros v. simpl. apply length_replicate. }
  assert (torch.add (Tensor [b; out] (concat (replicate out <$> Vd)))
            (Tensor [b; out] (concat Arows))
          = Ok (Tensor [b; out]
                  (zip_with Rplus (concat (replicate out <$> Vd)) (concat Arows)))) as Hadd.
  { unfold torch.add. apply binop_same; try done; unfold wf; simpl; lia. }
  rewrite (M_bind_lift _ _ _ _ Hadd).
  assert (torch.mean1 (Tensor [b; out] (concat Arows)) ≫= torch.unsqueeze1
          = Ok (Tensor [b; 1] (mean <$> Arows))) as Hmean
    by (by rewrite mean1_rows).
  rewrite (M_bind_lift _ _ _ _ Hmean), (M_bind_lift _ _ _ _ Hout').
  assert (length (mean <$> Arows) = b) as HMb by (by rewrite length_fmap).
  rewrite (M_bind_lift _ _ _ _
             (expand_m1_column b out (Tensor [b; 1] (mean <$> Arows)) eq_refl HMb)).
  unfold torch.sub. erewrite binop_same; [|done|done| |].
  - simpl. by rewrite dueling_rows.
  - unfold wf. simpl. rewrite length_zip_with, HVl, HAl. lia.
  - unfold wf. simpl. rewrite (length_concat_uniform out).
    + rewrite !length_fmap, HAb. lia.
    + apply Forall_fmap, Forall_true. intros v. simpl. apply length_replicate.
Qed.

(** C3.  After its base module, [DuelingNetwork.forward] returns, row by
    row, [value + advantage - mean(advantage)], the value of width 1
    being repeated over the [out] actions; so the output minus the value
    has mean 0 over the actions (exactly, over the reals). *)
Theorem DuelingNetwork_forward_mean_zero (call : loc → tensor R → M (tensor R))
    (self : DuelingNetwork) (x repr : tensor R) (w w' : world) (b h out : nat) :
  call (base_module self) x w = Ok (repr, w') →
  shape repr = [b; h] →
  in_features (advantage self) = h →
  out_features (advantage self) = out →
  Linear_wf (advantage self) →
  in_features (value self) = h →
  out_features (value self) = 1 →
  Linear_wf (value self) →
  dueling_config self !! "out" = Some (PyInt (Z.of_nat out)) →
  0 < out →
  let Vd := concat (Linear_row (value self) <$> chunks b h (data repr)) in
  let Arows := Linear_row (advantage self) <$> chunks b h (data repr) in
  ∃ q,
    DuelingNetwork_forward call self x w = Ok (q, w')
    ∧ shape q = [b; out]
    ∧ data q = concat (zip_with (λ v a, (λ y, v + y - mean a)%R <$> a) Vd Arows)
    ∧ ∀ i v qrow,
        Vd !! i = Some v → chunks b out (data q) !! i = Some qrow →
        mean ((λ y, y - v)%R <$> qrow) = 0%R.
Proof.
  intros Hcall Hs Hai Hao Haw Hvi Hvo Hvw Hout Hpos Vd Arows.
  eexists. split; [by eapply DuelingNetwork_forward_rows|].
  split; [done|]. split; [done|]. simpl. fold Vd Arows.
  intros i v qrow Hv Hq.
  assert (Forall (λ r, length r = out) Arows) as HA
    by (subst out; by apply Forall_Linear_rows).
  assert (length Arows = b) as HAb by (unfold Arows; by rewrite length_fmap, length_chunks).
  assert (length Vd = b) as HVb
    by (unfold Vd; rewrite Linear_rows_length, Hvo by done; lia).
  set (Q := zip_with (λ v a, (λ y, v + y - mean a)%R <$> a) Vd Arows) in *.
  assert (length Q = b) as HQb by (unfold Q; rewrite length_zip_with; lia).
  assert (Forall (λ r, length r = out) Q) as HQ.
  { unfold Q. apply (Forall_zip_with_snd _ (λ a, length a = out)); [|done].
    apply Forall_true. intros v' a Ha. by rewrite length_fmap. }
  rewrite <- HQb, chunks_concat in Hq by done.
  unfold Q in Hq. apply lookup_zip_with_Some in Hq as (v' & a & -> & Hv' & Ha).
  rewrite Hv in Hv'. injection Hv' as <-.
  rewrite <- list_fmap_compose.
  rewrite (list_fmap_ext _ (λ y, y - mean a)%R a).
  - apply mean_centered. rewrite (proj1 (Forall_lookup _ _) HA _ _ Ha). done.
  - intros _ y _. simpl. lra.
Qed.

Lemma DuelingNetwork_forward_mean_zero_witness :
  let x := Tensor [1; 1] [5%R] in
  let Vd := concat (Linear_row (value ex_dueling) <$> chunks 1 1 (data x)) in
  let Arows := Linear_row (advantage ex_dueling) <$> chunks 1 1 (data x) in
  ∃ q,
    DuelingNetwork_forward (call 1) ex_dueling x dueling_world = Ok (q, dueling_world)
    ∧ shape q = [1; 2]
    ∧ data q = concat (zip_with (λ v a, (λ y, v + y - mean a)%R <$> a) Vd Arows)
    ∧ ∀ i v qrow,
        Vd !! i = Some v → chunks 1 2 (data q) !! i = Some qrow →
        mean ((λ y, y - v)%R <$> qrow) = 0%R.
Proof.
  apply (DuelingNetwork_forward_mean_zero (call 1) ex_dueling (Tensor [1; 1] [5%R])
           (Tensor [1; 1] [5%R]) dueling_world dueling_world 1 1 2);
    [reflexivity | reflexivity | reflexivity | reflexivity
    | split; [reflexivity | intros b [= <-]; reflexivity]
    | reflexivity | reflexivity
    | split; [reflexivity | intros b [= <-]; reflexivity]
    | reflexivity | lia].
Defined.

(** ** The ego-attention layer *)

Lemma view_ok {A} s (x : tensor A) :
  numel s = numel (shape x) → torch.view s x = Ok (Tensor s (data x)).
Proof. intros H. unfold torch.view. by rewrite decide_True. Qed.

Lemma Forall_Forall_transpose {A} (P : A → Prop) m (rows : list (list A)) :
  Forall (Forall P) rows → Forall (Forall P) (transpose m rows).
Proof.
  induction 1 as [|r rows Hr _ IH]; simpl.
  - by apply Forall_replicate.
  - revert IH. generalize (transpose m rows). intros T HT. revert T HT.
    induction Hr as [|x r Hx _ IHr]; intros [|c T] HT; simpl; try done.
    inversion HT; subst. constructor; [by constructor|by apply IHr].
Qed.

Lemma length_by_head {A} N h f (c : list A) :
  N * h * f ≤ length c → length (by_head N h f c) = N * h * f.
Proof.
  intros Hc. unfold by_head.
  set (blocks := chunks (N * h) f c).
  assert (Forall (λ bl, length bl = f) blocks) as Hbl by (by apply Forall_chunks).
  assert (length blocks = N * h) as Hnb by apply length_chunks.
  set (grid := chunks N h blocks).
  assert (Forall (λ r, length r = h) grid) as Hg by (apply Forall_chunks; lia).
  assert (length grid = N) as HgN by apply length_chunks.
  assert (Forall (Forall (λ bl, length bl = f)) grid) as Hgf.
  { apply Forall_concat. unfold grid. by rewrite concat_chunks. }
  rewrite (length_concat_uniform f).
  - rewrite (length_concat_uniform N).
    + rewrite length_transpose by done. lia.
    + rewrite <- HgN. apply Forall_transpose.
  - apply Forall_concat. by apply Forall_Forall_transpose.
Qed.

Lemma concat_zip_cons_nil {A} (l : list A) k :
  length l ≤ k → concat (zip_with cons l (replicate k [])) = l.
Proof.
  revert k; induction l as [|x l IH]; intros [|k] Hk; simpl in *; try done; [lia|].
  f_equal. apply IH. lia.
Qed.

(** With one entity the two orders are the same. *)
Lemma by_head_one {A} h f (c : list A) :
  length c = h * f → by_head 1 h f c = c.
Proof.
  intros Hc. unfold by_head. rewrite Nat.mul_1_l. cbn [chunks].
  rewrite take_ge by (by rewrite length_chunks). cbn [transpose].
  rewrite concat_zip_cons_nil by (by rewrite length_chunks).
  by apply concat_chunks.
Qed.

Lemma wf_input_all b n fs (ego others : tensor R) :
  length (data ego) = b * fs → length (data others) = b * (n * fs) →
  wf (input_all b n fs ego others).
Proof.
  intros He Ho. unfold wf, input_all. simpl.
  rewrite (length_concat_uniform (fs + n * fs)).
  - rewrite length_zip_with, !length_chunks. lia.
  - apply (Forall_zip_with_fst _ (λ x, length x = fs)).
    + apply Forall_chunks. lia.
    + eapply Forall_impl; [apply (Forall_chunks b (n * fs)); lia|].
      intros y Hy x Hx; simpl in *. rewrite length_app. lia.
Qed.

Lemma wf_heads_of lin b N heads fph (x : tensor R) :
  Linear_wf lin → out_features lin = heads * fph →
  wf (heads_of lin b N heads fph x).
Proof.
  intros Hl Ho. unfold wf, heads_of. simpl.
  rewrite (length_concat_uniform (N * heads * fph)).
  - rewrite length_fmap, length_chunks. lia.
  - apply Forall_fmap.
    eapply Forall_impl; [apply (Forall_chunks b (N * heads * fph))|].
    + rewrite Linear_rows_length, Ho by done. lia.
    + intros c Hc; simpl in *. apply length_by_head. lia.
Qed.

Lemma wf_head_mask b N heads (m : tensor bool) :
  length (data m) = b * N → wf (head_mask b N heads m).
Proof.
  intros Hm. unfold wf, head_mask. simpl.
  rewrite (length_concat_uniform (heads * N)).
  - rewrite length_fmap, length_chunks. lia.
  - apply Forall_fmap.
    eapply Forall_impl; [apply (Forall_chunks b N); lia|].
    intros c Hc; simpl in *. rewrite (length_concat_uniform N).
    + by rewrite length_replicate.
    + by apply Forall_replicate.
Qed.

Lemma heads_of_ok lin b N heads fph lead (x : tensor R) :
  shape x = lead ++ [in_features lin] → numel lead = b * N →
  Linear_wf lin → out_features lin = heads * fph →
  ∃ y1 y2,
    Linear_forward lin x = Ok y1
    ∧ torch.view [b; N; heads; fph] y1 = Ok y2
    ∧ torch.permute_0213 y2 = Ok (heads_of lin b N heads fph x).
Proof.
  intros Hx Hlead Hl Ho. eexists _, _.
  split; [by apply (Linear_forward_batched lin lead)|]. split.
  - apply view_ok. simpl. rewrite numel_app, Hlead, Ho. simpl. lia.
  - simpl. unfold heads_of, by_head. by rewrite Hlead.
Qed.

Lemma head_mask_ok b N heads (m : tensor bool) :
  numel (shape m) = b * N →
  ∃ m1,
    torch.view [b; 1; 1; N] m = Ok m1
    ∧ torch.repeat_1h11 heads m1 = Ok (head_mask b N heads m).
Proof.
  intros Hm. eexists. split; [apply view_ok; simpl; lia|].
  unfold torch.repeat_1h11, head_mask. simpl. by rewrite !Nat.add_0_r.
Qed.

Lemma size_of_Z_of_nat n : size_of_Z (Z.of_nat n) = Ok n.
Proof.
  unfold size_of_Z. destruct (Z.ltb_spec (Z.of_nat n) 0); [lia|].
  by rewrite Nat2Z.id.
Qed.

(** [EgoAttention.forward] up to the call of [attention]. *)
Lemma EgoAttention_forward_unfold (self : EgoAttention) fs heads fph drop b n
    (ego others : tensor R) (mask : option (tensor bool)) (w : world) :
  att_ok self fs heads fph drop →
  shape ego = [b; 1; fs] → shape others = [b; n; fs] →
  (∀ m, mask = Some m → numel (shape m) = b * (n + 1)) →
  EgoAttention_forward self ego others mask w
  = ('(attended, attention_matrix) ←
        attention (heads_of (query_ego self) b 1 heads fph ego)
          (heads_of (key_all self) b (n + 1) heads fph (input_all b n fs ego others))
          (heads_of (value_all self) b (n + 1) heads fph (input_all b n fs ego others))
          (head_mask b (n + 1) heads <$> mask) (Some drop);
     flat ← lift (torch.view [b; fs] attended);
     combined ← lift (Linear_forward (attention_combine self) flat);
     ego1 ← lift (torch.squeeze1 ego);
     s ← lift (torch.add combined ego1);
     mret (torch.div_scalar s 2, attention_matrix)) w.
Proof.
  intros (Hfs & Hh & Hdrop & Hfph & Hdiv & Hlin) He Ho Hm.
  apply Forall_cons in Hlin as [(Hvi & Hvo & Hvw) Hlin].
  apply Forall_cons in Hlin as [(Hki & Hko & Hkw) Hlin].
  apply Forall_cons in Hlin as [(Hqi & Hqo & Hqw) Hlin].
  apply Forall_cons in Hlin as [(Hci & Hco & Hcw) _].
  unfold EgoAttention_forward. cbv zeta.
  assert (torch.shape_at others 0 = Ok b) as H1 by (unfold torch.shape_at; by rewrite Ho).
  assert (torch.shape_at others 1 = Ok n) as H2 by (unfold torch.shape_at; by rewrite Ho).
  assert (getitem (att_config self) "feature_size" ≫= as_size = Ok fs) as H3.
  { unfold getitem. rewrite Hfs. simpl. apply as_size_of_nat. }
  assert (getitem (att_config self) "heads" ≫= as_size = Ok heads) as H4.
  { unfold getitem. rewrite Hh. simpl. apply as_size_of_nat. }
  assert (size_of_Z (features_per_head self) = Ok fph) as H5
    by (rewrite Hfph; apply size_of_Z_of_nat).
  assert (torch.view [b; 1; fs] ego = Ok (Tensor [b; 1; fs] (data ego))) as H6
    by (apply view_ok; by rewrite He).
  assert (torch.cat1 (Tensor [b; 1; fs] (data ego)) others
          = Ok (input_all b n fs ego others)) as H7.
  { unfold torch.cat1. simpl. rewrite Ho. rewrite decide_True by done.
    unfold input_all. simpl. by rewrite !Nat.mul_1_r, !Nat.add_0_r. }
  rewrite (M_bind_lift _ _ _ _ H1), (M_bind_lift _ _ _ _ H2), (M_bind_lift _ _ _ _ H3),
    (M_bind_lift _ _ _ _ H6), (M_bind_lift _ _ _ _ H7).
  destruct (heads_of_ok (key_all self) b (n + 1) heads fph [b; 1 + n]
              (input_all b n fs ego others)) as (k1 & k2 & Hk1 & Hk2 & Hk3);
    [by rewrite Hki | simpl; lia | done | lia |].
  destruct (heads_of_ok (value_all self) b (n + 1) heads fph [b; 1 + n]
              (input_all b n fs ego others)) as (v1 & v2 & Hv1 & Hv2 & Hv3);
    [by rewrite Hvi | simpl; lia | done | lia |].
  destruct (heads_of_ok (query_ego self) b 1 heads fph [b; 1] ego)
    as (q1 & q2 & Hq1 & Hq2 & Hq3);
    [by rewrite Hqi, He | simpl; lia | done | lia |].
  rewrite (M_bind_lift _ _ _ _ Hk1), (M_bind_lift _ _ _ _ H4), (M_bind_lift _ _ _ _ H5),
    (M_bind_lift _ _ _ _ Hk2).
  rewrite (M_bind_lift _ _ _ _ Hv1), (M_bind_lift _ _ _ _ H4), (M_bind_lift _ _ _ _ Hv2).
  rewrite (M_bind_lift _ _ _ _ Hq1), (M_bind_lift _ _ _ _ H4), (M_bind_lift _ _ _ _ Hq2).
  rewrite (M_bind_lift _ _ _ _ Hk3), (M_bind_lift _ _ _ _ Hv3), (M_bind_lift _ _ _ _ Hq3).
  assert ((match mask with
           | Some m =>
               lift (torch.view [b; 1; 1; n + 1] m) ≫= λ m0,
                 lift (getitem (att_config self) "heads" ≫= as_size) ≫= λ heads0,
                   Some <$> lift (torch.repeat_1h11 heads0 m0)
           | None => mret None
           end) w = Ok (head_mask b (n + 1) heads <$> mask, w)) as Hmask.
  { destruct mask as [m|]; [|done].
    destruct (head_mask_ok b (n + 1) heads m (Hm m eq_refl)) as (m1 & Hm1 & Hm2).
    rewrite (M_bind_lift _ _ _ _ Hm1), (M_bind_lift _ _ _ _ H4).
    unfold fmap, M_fmap, lift. by rewrite Hm2. }
  rewrite (M_bind_ok _ _ _ _ _ Hmask).
  rewrite (M_bind_lift _ _ _ _ Hdrop).
  match goal with
  | |- (?a ≫= ?f) w = (?a ≫= ?g) w =>
      change (match a w with Ok (x, w') => f x w' | Raise e => Raise e end
              = match a w with Ok (x, w') => g x w' | Raise e => Raise e end);
      destruct (a w) as [[[attended att] w']|e]; [|done]
  end.
  by rewrite (M_bind_lift _ _ _ _ H3).
Qed.

(** [EgoAttention.forward] after the call of [attention]. *)
Lemma EgoAttention_forward_tail (comb : Linear) fs heads fph b
    (ego attended att : tensor R) (w : world) :
  in_features comb = fs → out_features comb = fs → Linear_wf comb →
  fs = heads * fph →
  shape ego = [b; 1; fs] → wf ego →
  shape attended = [b; heads; 1; fph] →
  (flat ← lift (torch.view [b; fs] attended);
   combined ← lift (Linear_forward comb flat);
   ego1 ← lift (torch.squeeze1 ego);
   s ← lift (torch.add combined ego1);
   mret (torch.div_scalar s 2, att)) w
  = Ok ((Tensor [b; fs]
           (zip_with (λ c e, (c + e) / 2)%R
              (concat (Linear_row comb <$> chunks b fs (data attended)))
              (data ego)), att), w).
Proof.
  intros Hci Hco Hcw Hdiv He We Ha.
  assert (torch.view [b; fs] attended = Ok (Tensor [b; fs] (data attended))) as Hview
    by (apply view_ok; rewrite Ha; simpl; lia).
  rewrite (M_bind_lift _ _ _ _ Hview).
  assert (Linear_forward comb (Tensor [b; fs] (data attended))
          = Ok (Tensor [b; fs] (concat (Linear_row comb <$> chunks b fs (data attended)))))
    as Hc.
  { rewrite (Linear_forward_batched comb [b]) by (by rewrite Hci).
    simpl. by rewrite Nat.mul_1_r, Hci, Hco. }
  rewrite (M_bind_lift _ _ _ _ Hc).
  assert (torch.squeeze1 ego = Ok (Tensor [b; fs] (data ego))) as Hs
    by (unfold torch.squeeze1; by rewrite He).
  rewrite (M_bind_lift _ _ _ _ Hs).
  assert (torch.add (Tensor [b; fs] (concat (Linear_row comb <$> chunks b fs (data attended))))
            (Tensor [b; fs] (data ego))
          = Ok (Tensor [b; fs]
                  (zip_with Rplus (concat (Linear_row comb <$> chunks b fs (data attended)))
                     (data ego)))) as Hadd.
  { unfold torch.add.
    apply (binop_same Rplus [b; fs]
             (Tensor [b; fs] (concat (Linear_row comb <$> chunks b fs (data attended))))
             (Tensor [b; fs] (data ego))); try done; unfold wf in *; simpl.
    - rewrite Linear_rows_length, Hco by done. lia.
    - rewrite We, He. simpl. lia. }
  rewrite (M_bind_lift _ _ _ _ Hadd).
  unfold torch.div_scalar, tmap. simpl. by rewrite fmap_zip_with.
Qed.

(** [EgoAttention.forward] returns the blend of the recombined attended
    vector with the ego features, whatever the dropout draws. *)
Lemma EgoAttention_forward_blend (self : EgoAttention) fs heads fph drop b n
    (ego others : tensor R) (mask : option (tensor bool)) (w : world) :
  att_ok self fs heads fph drop →
  shape ego = [b; 1; fs] → shape others = [b; n; fs] →
  wf ego → wf others →
  (∀ m, mask = Some m → numel (shape m) = b * (n + 1) ∧ wf m) →
  ∃ attended att w',
    attention (heads_of (query_ego self) b 1 heads fph ego)
      (heads_of (key_all self) b (n + 1) heads fph (input_all b n fs ego others))
      (heads_of (value_all self) b (n + 1) heads fph (input_all b n fs ego others))
      (head_mask b (n + 1) heads <$> mask) (Some drop) w
    = Ok ((attended, att), w')
    ∧ shape attended = [b; heads; 1; fph]
    ∧ shape att = [b; heads; 1; n + 1]
    ∧ heap w' = heap w
    ∧ EgoAttention_forward self ego others mask w
      = Ok ((Tensor [b; fs]
               (zip_with (λ c e, (c + e) / 2)%R
                  (concat (Linear_row (attention_combine self)
                             <$> chunks b fs (data attended)))
                  (data ego)), att), w').
Proof.
  intros Hok He Ho We Wo Hm.
  assert (∀ m, mask = Some m → numel (shape m) = b * (n + 1)) as Hm'
    by (intros m Hmm; by destruct (Hm m Hmm)).
  rewrite (EgoAttention_forward_unfold self fs heads fph drop b n) by done.
  destruct Hok as (Hfs & Hh & Hdrop & Hfph & Hdiv & Hlin).
  apply Forall_cons in Hlin as [(Hvi & Hvo & Hvw) Hlin].
  apply Forall_cons in Hlin as [(Hki & Hko & Hkw) Hlin].
  apply Forall_cons in Hlin as [(Hqi & Hqo & Hqw) Hlin].
  apply Forall_cons in Hlin as [(Hci & Hco & Hcw) _].
  destruct (attention_total [b; heads] 1 (n + 1) fph fph
              (heads_of (query_ego self) b 1 heads fph ego)
              (heads_of (key_all self) b (n + 1) heads fph (input_all b n fs ego others))
              (heads_of (value_all self) b (n + 1) heads fph (input_all b n fs ego others))
              (head_mask b (n + 1) heads <$> mask)
              (data <$> (head_mask b (n + 1) heads <$> mask))
              (Some drop) w)
    as (attended & att & w' & Hatt & Hsa & Wa & Hsp & Wp & _ & Hheap);
    try done; try (apply wf_heads_of; [done|lia]).
  - intros m0 Hm0. destruct mask as [m|]; [|done]. injection Hm0 as <-.
    apply wf_head_mask. destruct (Hm m eq_refl) as [Hn Wm]. by rewrite Wm.
  - destruct mask as [m|]; [|done]. simpl.
    rewrite expand_to_same; [done|done|].
    apply wf_head_mask. destruct (Hm m eq_refl) as [Hn Wm]. by rewrite Wm.
  - exists attended, att, w'. split; [done|]. split; [done|]. split; [done|].
    split; [done|]. rewrite (M_bind_ok _ _ _ _ _ Hatt).
    by apply (EgoAttention_forward_tail _ fs heads fph).
Qed.

Lemma Dropout_init_zero :
  Dropout_init (PyInt 0) = Ok {| p := 0%R; training := true |}.
Proof.
  unfold Dropout_init. simpl.
  destruct (Rlt_dec 0 0) as [H|_]; [lra|].
  destruct (Rlt_dec 1 0) as [H|_]; [lra|]. done.
Qed.

Lemma unit_linear_wf bias : Linear_wf (unit_linear bias).
Proof. split; [done|]. destruct bias; simpl; [by intros b [= <-]|done]. Qed.

Lemma ex_att_ok : att_ok (ex_att (PyInt 0)) 1 1 1 {| p := 0%R; training := true |}.
Proof.
  split; [reflexivity|]. split; [reflexivity|]. split; [apply Dropout_init_zero|].
  split; [reflexivity|]. split; [reflexivity|].
  repeat constructor; apply unit_linear_wf.
Qed.

(** C4.  On an ego of shape [(batch, 1, feature_size)], others of shape
    [(batch, n, feature_size)] and an optional mask of one entry per
    entity, [EgoAttention.forward] returns [(combine(attended) + ego) / 2]
    entry by entry: the output of [attention], recombined to
    [(batch, feature_size)], through the layer [attention_combine], then
    averaged with the ego features; and it returns the weights of that
    same call of [attention]. *)
Theorem EgoAttention_forward_residual (self : EgoAttention) fs heads fph drop b n
    (ego others : tensor R) (mask : option (tensor bool)) (w : world) :
  att_ok self fs heads fph drop →
  shape ego = [b; 1; fs] → shape others = [b; n; fs] →
  wf ego → wf others →
  (∀ m, mask = Some m → numel (shape m) = b * (n + 1) ∧ wf m) →
  ∃ attended att w',
    attention (heads_of (query_ego self) b 1 heads fph ego)
      (heads_of (key_all self) b (n + 1) heads fph (input_all b n fs ego others))
      (heads_of (value_all self) b (n + 1) heads fph (input_all b n fs ego others))
      (head_mask b (n + 1) heads <$> mask) (Some drop) w
    = Ok ((attended, att), w')
    ∧ shape attended = [b; heads; 1; fph]
    ∧ shape att = [b; heads; 1; n + 1]
    ∧ heap w' = heap w
    ∧ EgoAttention_forward self ego others mask w
      = Ok ((Tensor [b; fs]
               (zip_with (λ c e, (c + e) / 2)%R
                  (concat (Linear_row (attention_combine self)
                             <$> chunks b fs (data attended)))
                  (data ego)), att), w').
Proof. apply EgoAttention_forward_blend. Qed.

Lemma EgoAttention_forward_residual_witness :
  ∃ attended att w',
    attention (heads_of (unit_linear false) 1 1 1 1 ex_ego)
      (heads_of (unit_linear false) 1 2 1 1 (input_all 1 1 1 ex_ego ex_others))
      (heads_of (unit_linear false) 1 2 1 1 (input_all 1 1 1 ex_ego ex_others))
      (Some (head_mask 1 2 1 ex_presence))
      (Some {| p := 0%R; training := true |}) world0
    = Ok ((attended, att), w')
    ∧ shape attended = [1; 1; 1; 1]
    ∧ shape att = [1; 1; 1; 2]
    ∧ heap w' = heap world0
    ∧ EgoAttention_forward (ex_att (PyInt 0)) ex_ego ex_others (Some ex_presence) world0
      = Ok ((Tensor [1; 1]
               (zip_with (λ c e, (c + e) / 2)%R
                  (concat (Linear_row (unit_linear false) <$> chunks 1 1 (data attended)))
                  (data ex_ego)), att), w').
Proof.
  apply (EgoAttention_forward_residual (ex_att (PyInt 0)) 1 1 1
           {| p := 0%R; training := true |} 1 1 ex_ego ex_others
           (Some ex_presence) world0);
    [apply ex_att_ok | reflexivity | reflexivity | reflexivity | reflexivity
    | intros m [= <-]; split; reflexivity].
Defined.

(** ** Dropout in the layer *)

(** [attention] with a dropout that draws. *)
Lemma attention_dropout_active lead nq nk d dv (query key value : tensor R)
    (drop : Dropout) (w : world) :
  shape query = lead ++ [nq; d] →
  shape key = lead ++ [nk; d] →
  shape value = lead ++ [nk; dv] →
  wf query → wf key → wf value →
  p drop ≠ 0%R → p drop ≠ 1%R → training drop = true →
  numel (lead ++ [nq; nk]) ≠ 0 →
  let c := numel lead in
  let Ps := probs_spec <$> heads_scores d (mats c nq d (data query))
                             (mats c nk d (data key)) None in
  ∃ out,
    attention query key value None (Some drop) w
    = Ok ((out,
           Tensor (lead ++ [nq; nk])
             (zip_with (λ s u, s * ((if Rlt_dec u (1 - p drop) then 1 else 0)
                                    / (1 - p drop)))%R
                (flat3 Ps)
                (draws (gen w) <$> seq (pos (gen w)) (numel (lead ++ [nq; nk]))))),
          World (heap w) (Rng (draws (gen w)) (pos (gen w) + numel (lead ++ [nq; nk])))).
Proof.
  intros Hq Hk Hv Wq Wk Wv Hp0 Hp1 Htr Hn c Ps.
  destruct (attention_softmax lead nq nk d query key value None None (Some drop) w)
    as [HP ->]; try done.
  fold c. fold Ps.
  set (P' := Tensor (lead ++ [nq; nk]) (zip_with _ (flat3 Ps) _)).
  set (w' := World (heap w) _).
  assert (Dropout_forward drop (Tensor (lead ++ [nq; nk]) (flat3 Ps)) w = Ok (P', w'))
    as Hdrop.
  { unfold Dropout_forward. destruct (Req_dec_T (p drop) 0); [done|].
    rewrite Htr. simpl. rewrite decide_False by done.
    destruct (Req_dec_T (p drop) 1); [done|]. done. }
  rewrite (M_bind_ok _ _ _ _ _ Hdrop).
  assert (wf P') as WP'.
  { unfold wf, P'. simpl.
    rewrite length_zip_with, length_fmap, length_seq, (length_flat3 _ nq nk) by done.
    rewrite numel_app. simpl. fold c. lia. }
  rewrite (M_bind_lift _ _ _ _ (matmul_batched lead nq nk dv P' value eq_refl Hv WP' Wv)).
  by eexists.
Qed.

Lemma Dropout_init_half :
  Dropout_init (PyFloat 0.5) = Ok {| p := 0.5%R; training := true |}.
Proof.
  unfold Dropout_init. simpl.
  destruct (Rlt_dec 0.5 0) as [H|_]; [lra|].
  destruct (Rlt_dec 1 0.5) as [H|_]; [lra|]. done.
Qed.

Lemma ex_att_half_ok :
  att_ok (ex_att (PyFloat 0.5)) 1 1 1 {| p := 0.5%R; training := true |}.
Proof.
  split; [reflexivity|]. split; [reflexivity|]. split; [apply Dropout_init_half|].
  split; [reflexivity|]. split; [reflexivity|].
  repeat constructor; apply unit_linear_wf.
Qed.

Lemma softmax_row_singleton s : torch.softmax_row [s] = [1%R].
Proof.
  unfold torch.softmax_row. simpl. f_equal. pose proof (exp_pos s). field. lra.
Qed.

(** One call of the layer of [ex_att 0.5] on a lone ego: the weight that
    is returned is the only weight, 1, scaled by the draw. *)
Lemma ex_att_half_forward (w : world) :
  ∃ r,
    EgoAttention_forward (ex_att (PyFloat 0.5)) ex_ego no_others None w
    = Ok ((r, Tensor [1; 1; 1; 1]
                [(1 * ((if Rlt_dec (draws (gen w) (pos (gen w))) (1 - 0.5) then 1 else 0)
                       / (1 - 0.5)))%R]),
          World (heap w) (Rng (draws (gen w)) (pos (gen w) + 1))).
Proof.
  destruct (EgoAttention_forward_blend (ex_att (PyFloat 0.5)) 1 1 1
              {| p := 0.5%R; training := true |} 1 0 ex_ego no_others None w)
    as (attended & att & w' & Hatt & _ & _ & _ & Hfw);
    [apply ex_att_half_ok | reflexivity | reflexivity | reflexivity | reflexivity
    | done |].
  destruct (attention_dropout_active [1; 1] 1 1 1 1
              (heads_of (unit_linear false) 1 1 1 1 ex_ego)
              (heads_of (unit_linear false) 1 1 1 1 (input_all 1 0 1 ex_ego no_others))
              (heads_of (unit_linear false) 1 1 1 1 (input_all 1 0 1 ex_ego no_others))
              {| p := 0.5%R; training := true |} w) as [out Hout];
    [reflexivity | reflexivity | reflexivity | reflexivity | reflexivity | reflexivity
    | simpl; lra | simpl; lra | reflexivity | simpl; lia |].
  simpl in Hatt. simpl in Hout. rewrite Hout in Hatt.
  injection Hatt as <- <- <-. rewrite Hfw. eexists. do 3 f_equal.
  assert (∀ s, exp s / (exp s + 0) = 1)%R as Hone
    by (intros s; pose proof (exp_pos s); field; lra).
  by rewrite Hone.
Qed.

(** C5 on the failing input.  The layer is in evaluation mode and its
    configured dropout factor is 0.5; two calls in a row on the same
    inputs return different attention weights: the first draw keeps the
    weight (and doubles it), the second drops it. *)
Theorem EgoAttention_forward_eval_draws :
  att_training (ex_att (PyFloat 0.5)) = false
  ∧ ∃ r1 a1 w1 r2 a2 w2,
      EgoAttention_forward (ex_att (PyFloat 0.5)) ex_ego no_others None flip_world
      = Ok ((r1, a1), w1)
      ∧ EgoAttention_forward (ex_att (PyFloat 0.5)) ex_ego no_others None w1
        = Ok ((r2, a2), w2)
      ∧ a1 ≠ a2.
Proof.
  split; [reflexivity|].
  destruct (ex_att_half_forward flip_world) as [r1 H1].
  set (w1 := World (heap flip_world)
               (Rng (draws (gen flip_world)) (pos (gen flip_world) + 1))) in *.
  destruct (ex_att_half_forward w1) as [r2 H2].
  eexists _, _, _, _, _, _. split; [exact H1|]. split; [exact H2|].
  simpl.
  destruct (Rlt_dec 0 (1 - 0.5)) as [_|H]; [|lra].
  destruct (Rlt_dec 1 (1 - 0.5)) as [H|_]; [lra|].
  intros [= Heq]. lra.
Qed.

(** ** The dense block row by row *)

Lemma apply_activation_tmap a x : apply_activation a x = tmap (act_fn a) x.
Proof. by destruct a. Qed.

Lemma forward_layers_rows a ls lead i o (rows : list (list R)) :
  layers_ok ls i o →
  Forall (λ r, length r = i) rows → length rows = numel lead →
  forward_layers a ls (Tensor (lead ++ [i]) (concat rows))
  = Ok (Tensor (lead ++ [o]) (concat (layers_row a ls <$> rows)))
  ∧ Forall (λ r, length r = o) (layers_row a ls <$> rows).
Proof.
  revert i rows; induction ls as [|l ls IH]; intros i rows Hok Hrows Hlen; simpl in *.
  - subst o. rewrite list_fmap_id. done.
  - destruct Hok as (Hi & Hl & Hok).
    rewrite (Linear_forward_batched l lead) by (by rewrite Hi). simpl.
    rewrite Hi, <- Hlen, chunks_concat by done.
    rewrite apply_activation_tmap. unfold tmap. simpl.
    rewrite fmap_concat, <- list_fmap_compose.
    destruct (IH (out_features l) ((fmap (act_fn a) ∘ Linear_row l) <$> rows)) as [H1 H2];
      [done| |by rewrite length_fmap|].
    + apply Forall_fmap, Forall_true. intros r. simpl.
      by rewrite length_fmap, length_Linear_row.
    + rewrite <- list_fmap_compose in H1, H2. by rewrite H1.
Qed.

Lemma MultiLayerPerceptron_forward_rows (m : MultiLayerPerceptron) i o lead (x : tensor R) :
  mlp_ok m i o → shape x = lead ++ [i] → wf x →
  MultiLayerPerceptron_forward m x
  = Ok (Tensor (lead ++ [o]) (concat (mlp_row m <$> chunks (numel lead) i (data x))))
  ∧ wf (Tensor (lead ++ [o]) (concat (mlp_row m <$> chunks (numel lead) i (data x)))).
Proof.
  intros [(v & Hv & Hfalsy) (mid & Hls & Hout)] Hx Wx.
  unfold wf in Wx. rewrite Hx, numel_app in Wx. simpl in Wx.
  assert (Forall (λ r, length r = i) (chunks (numel lead) i (data x))) as Hrows
    by (apply Forall_chunks; lia).
  destruct (forward_layers_rows (activation m) (layers m) lead i mid
              (chunks (numel lead) i (data x)) Hls Hrows) as [Hfw Hmid];
    [apply length_chunks|].
  rewrite concat_chunks in Hfw by lia.
  assert (Tensor (lead ++ [i]) (data x) = x) as Hxx by (destruct x; simpl in *; by subst).
  rewrite Hxx in Hfw.
  assert (MultiLayerPerceptron_forward m x
          = Ok (Tensor (lead ++ [o])
                  (concat (mlp_row m <$> chunks (numel lead) i (data x))))) as Hres.
  { unfold MultiLayerPerceptron_forward, getitem. rewrite Hv. simpl. rewrite Hfalsy.
    simpl. unfold MultiLayerPerceptron_body. rewrite Hfw. simpl.
    unfold mlp_row. destruct (truthy (dict_get (mlp_config m) "out")).
    - destruct Hout as (pr & Hpr & Hpi & Hpo & Hpw). rewrite Hpr.
      rewrite (Linear_forward_batched pr lead) by (by rewrite Hpi). simpl.
      rewrite Hpi, Hpo.
      replace (numel lead) with
        (length (layers_row (activation m) (layers m) <$> chunks (numel lead) i (data x))) at 1
        by (by rewrite length_fmap, length_chunks).
      rewrite chunks_concat by done. by rewrite <- list_fmap_compose.
    - by subst o. }
  split; [done|]. unfold wf. simpl. rewrite numel_app. simpl.
  rewrite (length_concat_uniform o).
  - rewrite length_fmap, length_chunks. lia.
  - unfold mlp_row. destruct (truthy (dict_get (mlp_config m) "out")).
    + destruct Hout as (pr & Hpr & Hpi & Hpo & Hpw). rewrite Hpr.
      apply Forall_fmap, Forall_true. intros r. simpl. rewrite <- Hpo.
      by apply length_Linear_row.
    + by subst o.
Qed.

Lemma call_mlp fuel (l : loc) (m : MultiLayerPerceptron) (x : tensor R) (w : world) :
  heap w !! l = Some (ModMLP m) →
  call (S fuel) l x w = lift (MultiLayerPerceptron_forward m x) w.
Proof. intros Hl. simpl. by rewrite Hl. Qed.

(** ** The split of the input *)

Lemma slice_bounds_first N : 1 ≤ N → torch.slice_bounds 0 (Some 1%Z) N = (0, 1).
Proof.
  intros HN. unfold torch.slice_bounds, torch.slice_index. simpl.
  f_equal; lia.
Qed.

Lemma slice_bounds_rest N : 1 ≤ N → torch.slice_bounds 1 None N = (1, N - 1).
Proof.
  intros HN. unfold torch.slice_bounds, torch.slice_index. simpl.
  f_equal; lia.
Qed.

Lemma slice_bounds_one idx F :
  idx < F →
  torch.slice_bounds (Z.of_nat idx) (Some (Z.of_nat idx + 1)%Z) F = (idx, 1).
Proof.
  intros Hi. unfold torch.slice_bounds, torch.slice_index.
  destruct (Z.ltb_spec (Z.of_nat idx) 0); [lia|].
  destruct (Z.ltb_spec (Z.of_nat idx + 1) 0); [lia|].
  f_equal; lia.
Qed.

Lemma split_input_ok (self : EgoAttentionNetwork) b N F idx (x : tensor R) :
  shape x = [b; N; F] → 1 ≤ N →
  net_config self !! "presence_feature_idx" = Some (PyInt (Z.of_nat idx)) →
  idx < F →
  split_input self x = Ok (ego_of b N F x, others_of b N F x, presence_of b N F idx x).
Proof.
  intros Hx HN Hidx Hlt. unfold split_input, torch.slice1, torch.slice2, getitem.
  rewrite Hx, Hidx, slice_bounds_first, slice_bounds_rest by done. simpl.
  pose proof (slice_bounds_one idx F Hlt) as Hb.
  unfold torch.slice_bounds in Hb. injection Hb as Hb1 Hb2. rewrite Hb2, Hb1.
  unfold ego_of, others_of, presence_of, torch.lt_scalar, tmap. simpl.
  by rewrite !Nat.mul_1_r, !Nat.add_0_r.
Qed.

Lemma wf_ego_of b N F (x : tensor R) :
  shape x = [b; N; F] → wf x → 1 ≤ N → wf (ego_of b N F x).
Proof.
  intros Hx Wx HN. unfold wf in *. rewrite Hx in Wx. simpl in *.
  rewrite (length_concat_uniform F).
  - rewrite length_fmap, length_chunks. lia.
  - apply Forall_fmap. eapply Forall_impl; [apply (Forall_chunks b (N * F)); lia|].
    intros c Hc; simpl in *. rewrite length_take. nia.
Qed.

Lemma wf_others_of b N F (x : tensor R) :
  shape x = [b; N; F] → wf x → 1 ≤ N → wf (others_of b N F x).
Proof.
  intros Hx Wx HN. unfold wf in *. rewrite Hx in Wx. simpl in *.
  rewrite (length_concat_uniform ((N - 1) * F)).
  - rewrite length_fmap, length_chunks. lia.
  - apply Forall_fmap. eapply Forall_impl; [apply (Forall_chunks b (N * F)); lia|].
    intros c Hc; simpl in *. rewrite length_take, length_drop. nia.
Qed.

Lemma wf_presence_of b N F idx (x : tensor R) :
  shape x = [b; N; F] → wf x → idx < F → wf (presence_of b N F idx x).
Proof.
  intros Hx Wx Hi. unfold wf in *. rewrite Hx in Wx. simpl in *.
  rewrite length_fmap, (length_concat_uniform 1).
  - rewrite length_fmap, length_chunks. lia.
  - apply Forall_fmap. eapply Forall_impl; [apply (Forall_chunks (b * N) F); lia|].
    intros c Hc; simpl in *. rewrite length_take, length_drop. lia.
Qed.

(** ** The layer with an idle dropout *)

Lemma EgoAttention_forward_idle (self : EgoAttention) fs heads fph drop b n
    (ego others : tensor R) (mask : option (tensor bool)) (w : world) :
  att_ok self fs heads fph drop →
  dropout_idle (Some drop) →
  shape ego = [b; 1; fs] → shape others = [b; n; fs] →
  wf ego → wf others →
  (∀ m, mask = Some m → numel (shape m) = b * (n + 1) ∧ wf m) →
  let c := numel [b; heads] in
  let Q := heads_of (query_ego self) b 1 heads fph ego in
  let K := heads_of (key_all self) b (n + 1) heads fph (input_all b n fs ego others) in
  let V := heads_of (value_all self) b (n + 1) heads fph (input_all b n fs ego others) in
  let bits := (λ m, data (head_mask b (n + 1) heads m)) <$> mask in
  let Ps := probs_spec <$> heads_scores fph (mats c 1 fph (data Q))
                             (mats c (n + 1) fph (data K))
                             (mats c 1 (n + 1) <$> bits) in
  let attended := flat3 (zip_with (output_spec fph) Ps (mats c (n + 1) fph (data V))) in
  EgoAttention_forward self ego others mask w
  = Ok ((Tensor [b; fs]
           (zip_with (λ c e, (c + e) / 2)%R
              (concat (Linear_row (attention_combine self) <$> chunks b fs attended))
              (data ego)),
         Tensor [b; heads; 1; n + 1] (flat3 Ps)), w).
Proof.
  intros Hok Hidle He Ho We Wo Hm c Q K V bits Ps attended.
  assert (∀ m, mask = Some m → numel (shape m) = b * (n + 1)) as Hm'
    by (intros m Hmm; by destruct (Hm m Hmm)).
  rewrite (EgoAttention_forward_unfold self fs heads fph drop b n) by done.
  destruct Hok as (Hfs & Hh & Hdrop & Hfph & Hdiv & Hlin).
  apply Forall_cons in Hlin as [(Hvi & Hvo & Hvw) Hlin].
  apply Forall_cons in Hlin as [(Hki & Hko & Hkw) Hlin].
  apply Forall_cons in Hlin as [(Hqi & Hqo & Hqw) Hlin].
  apply Forall_cons in Hlin as [(Hci & Hco & Hcw) _].
  assert (attention Q K V (head_mask b (n + 1) heads <$> mask) (Some drop) w
          = Ok ((Tensor [b; heads; 1; fph] attended,
                 Tensor [b; heads; 1; n + 1] (flat3 Ps)), w)) as Hatt.
  { apply (attention_heads [b; heads] 1 (n + 1) fph fph Q K V
             (head_mask b (n + 1) heads <$> mask) bits (Some drop) w); try done.
    - apply wf_heads_of; [done|lia].
    - apply wf_heads_of; [done|lia].
    - apply wf_heads_of; [done|lia].
    - intros m0 Hm0. destruct mask as [m|]; [|done]. injection Hm0 as <-.
      apply wf_head_mask. destruct (Hm m eq_refl) as [Hn Wm]. by rewrite Wm.
    - unfold bits. destruct mask as [m|]; [|done]. simpl.
      change [b; heads; 1; n + 1] with (shape (head_mask b (n + 1) heads m)).
      rewrite expand_to_same; [done|done|].
      apply wf_head_mask. destruct (Hm m eq_refl) as [Hn Wm]. by rewrite Wm. }
  rewrite (M_bind_ok _ _ _ _ _ Hatt).
  by apply (EgoAttention_forward_tail _ fs heads fph).
Qed.

(** ** A lone ego *)

Lemma chunks_zero {A} k (l : list A) : chunks k 0 l = replicate k [].
Proof.
  revert l; induction k as [|k IH]; intros l; simpl; [done|].
  by rewrite take_0, drop_0, IH.
Qed.

Lemma zip_with_app_nil {A} (xs : list (list A)) k :
  length xs ≤ k → zip_with app xs (replicate k []) = xs.
Proof.
  revert k; induction xs as [|x xs IH]; intros [|k] Hk; simpl in *; try done; [lia|].
  rewrite app_nil_r, IH by lia. done.
Qed.

Lemma input_all_alone b fs (ego others : tensor R) :
  length (data ego) = b * fs → data (input_all b 0 fs ego others) = data ego.
Proof.
  intros He. unfold input_all. simpl. rewrite chunks_zero.
  rewrite zip_with_app_nil by (by rewrite length_chunks).
  by apply concat_chunks.
Qed.

Lemma heads_of_one lin b heads fph (x : tensor R) :
  Linear_wf lin → out_features lin = heads * fph →
  data (heads_of lin b 1 heads fph x)
  = concat (Linear_row lin <$> chunks b (in_features lin) (data x)).
Proof.
  intros Hl Ho. unfold heads_of. cbn [data]. rewrite Nat.mul_1_r, Nat.mul_1_l.
  set (L := concat (Linear_row lin <$> _)).
  assert (length L = b * (heads * fph)) as HL
    by (unfold L; by rewrite Linear_rows_length, Ho).
  rewrite (Forall_fmap_ext_1 _ Datatypes.id).
  - rewrite list_fmap_id. by apply concat_chunks.
  - eapply Forall_impl; [apply (Forall_chunks b (heads * fph)); lia|].
    intros c Hc; simpl in *. by apply by_head_one.
Qed.

Lemma probs_single c (Ss : list (list (list R))) :
  shaped3 c 1 1 Ss → probs_spec <$> Ss = replicate c [[1%R]].
Proof.
  intros [<- HS]. induction HS as [|S Ss [HS1 HS2] _ IH]; [done|].
  rewrite fmap_cons, IH. cbn [length replicate]. f_equal.
  destruct S as [|r [|]]; try done. apply Forall_cons in HS2 as [Hr _].
  destruct r as [|s [|]]; try done. unfold probs_spec. simpl.
  by rewrite softmax_row_singleton.
Qed.

Lemma wsum_one w (v : list R) : length v = w → wsum w [1%R] [v] = v.
Proof.
  intros <-. simpl. induction v as [|x v IH]; [done|].
  rewrite fmap_cons. cbn [length replicate zip_with]. rewrite IH. f_equal. lra.
Qed.

Lemma output_single c w (Vs : list (list (list R))) :
  shaped3 c 1 w Vs → zip_with (output_spec w) (replicate c [[1%R]]) Vs = Vs.
Proof.
  intros [<- HV]. induction HV as [|V Vs [HV1 HV2] _ IH]; [done|].
  cbn [length replicate zip_with]. rewrite IH. f_equal.
  destruct V as [|v [|]]; try done. apply Forall_cons in HV2 as [Hv _].
  unfold output_spec. simpl. f_equal. by apply wsum_one.
Qed.

Lemma flat3_ones c : flat3 (replicate c [[1%R]]) = replicate c 1%R.
Proof.
  unfold flat3. induction c as [|c IH]; [done|].
  cbn [replicate]. rewrite fmap_cons. cbn [concat app]. by rewrite IH.
Qed.

Lemma blend_rows (f : list R → list R) w (rows : list (list R)) :
  Forall (λ r, length r = w) rows → (∀ r, length (f r) = w) →
  zip_with (λ c x, (c + x) / 2)%R (concat (f <$> rows)) (concat rows)
  = concat ((λ r, zip_with (λ c x, (c + x) / 2)%R (f r) r) <$> rows).
Proof.
  intros Hrows Hf. rewrite <- (concat_zip_with _ w); [|by apply Forall_fmap, Forall_true|done].
  f_equal. clear Hrows. induction rows as [|r rows IH]; [done|].
  rewrite !fmap_cons. cbn [zip_with]. by rewrite IH.
Qed.

(** With no other entity the layer attends to the ego alone: the only
    weight of every head is 1, and the result blends the value
    projection of the ego, through the combine layer, with the ego. *)
Lemma EgoAttention_forward_single (self : EgoAttention) fs heads fph drop b
    (ego others : tensor R) (mask : option (tensor bool)) (w : world) :
  att_ok self fs heads fph drop →
  dropout_idle (Some drop) →
  shape ego = [b; 1; fs] → shape others = [b; 0; fs] →
  wf ego → wf others →
  (∀ m, mask = Some m → numel (shape m) = b ∧ wf m) →
  EgoAttention_forward self ego others mask w
  = Ok ((Tensor [b; fs]
           (concat ((λ r, zip_with (λ c x, (c + x) / 2)%R
                            (Linear_row (attention_combine self)
                               (Linear_row (value_all self) r)) r)
                      <$> chunks b fs (data ego))),
         Tensor [b; heads; 1; 1] (replicate (b * heads) 1%R)), w).
Proof.
  intros Hok Hidle He Ho We Wo Hm.
  assert (∀ m, mask = Some m → numel (shape m) = b * (0 + 1) ∧ wf m) as Hm0.
  { intros m Hmm. destruct (Hm m Hmm) as [Hn Wm]. split; [lia|done]. }
  rewrite (EgoAttention_forward_idle self fs heads fph drop b 0) by done.
  destruct Hok as (Hfs & Hh & Hdrop & Hfph & Hdiv & Hlin).
  apply Forall_cons in Hlin as [(Hvi & Hvo & Hvw) Hlin].
  apply Forall_cons in Hlin as [(Hki & Hko & Hkw) Hlin].
  apply Forall_cons in Hlin as [(Hqi & Hqo & Hqw) Hlin].
  apply Forall_cons in Hlin as [(Hci & Hco & Hcw) _].
  assert (length (data ego) = b * fs) as Hle
    by (unfold wf in We; rewrite We, He; simpl; lia).
  change (0 + 1) with 1.
  set (c := numel [b; heads]).
  assert (c = b * heads) as Hc by (unfold c; simpl; lia).
  set (Q := heads_of (query_ego self) b 1 heads fph ego).
  set (K := heads_of (key_all self) b 1 heads fph (input_all b 0 fs ego others)).
  set (V := heads_of (value_all self) b 1 heads fph (input_all b 0 fs ego others)).
  assert (∀ lin x, Linear_wf lin → out_features lin = fs →
            c * (1 * fph) ≤ length (data (heads_of lin b 1 heads fph x))) as Hlen.
  { intros lin x Hl Hout.
    pose proof (wf_heads_of lin b 1 heads fph x Hl) as Wh.
    unfold wf in Wh. rewrite Wh by lia. simpl. unfold c. simpl. lia. }
  rewrite (probs_single c).
  2:{ apply shaped3_heads_scores.
      - apply shaped3_mats. by apply Hlen.
      - apply shaped3_mats. by apply Hlen.
      - intros ms Hms. destruct mask as [m|]; [|done]. simpl in Hms.
        injection Hms as <-. apply shaped3_mats.
        pose proof (wf_head_mask b 1 heads m) as Wh. unfold wf in Wh.
        destruct (Hm m eq_refl) as [Hn Wm].
        assert (length (data m) = b * 1) as Hlm by (rewrite Wm; lia).
        specialize (Wh Hlm). unfold head_mask in Wh. cbn [data shape] in Wh.
        rewrite Wh. unfold c. simpl. lia. }
  rewrite output_single by (apply shaped3_mats; by apply Hlen).
  rewrite flat3_mats.
  2:{ pose proof (wf_heads_of (value_all self) b 1 heads fph
                    (input_all b 0 fs ego others) Hvw) as Wh.
      unfold wf in Wh. fold V in Wh. rewrite Wh by lia. simpl. unfold c. simpl. lia. }
  unfold V. rewrite heads_of_one, input_all_alone, Hvi by (done || lia).
  rewrite flat3_ones, Hc.
  assert (chunks b fs (concat (Linear_row (value_all self) <$> chunks b fs (data ego)))
          = Linear_row (value_all self) <$> chunks b fs (data ego)) as ->.
  { pose proof (chunks_concat fs (Linear_row (value_all self) <$> chunks b fs (data ego)))
      as Hcc.
    rewrite length_fmap, length_chunks in Hcc. apply Hcc.
    rewrite <- Hvo. by apply Forall_Linear_rows. }
  rewrite <- list_fmap_compose.
  pose proof (blend_rows (Linear_row (attention_combine self) ∘ Linear_row (value_all self))
                fs (chunks b fs (data ego))) as Hbl.
  rewrite concat_chunks in Hbl by done. rewrite Hbl; [done| |].
  - apply Forall_chunks. lia.
  - intros r. simpl. rewrite <- Hco. by apply length_Linear_row.
Qed.

(** ** Rows that are masked throughout *)

Lemma chunks_head_mask b N heads (d : list bool) :
  length d = b * N →
  chunks (b * heads) N (concat ((λ ch, concat (replicate heads ch)) <$> chunks b N d))
  = concat (replicate heads <$> chunks b N d).
Proof.
  intros Hd.
  assert (Forall (λ r, length r = N) (chunks b N d)) as Hrows
    by (apply Forall_chunks; lia).
  set (rows := chunks b N d) in *.
  assert (length rows = b) as Hb by apply length_chunks.
  replace ((λ ch : list bool, concat (replicate heads ch)) <$> rows)
    with (@concat bool <$> (replicate heads <$> rows))
    by (by rewrite <- list_fmap_compose).
  rewrite <- concat_concat.
  replace (b * heads) with (length (concat (replicate heads <$> rows))).
  - apply chunks_concat. apply Forall_concat, Forall_fmap.
    eapply Forall_impl; [exact Hrows|]. intros r Hr; simpl in *.
    by apply Forall_replicate.
  - rewrite (length_concat_uniform heads).
    + by rewrite length_fmap, Hb.
    + apply Forall_fmap, Forall_true. intros r. simpl. apply length_replicate.
Qed.

Lemma lookup_concat_replicate {A} heads (rows : list (list A)) i hd r :
  rows !! i = Some r → hd < heads →
  concat (replicate heads <$> rows) !! (i * heads + hd) = Some r.
Proof.
  revert rows; induction i as [|i IH]; intros [|r0 rows] Hi Hhd; simpl in *; try done.
  - injection Hi as ->. rewrite lookup_app_l by (by rewrite length_replicate).
    by apply lookup_replicate_2.
  - rewrite lookup_app_r by (rewrite length_replicate; lia).
    rewrite length_replicate.
    replace (heads + i * heads + hd - heads) with (i * heads + hd) by lia.
    by apply IH.
Qed.

Lemma length_score_rows d c nq nk (query key : tensor R) :
  c * (nq * d) ≤ length (data query) → c * (nk * d) ≤ length (data key) →
  length (score_rows d c nq nk query key) = c * nq.
Proof.
  intros Hq Hk. unfold score_rows.
  pose proof (shaped3_scores c nq nk d _ _ (shaped3_mats c nq d (data query) Hq)
                (shaped3_mats c nk d (data key) Hk)) as [Hc HS].
  rewrite (length_concat_uniform nq).
  - by rewrite Hc.
  - eapply Forall_impl; [exact HS|]. by intros S [? _].
Qed.

(** The weights of the layer when all the entities of a batch element
    are masked: every head takes the softmax of a row of sentinels. *)
Lemma EgoAttention_forward_masked (self : EgoAttention) fs heads fph drop b n
    (ego others : tensor R) (m : tensor bool) (w : world) :
  att_ok self fs heads fph drop →
  dropout_idle (Some drop) →
  shape ego = [b; 1; fs] → shape others = [b; n; fs] →
  wf ego → wf others →
  numel (shape m) = b * (n + 1) → wf m →
  ∃ res att,
    EgoAttention_forward self ego others (Some m) w = Ok ((res, att), w)
    ∧ shape res = [b; fs] ∧ wf res
    ∧ shape att = [b; heads; 1; n + 1]
    ∧ ∀ i mrow,
        chunks b (n + 1) (data m) !! i = Some mrow →
        Forall (λ k, k = true) mrow →
        ∀ hd, hd < heads →
          torch.rows att !! (i * heads + hd)
          = Some (torch.softmax_row (replicate (n + 1) (-1e9)%R)).
Proof.
  intros Hok Hidle He Ho We Wo Hn Wm.
  assert (∀ m0, Some m = Some m0 → numel (shape m0) = b * (n + 1) ∧ wf m0) as Hm
    by (by intros ? [= <-]).
  destruct (EgoAttention_forward_blend self fs heads fph drop b n ego others (Some m) w)
    as (attended & att & w' & Hatt & Hsa & Hsp & _ & Hfw); try done.
  destruct Hok as (Hfs & Hh & Hdrop & Hfph & Hdiv & Hlin).
  apply Forall_cons in Hlin as [(Hvi & Hvo & Hvw) Hlin].
  apply Forall_cons in Hlin as [(Hki & Hko & Hkw) Hlin].
  apply Forall_cons in Hlin as [(Hqi & Hqo & Hqw) Hlin].
  apply Forall_cons in Hlin as [(Hci & Hco & Hcw) _].
  set (Q := heads_of (query_ego self) b 1 heads fph ego) in *.
  set (K := heads_of (key_all self) b (n + 1) heads fph (input_all b n fs ego others)) in *.
  set (V := heads_of (value_all self) b (n + 1) heads fph (input_all b n fs ego others)) in *.
  assert (wf Q) as WQ by (apply wf_heads_of; [done|lia]).
  assert (wf K) as WK by (apply wf_heads_of; [done|lia]).
  assert (wf V) as WV by (apply wf_heads_of; [done|lia]).
  assert (length (data m) = b * (n + 1)) as Hlm by (by rewrite Wm).
  assert (wf (head_mask b (n + 1) heads m)) as WM by (by apply wf_head_mask).
  destruct (attention_rows [b; heads] 1 (n + 1) fph fph Q K V
              (head_mask b (n + 1) heads m) (data (head_mask b (n + 1) heads m))
              (Some drop) w) as (out & pr & Hatt' & _ & Hrows); try done.
  { simpl. change [b; heads; 1; n + 1] with (shape (head_mask b (n + 1) heads m)).
    by rewrite expand_to_same. }
  simpl in Hatt. rewrite Hatt' in Hatt. injection Hatt as <- <- <-.
  eexists _, _. split; [exact Hfw|]. split; [done|]. split.
  { unfold wf. simpl. rewrite length_zip_with, Linear_rows_length, Hco by done.
    unfold wf in We. rewrite We, He. simpl. lia. }
  split; [done|].
  intros i mrow Hi Hall hd Hhd.
  rewrite Hrows, list_lookup_fmap, lookup_zip_with.
  assert (numel [b; heads] * 1 = b * heads) as Hc by (simpl; lia).
  rewrite Hc. unfold head_mask. cbn [data].
  rewrite chunks_head_mask by done.
  rewrite (lookup_concat_replicate heads _ i hd mrow Hi Hhd).
  assert (i < b) as Hib.
  { apply lookup_lt_Some in Hi. by rewrite length_chunks in Hi. }
  destruct (lookup_lt_is_Some_2 (score_rows fph (numel [b; heads]) 1 (n + 1) Q K)
              (i * heads + hd)) as [srow Hs].
  { rewrite length_score_rows.
    - simpl. nia.
    - unfold wf in WQ. rewrite WQ. simpl. lia.
    - unfold wf in WK. rewrite WK. simpl. lia. }
  rewrite Hs. simpl. f_equal.
  assert (length mrow = n + 1) as Hlr.
  { assert (Forall (λ r, length r = n + 1) (chunks b (n + 1) (data m))) as HF
      by (apply Forall_chunks; lia).
    by apply (proj1 (Forall_lookup _ _) HF i). }
  by rewrite fill_row_all_masked, Hlr;
    [|by rewrite (score_rows_length _ _ _ _ _ _ _ _ Hs)|done].
Qed.

(** ** The network around the layer *)

(** The embeddings of a well-formed network succeed on the two parts of
    the input, and whenever the layer returns in the same world the
    output block and both entry points of the network return too. *)
Lemma EgoAttentionNetwork_pipeline fuel (self : EgoAttentionNetwork) (w : world)
    F fs heads fph out idx drop b N (x : tensor R) :
  net_ok self (heap w) F fs heads fph out idx drop →
  shape x = [b; N; F] → wf x → 1 ≤ N →
  ∃ e o,
    call (S fuel) (ego_embedding self) (ego_of b N F x) w = Ok (e, w)
    ∧ call (S fuel) (others_embedding self) (others_of b N F x) w = Ok (o, w)
    ∧ shape e = [b; 1; fs] ∧ wf e ∧ shape o = [b; N - 1; fs] ∧ wf o
    ∧ ∀ res att,
        EgoAttention_forward (attention_layer self) e o
          (Some (presence_of b N F idx x)) w = Ok ((res, att), w) →
        shape res = [b; fs] → wf res →
        ∃ y, call (S fuel) (output_layer self) res w = Ok (y, w)
             ∧ shape y = [b; out]
             ∧ EgoAttentionNetwork_forward (call (S fuel)) self x w = Ok (y, w)
             ∧ get_attention_matrix (call (S fuel)) self x w = Ok (att, w).
Proof.
  intros ((me & Hme & Oke) & (mo & Hmo & Oko) & (mout & Hmout & Okout) & _ & Hidx & Hlt)
    Hx Wx HN.
  destruct (MultiLayerPerceptron_forward_rows me F fs [b; 1] (ego_of b N F x) Oke)
    as [Hfe We]; [done|by apply wf_ego_of|].
  destruct (MultiLayerPerceptron_forward_rows mo F fs [b; N - 1] (others_of b N F x) Oko)
    as [Hfo Wo]; [done|by apply wf_others_of|].
  eexists _, _.
  split; [by rewrite (call_mlp _ _ me), Hfe|].
  split; [by rewrite (call_mlp _ _ mo), Hfo|].
  do 4 (split; [done|]).
  intros res att Hatt Hres Wres.
  destruct (MultiLayerPerceptron_forward_rows mout fs out [b] res Okout)
    as [Hfy Wy]; [done|done|].
  eexists. split; [by rewrite (call_mlp _ _ mout), Hfy|]. split; [done|].
  unfold EgoAttentionNetwork_forward, get_attention_matrix.
  rewrite !(M_bind_lift _ _ _ _ (split_input_ok self b N F idx x Hx HN Hidx Hlt)).
  rewrite !(M_bind_ok _ _ w w _ (eq_trans (call_mlp fuel _ me _ w Hme)
                                   (f_equal (λ r, lift r w) Hfe))).
  rewrite !(M_bind_ok _ _ w w _ (eq_trans (call_mlp fuel _ mo _ w Hmo)
                                   (f_equal (λ r, lift r w) Hfo))).
  rewrite !(M_bind_ok _ _ w w _ Hatt).
  split; [|done].
  by rewrite (call_mlp _ _ mout), Hfy.
Qed.

Lemma unit_mlp_ok : mlp_ok (unit_mlp (PyBool false)) 1 1.
Proof.
  split; [by exists (PyBool false)|]. exists 1. split; [|reflexivity].
  split; [reflexivity|]. split; [apply unit_linear_wf|reflexivity].
Qed.

Lemma ex_net_ok :
  net_ok ex_net (heap net_world) 1 1 1 1 1 0 {| p := 0%R; training := true |}.
Proof.
  split; [exists (unit_mlp (PyBool false)); split; [reflexivity|apply unit_mlp_ok]|].
  split; [exists (unit_mlp (PyBool false)); split; [reflexivity|apply unit_mlp_ok]|].
  split; [exists (unit_mlp (PyBool false)); split; [reflexivity|apply unit_mlp_ok]|].
  split; [apply ex_att_ok|]. split; [reflexivity|lia].
Qed.

(** C7. On an input of exactly one entity (the ego alone, [others] of
    zero width) the two embeddings return, the attention layer returns
    for any mask, with the weight 1 on the ego for every head and with the
    blend [(combine (value ego) + ego) / 2] of the value projection of the
    ego's own embedding with that embedding as its result, and both
    [forward] and [get_attention_matrix] of the network return.  The
    dropout is idle, as with the default factor 0. *)
Theorem EgoAttentionNetwork_forward_single fuel (self : EgoAttentionNetwork) (w : world)
    F fs heads fph out idx drop b (x : tensor R) :
  net_ok self (heap w) F fs heads fph out idx drop →
  dropout_idle (Some drop) →
  shape x = [b; 1; F] → wf x →
  let ones := Tensor [b; heads; 1; 1] (replicate (b * heads) 1%R) in
  ∃ e o y,
    call (S fuel) (ego_embedding self) (ego_of b 1 F x) w = Ok (e, w)
    ∧ call (S fuel) (others_embedding self) (others_of b 1 F x) w = Ok (o, w)
    ∧ shape e = [b; 1; fs] ∧ shape o = [b; 0; fs]
    ∧ (∀ mask : option (tensor bool),
         (∀ m, mask = Some m → numel (shape m) = b ∧ wf m) →
         EgoAttention_forward (attention_layer self) e o mask w
         = Ok ((Tensor [b; fs]
                  (concat ((λ r, zip_with (λ c v, (c + v) / 2)%R
                                   (Linear_row (attention_combine (attention_layer self))
                                      (Linear_row (value_all (attention_layer self)) r)) r)
                             <$> chunks b fs (data e))),
                ones), w))
    ∧ EgoAttentionNetwork_forward (call (S fuel)) self x w = Ok (y, w)
    ∧ shape y = [b; out]
    ∧ get_attention_matrix (call (S fuel)) self x w = Ok (ones, w).
Proof.
  intros Hok Hidle Hx Wx ones.
  destruct (EgoAttentionNetwork_pipeline fuel self w F fs heads fph out idx drop b 1 x)
    as (e & o & He & Ho & Hse & We & Hso & Wo & Hrest); [done..|lia|].
  pose proof Hok as (_ & _ & _ & Hatt & _ & Hlt).
  pose proof (EgoAttention_forward_single (attention_layer self) fs heads fph drop b e o)
    as Hsingle.
  destruct (Hrest _ ones
              (Hsingle (Some (presence_of b 1 F idx x)) w Hatt Hidle Hse Hso We Wo
                 ltac:(intros m [= <-]; split;
                         [simpl; lia | by apply wf_presence_of])))
    as (y & Hy & Hsy & Hfw & Hget).
  - done.
  - pose proof Hatt as (_ & _ & _ & _ & _ & Hlin).
    apply Forall_cons in Hlin as [(Hvi & Hvo & Hvw) Hlin].
    apply Forall_cons in Hlin as [_ Hlin].
    apply Forall_cons in Hlin as [_ Hlin].
    apply Forall_cons in Hlin as [(Hci & Hco & Hcw) _].
    unfold wf. simpl. rewrite (length_concat_uniform fs).
    + rewrite length_fmap, length_chunks. lia.
    + apply Forall_fmap. unfold wf in We. rewrite Hse in We. simpl in We.
      eapply Forall_impl; [apply (Forall_chunks b fs); lia|].
      intros r Hr; simpl in *.
      rewrite length_zip_with, !length_Linear_row, Hco by done. lia.
  - exists e, o, y. do 4 (split; [done|]).
    split; [|done].
    intros mask Hm. by apply Hsingle.
Qed.

Lemma EgoAttentionNetwork_forward_single_witness :
  ∃ e o y,
    call 1 0 (ego_of 1 1 1 ex_alone) net_world = Ok (e, net_world)
    ∧ call 1 0 (others_of 1 1 1 ex_alone) net_world = Ok (o, net_world)
    ∧ shape e = [1; 1; 1] ∧ shape o = [1; 0; 1]
    ∧ (∀ mask : option (tensor bool),
         (∀ m, mask = Some m → numel (shape m) = 1 ∧ wf m) →
         EgoAttention_forward (ex_att (PyInt 0)) e o mask net_world
         = Ok ((Tensor [1; 1]
                  (concat ((λ r, zip_with (λ c v, (c + v) / 2)%R
                                   (Linear_row (unit_linear false)
                                      (Linear_row (unit_linear false) r)) r)
                             <$> chunks 1 1 (data e))),
                Tensor [1; 1; 1; 1] [1%R]), net_world))
    ∧ EgoAttentionNetwork_forward (call 1) ex_net ex_alone net_world = Ok (y, net_world)
    ∧ shape y = [1; 1]
    ∧ get_attention_matrix (call 1) ex_net ex_alone net_world
      = Ok (Tensor [1; 1; 1; 1] [1%R], net_world).
Proof.
  apply (EgoAttentionNetwork_forward_single 0 ex_net net_world 1 1 1 1 1 0
           {| p := 0%R; training := true |} 1 ex_alone);
    [apply ex_net_ok | left; reflexivity | reflexivity | reflexivity].
Defined.

(** ** The presence mask *)

Lemma lookup_chunks {A} k w (l : list A) i :
  i < k → chunks k w l !! i = Some (take w (drop (i * w) l)).
Proof.
  revert l i; induction k as [|k IH]; intros l [|i] Hi; simpl; try lia.
  - done.
  - rewrite IH by lia. by rewrite drop_drop.
Qed.

Lemma lookup_concat_singletons {A} (rows : list (list A)) k :
  Forall (λ r, length r = 1) rows →
  concat rows !! k = rows !! k ≫= (λ r, r !! 0).
Proof.
  intros Hrows; revert k; induction Hrows as [|r rows Hr _ IH]; intros k; [done|].
  destruct r as [|a [|? ?]]; try done. destruct k as [|k]; simpl; [done|apply IH].
Qed.

Lemma presence_of_lookup b N F idx (x : tensor R) k :
  shape x = [b; N; F] → wf x → idx < F → k < b * N →
  data (presence_of b N F idx x) !! k
  = (λ s, if Rlt_dec s 0.5 then true else false) <$> data x !! (k * F + idx).
Proof.
  intros Hx Wx Hi Hk. unfold wf in Wx. rewrite Hx in Wx. simpl in Wx.
  unfold presence_of. cbn [data]. rewrite list_lookup_fmap. f_equal.
  rewrite lookup_concat_singletons.
  - rewrite list_lookup_fmap, lookup_chunks by done. simpl.
    rewrite lookup_take_lt by lia. rewrite lookup_drop, Nat.add_0_r.
    rewrite lookup_take_lt by lia. by rewrite lookup_drop.
  - apply Forall_fmap. eapply Forall_impl; [apply (Forall_chunks (b * N) F); lia|].
    intros c Hc; simpl in *. rewrite length_take, length_drop. lia.
Qed.

Lemma presence_row_masked b N F idx (x : tensor R) i :
  shape x = [b; N; F] → wf x → idx < F → i < b →
  (∀ j, j < N → ∃ s, data x !! ((i * N + j) * F + idx) = Some s ∧ (s < 0.5)%R) →
  ∃ mrow, chunks b N (data (presence_of b N F idx x)) !! i = Some mrow
          ∧ Forall (λ k, k = true) mrow.
Proof.
  intros Hx Wx Hi Hib Hrow. eexists. split; [by apply lookup_chunks|].
  apply Forall_lookup. intros j v Hj.
  destruct (decide (j < N)) as [Hlt|Hge].
  - rewrite lookup_take_lt, lookup_drop in Hj by done.
    rewrite (presence_of_lookup b N F idx x) in Hj by (done || nia).
    destruct (Hrow j Hlt) as (s & Hs & Hlow). rewrite Hs in Hj. simpl in Hj.
    destruct (Rlt_dec s 0.5); [by injection Hj|done].
  - by rewrite lookup_take_ge in Hj by lia.
Qed.

(** C10. The mask that [split_input] builds has one bit for every entity,
    entity 0 (the ego) included: the bit of entity [k] is whether its
    presence feature is below 0.5.  The forward pass and
    [get_attention_matrix] return, and for a batch element all of whose
    entities are masked every head's row of weights is the softmax of a
    row of sentinels [-1e9], which is the uniform [1 / (n_others + 1)]. *)
Theorem EgoAttentionNetwork_forward_all_masked fuel (self : EgoAttentionNetwork)
    (w : world) F fs heads fph out idx drop b N (x : tensor R) :
  net_ok self (heap w) F fs heads fph out idx drop →
  dropout_idle (Some drop) →
  shape x = [b; N; F] → wf x → 1 ≤ N →
  let mask := presence_of b N F idx x in
  split_input self x = Ok (ego_of b N F x, others_of b N F x, mask)
  ∧ shape mask = [b; N; 1]
  ∧ (∀ k, k < b * N →
       data mask !! k
       = (λ s, if Rlt_dec s 0.5 then true else false) <$> data x !! (k * F + idx))
  ∧ ∃ y att,
      EgoAttentionNetwork_forward (call (S fuel)) self x w = Ok (y, w)
      ∧ shape y = [b; out]
      ∧ get_attention_matrix (call (S fuel)) self x w = Ok (att, w)
      ∧ shape att = [b; heads; 1; N]
      ∧ ∀ i, i < b →
          (∀ j, j < N →
             ∃ s, data x !! ((i * N + j) * F + idx) = Some s ∧ (s < 0.5)%R) →
          ∀ hd, hd < heads →
            torch.rows att !! (i * heads + hd)
            = Some (torch.softmax_row (replicate N (-1e9)%R))
            ∧ torch.softmax_row (replicate N (-1e9)%R) = replicate N (1 / INR N)%R.
Proof.
  intros Hok Hidle Hx Wx HN mask.
  pose proof Hok as (_ & _ & _ & Hatt & Hidx & Hlt).
  split; [by apply split_input_ok|]. split; [done|].
  split; [intros k Hk; by apply presence_of_lookup|].
  destruct (EgoAttentionNetwork_pipeline fuel self w F fs heads fph out idx drop b N x)
    as (e & o & He & Ho & Hse & We & Hso & Wo & Hrest); [done..|].
  destruct (EgoAttention_forward_masked (attention_layer self) fs heads fph drop b (N - 1)
              e o mask w)
    as (res & att & Hfw & Hsr & Wr & Hsa & Hrows); try done.
  { simpl. nia. }
  { by apply wf_presence_of. }
  replace (N - 1 + 1) with N in * by lia.
  destruct (Hrest res att Hfw Hsr Wr) as (y & _ & Hsy & Hnet & Hget).
  exists y, att. do 4 (split; [done|]).
  intros i Hi Hrow hd Hhd.
  destruct (presence_row_masked b N F idx x i Hx Wx Hlt Hi Hrow) as (mrow & Hm & Hall).
  split; [by apply (Hrows i mrow)|].
  apply softmax_row_const. lia.
Qed.

Lemma EgoAttentionNetwork_forward_all_masked_witness :
  let mask := presence_of 1 2 1 0 ex_absent in
  split_input ex_net ex_absent
  = Ok (ego_of 1 2 1 ex_absent, others_of 1 2 1 ex_absent, mask)
  ∧ shape mask = [1; 2; 1]
  ∧ (∀ k, k < 1 * 2 →
       data mask !! k
       = (λ s, if Rlt_dec s 0.5 then true else false) <$> data ex_absent !! (k * 1 + 0))
  ∧ ∃ y att,
      EgoAttentionNetwork_forward (call 1) ex_net ex_absent net_world = Ok (y, net_world)
      ∧ shape y = [1; 1]
      ∧ get_attention_matrix (call 1) ex_net ex_absent net_world = Ok (att, net_world)
      ∧ shape att = [1; 1; 1; 2]
      ∧ ∀ i, i < 1 →
          (∀ j, j < 2 →
             ∃ s, data ex_absent !! ((i * 2 + j) * 1 + 0) = Some s ∧ (s < 0.5)%R) →
          ∀ hd, hd < 1 →
            torch.rows att !! (i * 1 + hd)
            = Some (torch.softmax_row (replicate 2 (-1e9)%R))
            ∧ torch.softmax_row (replicate 2 (-1e9)%R) = replicate 2 (1 / INR 2)%R.
Proof.
  apply (EgoAttentionNetwork_forward_all_masked 0 ex_net net_world 1 1 1 1 1 0
           {| p := 0%R; training := true |} 1 2 ex_absent);
    [apply ex_net_ok | left; reflexivity | reflexivity | reflexivity | lia].
Defined.

(** ** The embedding block of the network *)

Lemma M_bind_inv {A B} (m : M A) (k : A → M B) (w w' : world) (b : B) :
  (m ≫= k) w = Ok (b, w') → ∃ a w1, m w = Ok (a, w1) ∧ k a w1 = Ok (b, w').
Proof.
  unfold mbind, M_bind. destruct (m w) as [[a w1]|e]; [|done]. intros H. by exists a, w1.
Qed.

Lemma M_bind_step {A B} (m : M A) (k : A → M B) (w w1 : world) (a : A) r :
  m w = Ok (a, w1) → k a w1 = r → (m ≫= k) w = r.
Proof. intros H <-. by apply M_bind_ok. Qed.

(** The constructor gives both roles the one reference that
    [model_factory] returned for the embedding block. *)
Lemma EgoAttentionNetwork_init_alias (factory : dict → M (loc * dict)) (config : dict)
    (w w' : world) (net : EgoAttentionNetwork) (cfg : dict) :
  EgoAttentionNetwork_init factory config w = Ok ((net, cfg), w') →
  others_embedding net = ego_embedding net.
Proof.
  unfold EgoAttentionNetwork_init. cbv zeta. intros H.
  repeat first
    [ apply M_bind_inv in H as (? & ? & _ & H); cbv beta in H
    | match type of H with
      | context [match ?x with pair _ _ => _ end] => is_var x; destruct x
      end ].
  unfold mret, M_ret in H. by injection H as <- _ _.
Qed.

Lemma mlp_rows_length (m : MultiLayerPerceptron) i o (rows : list (list R)) :
  mlp_ok m i o → Forall (λ r, length r = i) rows →
  Forall (λ r, length r = o) (mlp_row m <$> rows).
Proof.
  intros [_ (mid & Hls & Hout)] Hrows.
  destruct (forward_layers_rows (activation m) (layers m) [length rows] i mid rows
              Hls Hrows) as [_ Hmid]; [simpl; lia|].
  unfold mlp_row. destruct (truthy (dict_get (mlp_config m) "out")).
  - destruct Hout as (pr & Hpr & Hpi & Hpo & Hpw). rewrite Hpr.
    apply Forall_fmap, Forall_true. intros r. simpl. rewrite <- Hpo.
    by apply length_Linear_row.
  - by subst o.
Qed.

(** A dense block that does not flatten maps each row of its input by
    [mlp_row], whatever the leading dimensions. *)
Lemma call_mlp_rows fuel (l : loc) (m : MultiLayerPerceptron) (σ : world) i o lead
    (x : tensor R) :
  heap σ !! l = Some (ModMLP m) → mlp_ok m i o →
  shape x = lead ++ [i] → wf x →
  ∃ y, call (S fuel) l x σ = Ok (y, σ)
       ∧ shape y = lead ++ [o]
       ∧ chunks (numel lead) o (data y) = mlp_row m <$> chunks (numel lead) i (data x).
Proof.
  intros Hl Hok Hx Wx.
  destruct (MultiLayerPerceptron_forward_rows m i o lead x Hok Hx Wx) as [Hfw _].
  eexists. split; [by rewrite (call_mlp _ _ m), Hfw|]. split; [done|]. simpl.
  unfold wf in Wx. rewrite Hx, numel_app in Wx. simpl in Wx.
  replace (numel lead) with (length (mlp_row m <$> chunks (numel lead) i (data x))) at 1
    by (by rewrite length_fmap, length_chunks).
  apply chunks_concat, (mlp_rows_length m i o); [done|].
  apply Forall_chunks. lia.
Qed.

(** ** The constructors return *)

Lemma Linear_init_no_bias (i o : nat) (σ : gmap loc module) (d : nat → R) (n : nat) :
  Linear_init (PyInt (Z.of_nat i)) (PyInt (Z.of_nat o)) false (World σ (Rng d n))
  = Ok ({| in_features := i; out_features := o;
           weight := chunks o i (d <$> seq n (o * i)); bias := None |},
        World σ (Rng d (n + o * i))).
Proof.
  unfold Linear_init, as_size.
  destruct (Z.ltb_spec (Z.of_nat i) 0); [lia|].
  destruct (Z.ltb_spec (Z.of_nat o) 0); [lia|].
  rewrite !Nat2Z.id. reflexivity.
Qed.

Lemma EgoAttention_init_returns (config : dict) (fs : nat) (hd : Z)
    (σ : gmap loc module) (d : nat → R) (n : nat) :
  let resolved := Configurable_init EgoAttention_default_config config in
  let lin k := {| in_features := fs; out_features := fs;
                  weight := chunks fs fs (d <$> seq (n + k * (fs * fs)) (fs * fs));
                  bias := None |} in
  resolved !! "feature_size" = Some (PyInt (Z.of_nat fs)) →
  resolved !! "heads" = Some (PyInt hd) →
  hd ≠ 0%Z →
  EgoAttention_init config (World σ (Rng d n))
  = Ok (({| att_config := resolved;
            features_per_head := py_int (IZR (Z.of_nat fs) / IZR hd);
            value_all := lin 0; key_all := lin 1; query_ego := lin 2;
            attention_combine := lin 3; att_training := true |}, resolved),
        World σ (Rng d (n + 4 * (fs * fs)))).
Proof.
  intros resolved lin Hfs Hhd Hnz. unfold EgoAttention_init, getitem.
  fold resolved. rewrite Hfs, Hhd.
  assert (py_truediv (PyInt (Z.of_nat fs)) (PyInt hd)
          = Ok (IZR (Z.of_nat fs) / IZR hd)%R) as Hdiv.
  { unfold py_truediv. simpl.
    destruct (Req_dec_T (IZR hd) 0) as [Hz|_]; [by apply eq_IZR in Hz|done]. }
  rewrite (M_bind_lift _ _ _ (PyInt (Z.of_nat fs))) by done.
  rewrite (M_bind_lift _ _ _ (PyInt hd)) by done.
  rewrite (M_bind_lift _ _ _ _ Hdiv).
  do 4 (eapply M_bind_step; [apply Linear_init_no_bias|]).
  unfold mret, M_ret, lin.
  replace (n + 0 * (fs * fs)) with n by lia.
  replace (n + 1 * (fs * fs)) with (n + fs * fs) by lia.
  replace (n + 2 * (fs * fs)) with (n + fs * fs + fs * fs) by lia.
  replace (n + 3 * (fs * fs)) with (n + fs * fs + fs * fs + fs * fs) by lia.
  replace (n + 4 * (fs * fs)) with (n + fs * fs + fs * fs + fs * fs + fs * fs) by lia.
  reflexivity.
Qed.

(** A block without layers and without [out] draws nothing. *)
Lemma MultiLayerPerceptron_init_no_layers (config : dict) (w : world)
    (act : activation_fn) (v : pyval) :
  let cfg := Configurable_init MultiLayerPerceptron_default_config config in
  cfg !! "in" = Some v →
  (getitem cfg "activation" ≫= activation_factory) = Ok act →
  cfg !! "layers" = Some (PyList []) →
  truthy (dict_get cfg "out") = false →
  MultiLayerPerceptron_init config w
  = Ok (({| mlp_config := cfg; activation := act; layers := []; predict := None |},
         cfg), w).
Proof.
  intros cfg Hin Hact Hl Hout. unfold MultiLayerPerceptron_init. fold cfg.
  assert (getitem cfg "in" = Ok v) as Hin' by (unfold getitem; by rewrite Hin).
  rewrite (M_bind_lift _ _ _ _ Hin').
  assert (getitem cfg "layers" ≫= as_list = Ok []) as Hl'
    by (unfold getitem; by rewrite Hl).
  rewrite (M_bind_lift _ _ _ _ Hl'). cbv zeta.
  rewrite (M_bind_lift _ _ _ _ Hact). rewrite Hout. simpl. by destruct w.
Qed.

Lemma model_factory_mlp fuel (config c : dict) (w w1 : world) (m : MultiLayerPerceptron) :
  config !! "type" = Some (PyStr "MultiLayerPerceptron") →
  MultiLayerPerceptron_init config w = Ok ((m, c), w1) →
  model_factory (S fuel) config w
  = Ok ((fresh (dom (heap w1)), c),
        World (<[fresh (dom (heap w1)) := ModMLP m]> (heap w1)) (gen w1)).
Proof.
  intros Hty Hinit. simpl. unfold getitem. rewrite Hty.
  rewrite (M_bind_lift _ _ _ (PyStr "MultiLayerPerceptron")) by done.
  change (py_eq_str (PyStr "MultiLayerPerceptron") "MultiLayerPerceptron") with true.
  cbv iota. by rewrite (M_bind_ok _ _ _ _ _ Hinit).
Qed.

Lemma EgoAttentionNetwork_init_returns (factory : dict → M (loc * dict)) (config : dict)
    (w w1 w2 w3 : world) (emb att outl emb' att' outl' : dict) (v fs out : pyval)
    (l1 l2 : loc) (a : EgoAttention) :
  let resolved := Configurable_init EgoAttentionNetwork_default_config config in
  let cfg := <["output_layer" := PyDict outl']>
               (<["attention_layer" := PyDict att']>
                  (<["embedding_layer" := PyDict emb']> resolved)) in
  resolved !! "embedding_layer" = Some (PyDict emb) →
  emb !! "in" = Some v → truthy v = true →
  resolved !! "attention_layer" = Some (PyDict att) →
  att !! "feature_size" = Some fs →
  resolved !! "output_layer" = Some (PyDict outl) →
  resolved !! "out" = Some out →
  factory emb w = Ok ((l1, emb'), w1) →
  EgoAttention_init att w1 = Ok ((a, att'), w2) →
  factory (<["out" := out]> (<["in" := fs]> outl)) w2 = Ok ((l2, outl'), w3) →
  EgoAttentionNetwork_init factory config w
  = Ok (({| net_config := cfg; ego_embedding := l1; others_embedding := l1;
            attention_layer := a; output_layer := l2 |}, cfg), w3).
Proof.
  intros resolved cfg Hemb Hin Hv Hatt Hfs Houtl Hout Hf1 Ha Hf2.
  unfold EgoAttentionNetwork_init, getitem. fold resolved.
  rewrite Hemb, Hatt, Houtl, Hout.
  rewrite (M_bind_lift _ _ _ emb) by done.
  rewrite Hin. rewrite (M_bind_lift _ _ _ v) by done.
  rewrite Hv. cbn [negb].
  eapply M_bind_step; [reflexivity|].
  rewrite (M_bind_lift _ _ _ att) by done.
  rewrite Hfs. rewrite (M_bind_lift _ _ _ fs) by done.
  rewrite (M_bind_lift _ _ _ outl) by done.
  rewrite (M_bind_lift _ _ _ out) by done. cbv zeta.
  eapply M_bind_step; [exact Hf1|]. cbv beta iota.
  eapply M_bind_step; [exact Ha|]. cbv beta iota.
  eapply M_bind_step; [exact Hf2|]. reflexivity.
Qed.

Lemma ex_net_init_ok :
  ∃ net cfg w',
    EgoAttentionNetwork_init (model_factory 1) ex_net_config world0 = Ok ((net, cfg), w').
Proof.
  do 3 eexists.
  eapply (EgoAttentionNetwork_init_returns _ _ _ _ _ _ _ _ _ _ _ _ (PyInt 1)
            (PyInt 1) PyNone).
  - reflexivity.
  - reflexivity.
  - reflexivity.
  - reflexivity.
  - reflexivity.
  - reflexivity.
  - reflexivity.
  - eapply model_factory_mlp; [reflexivity|].
    eapply (MultiLayerPerceptron_init_no_layers _ _ F_relu (PyInt 1)); reflexivity.
  - apply (EgoAttention_init_returns _ 1 1); [reflexivity|reflexivity|done].
  - eapply model_factory_mlp; [reflexivity|].
    eapply (MultiLayerPerceptron_init_no_layers _ _ F_relu (PyInt 1)); reflexivity.
Qed.

(** C8. The network that the constructor returns holds one embedding
    block under both roles: the two references are equal, so a call
    through either role is the same call on every heap, a block stored
    under one role is the block found under the other, and when the
    block is a dense block that does not flatten, a feature vector [r]
    that is a row of the ego part and also a row of the others part is
    mapped to the same embedding [mlp_row m r] in both outputs. *)
Theorem EgoAttentionNetwork_init_shared (factory : dict → M (loc * dict))
    (config : dict) (w w' : world) (net : EgoAttentionNetwork) (cfg : dict) :
  EgoAttentionNetwork_init factory config w = Ok ((net, cfg), w') →
  others_embedding net = ego_embedding net
  ∧ (∀ fuel x σ,
       call fuel (others_embedding net) x σ = call fuel (ego_embedding net) x σ)
  ∧ (∀ (σ : gmap loc module) m',
       <[ego_embedding net := m']> σ !! others_embedding net = Some m'
       ∧ <[others_embedding net := m']> σ !! ego_embedding net = Some m')
  ∧ ∀ fuel σ m F fs b n (ego others : tensor R),
      heap σ !! ego_embedding net = Some (ModMLP m) → mlp_ok m F fs →
      shape ego = [b; 1; F] → wf ego →
      shape others = [b; n; F] → wf others →
      ∃ e o,
        call (S fuel) (ego_embedding net) ego σ = Ok (e, σ)
        ∧ call (S fuel) (others_embedding net) others σ = Ok (o, σ)
        ∧ shape e = [b; 1; fs] ∧ shape o = [b; n; fs]
        ∧ ∀ i j r,
            chunks (numel [b; 1]) F (data ego) !! i = Some r →
            chunks (numel [b; n]) F (data others) !! j = Some r →
            chunks (numel [b; 1]) fs (data e) !! i = Some (mlp_row m r)
            ∧ chunks (numel [b; n]) fs (data o) !! j = Some (mlp_row m r).
Proof.
  intros Hinit. apply EgoAttentionNetwork_init_alias in Hinit as Heq.
  split; [done|]. split; [by rewrite Heq|].
  split; [intros σ m'; rewrite Heq; split; apply lookup_insert_eq|].
  intros fuel σ m F fs b n ego others Hm Hok He We Ho Wo.
  destruct (call_mlp_rows fuel (ego_embedding net) m σ F fs [b; 1] ego)
    as (e & Hce & Hse & Hre); [done..|].
  destruct (call_mlp_rows fuel (ego_embedding net) m σ F fs [b; n] others)
    as (o & Hco & Hso & Hro); [done..|].
  exists e, o. rewrite Heq. do 4 (split; [done|]).
  intros i j r Hi Hj. rewrite Hre, Hro, !list_lookup_fmap, Hi, Hj. done.
Qed.

Lemma EgoAttentionNetwork_init_shared_witness :
  ∃ net cfg w',
    EgoAttentionNetwork_init (model_factory 1) ex_net_config world0 = Ok ((net, cfg), w')
    ∧ others_embedding net = ego_embedding net
    ∧ (∀ fuel x σ,
         call fuel (others_embedding net) x σ = call fuel (ego_embedding net) x σ)
    ∧ (∀ (σ : gmap loc module) m',
         <[ego_embedding net := m']> σ !! others_embedding net = Some m'
         ∧ <[others_embedding net := m']> σ !! ego_embedding net = Some m')
    ∧ ∀ fuel σ m F fs b n (ego others : tensor R),
        heap σ !! ego_embedding net = Some (ModMLP m) → mlp_ok m F fs →
        shape ego = [b; 1; F] → wf ego →
        shape others = [b; n; F] → wf others →
        ∃ e o,
          call (S fuel) (ego_embedding net) ego σ = Ok (e, σ)
          ∧ call (S fuel) (others_embedding net) others σ = Ok (o, σ)
          ∧ shape e = [b; 1; fs] ∧ shape o = [b; n; fs]
          ∧ ∀ i j r,
              chunks (numel [b; 1]) F (data ego) !! i = Some r →
              chunks (numel [b; n]) F (data others) !! j = Some r →
              chunks (numel [b; 1]) fs (data e) !! i = Some (mlp_row m r)
              ∧ chunks (numel [b; n]) fs (data o) !! j = Some (mlp_row m r).
Proof.
  destruct ex_net_init_ok as (net & cfg & w' & Hinit).
  exists net, cfg, w'. split; [exact Hinit|].
  exact (EgoAttentionNetwork_init_shared (model_factory 1) ex_net_config world0 w'
           net cfg Hinit).
Defined.

(** * Further properties of the code *)

(** ** [attention]: the weights *)

Lemma sumR_scale (c : R) (l : list R) : sumR ((λ x, x / c)%R <$> l) = (sumR l / c)%R.
Proof.
  unfold sumR. induction l as [|x l IH]; [simpl; lra|].
  rewrite fmap_cons. cbn [foldr]. rewrite IH. lra.
Qed.

Lemma sumR_exp_pos (s : list R) : s ≠ [] → (0 < sumR (exp <$> s))%R.
Proof.
  intros Hs. destruct s as [|x s]; [done|]. clear Hs.
  revert x; induction s as [|y s IH]; intros x.
  - simpl. pose proof (exp_pos x). lra.
  - rewrite fmap_cons. cbn [sumR foldr]. pose proof (exp_pos x).
    specialize (IH y). unfold sumR in IH. lra.
Qed.

Lemma softmax_row_distribution (s : list R) :
  s ≠ [] →
  Forall (λ x, 0 < x)%R (torch.softmax_row s) ∧ sumR (torch.softmax_row s) = 1%R.
Proof.
  intros Hs. pose proof (sumR_exp_pos s Hs) as Hz. unfold torch.softmax_row. split.
  - apply Forall_fmap, Forall_true. intros x. simpl.
    apply Rdiv_lt_0_compat; [apply exp_pos|done].
  - assert (∀ z, (λ x, exp x / z)%R <$> s = (λ y, y / z)%R <$> (exp <$> s)) as ->
      by (intros z; by rewrite <- list_fmap_compose).
    rewrite sumR_scale. field. lra.
Qed.

Lemma rows_probs lead nq nk (Ps : list (list (list R))) :
  shaped3 (numel lead) nq nk Ps →
  torch.rows (Tensor (lead ++ [nq; nk]) (flat3 Ps)) = concat Ps.
Proof.
  intros HP. unfold torch.rows. cbn [shape data]. rewrite split_last_snoc2, numel_app.
  simpl. rewrite Nat.mul_1_r. by apply rows_flat3.
Qed.

(** With at least one key and no active dropout, every row of the
    weights that [attention] returns is a probability distribution over
    the keys: its entries are positive and sum to 1, masked or not. *)
Theorem attention_weights_distribution lead nq nk d dv (query key value : tensor R)
    (mask : option (tensor bool)) (bits : option (list bool))
    (dropout : option Dropout) (w : world) :
  shape query = lead ++ [nq; d] →
  shape key = lead ++ [nk; d] →
  shape value = lead ++ [nk; dv] →
  wf query → wf key → wf value →
  (∀ m, mask = Some m → wf m) →
  mask_bits (lead ++ [nq; nk]) mask = Some bits →
  dropout_idle dropout →
  0 < nk →
  ∃ out pr,
    attention query key value mask dropout w = Ok ((out, pr), w)
    ∧ length (torch.rows pr) = numel lead * nq
    ∧ Forall (λ r, length r = nk ∧ Forall (λ x, 0 < x)%R r ∧ sumR r = 1%R)
        (torch.rows pr).
Proof.
  intros Hq Hk Hv Wq Wk Wv Wm Hbits Hidle Hnk.
  destruct (attention_softmax lead nq nk d query key value mask bits dropout w
              Hq Hk Wq Wk Wm Hbits) as [HP _].
  eexists _, _. split; [by eapply attention_heads|].
  rewrite (rows_probs lead nq nk) by done.
  split.
  - destruct HP as [Hc HF]. rewrite (length_concat_uniform nq); [by rewrite Hc|].
    eapply Forall_impl; [exact HF|]. by intros P [? _].
  - apply Forall_concat. destruct HP as [_ HF]. apply Forall_fmap.
    assert (shaped3 (numel lead) nq nk
              (heads_scores d (mats (numel lead) nq d (data query))
                 (mats (numel lead) nk d (data key))
                 (mats (numel lead) nq nk <$> bits))) as [_ HS].
    { apply shaped3_heads_scores.
      - apply shaped3_mats. unfold wf in Wq. rewrite Wq, Hq, numel_app. simpl. lia.
      - apply shaped3_mats. unfold wf in Wk. rewrite Wk, Hk, numel_app. simpl. lia.
      - intros ms Hms. destruct bits as [bs|]; [|done]. injection Hms as <-.
        apply shaped3_mats. rewrite (mask_bits_length _ mask bs) by done.
        rewrite numel_app. simpl. lia. }
    eapply Forall_impl; [exact HS|]. intros S [_ HSm]. simpl.
    unfold probs_spec. apply Forall_fmap. eapply Forall_impl; [exact HSm|].
    intros s Hs. simpl. split; [unfold torch.softmax_row; by rewrite length_fmap|].
    apply softmax_row_distribution. destruct s; [simpl in Hs; lia|done].
Qed.

Lemma attention_weights_distribution_witness :
  ∃ out pr,
    attention ex_query ex_key ex_value (Some ex_mask) None world0 = Ok ((out, pr), world0)
    ∧ length (torch.rows pr) = numel [1; 1] * 1
    ∧ Forall (λ r, length r = 2 ∧ Forall (λ x, 0 < x)%R r ∧ sumR r = 1%R)
        (torch.rows pr).
Proof.
  apply (attention_weights_distribution [1; 1] 1 2 1 1 ex_query ex_key ex_value
           (Some ex_mask) (Some [false; true]) None world0);
    [reflexivity | reflexivity | reflexivity | reflexivity | reflexivity
    | reflexivity | intros m [= <-]; reflexivity | reflexivity | exact I | lia].
Defined.

(** ** [attention]: a mask that hides nothing *)

Lemma Forall_chunks_all {A} (P : A → Prop) k w (l : list A) :
  Forall P l → Forall (Forall P) (chunks k w l).
Proof.
  revert l; induction k as [|k IH]; intros l Hl; simpl; constructor.
  - by apply Forall_take.
  - by apply IH, Forall_drop.
Qed.

Lemma fill_row_none (s : list R) (mk : list bool) :
  length s = length mk → Forall (λ b, b = false) mk → fill_row s mk = s.
Proof.
  intros Hl Hmk. revert s Hl; induction Hmk as [|b mk -> _ IH]; intros [|x s] Hl;
    simpl in *; try done.
  injection Hl as Hl. unfold fill_row in *. simpl. f_equal. by apply IH.
Qed.

Lemma fill_spec_none (S : list (list R)) (Mk : list (list bool)) m :
  length S = length Mk →
  Forall (λ r, length r = m) S → Forall (λ r, length r = m) Mk →
  Forall (Forall (λ b, b = false)) Mk →
  fill_spec S Mk = S.
Proof.
  intros Hl HS; revert Mk Hl; induction HS as [|s S Hs _ IH]; intros [|mk Mk] Hl HM HF;
    simpl in *; try done.
  injection Hl as Hl. inversion HM; subst. inversion HF; subst.
  unfold fill_spec in *. simpl. rewrite fill_row_none by (done || congruence).
  f_equal. by apply IH.
Qed.

Lemma fill_specs_none nq nk (Ss : list (list (list R))) (Ms : list (list (list bool))) :
  length Ss = length Ms →
  Forall (λ x, length x = nq ∧ Forall (λ r, length r = nk) x) Ss →
  Forall (λ x, length x = nq ∧ Forall (λ r, length r = nk) x) Ms →
  Forall (Forall (Forall (λ b, b = false))) Ms →
  zip_with fill_spec Ss Ms = Ss.
Proof.
  intros Hl HS; revert Ms Hl; induction HS as [|S Ss [HSn HSm] _ IH];
    intros [|Mk Ms] Hl HM HF; simpl in *; try done.
  injection Hl as Hl. inversion HM as [|?? [HMn HMm] HM']; subst. inversion HF; subst.
  rewrite (fill_spec_none S Mk nk) by (done || congruence).
  f_equal. by apply IH.
Qed.

Lemma heads_scores_none d c nq nk Qs Ks (bits : list bool) :
  shaped3 c nq d Qs → shaped3 c nk d Ks →
  c * (nq * nk) ≤ length bits →
  Forall (λ b, b = false) bits →
  heads_scores d Qs Ks (Some (mats c nq nk bits)) = heads_scores d Qs Ks None.
Proof.
  intros HQ HK Hlen Hbits. unfold heads_scores.
  pose proof (shaped3_scores c nq nk d Qs Ks HQ HK) as [Hc HS].
  pose proof (shaped3_mats c nq nk bits Hlen) as [Hc' HM].
  apply (fill_specs_none nq nk); [congruence|done|done|].
  unfold mats. apply Forall_fmap. eapply Forall_impl;
    [apply (Forall_chunks_all (λ b, b = false) c (nq * nk)); exact Hbits|].
  intros x Hx. simpl. by apply Forall_chunks_all.
Qed.

(** A mask none of whose entries is set is no mask: the call returns
    what it returns without a mask, whatever the dropout. *)
Theorem attention_mask_all_false lead nq nk d (query key value : tensor R)
    (m : tensor bool) (bits : list bool) (dropout : option Dropout) (w : world) :
  shape query = lead ++ [nq; d] →
  shape key = lead ++ [nk; d] →
  wf query → wf key → wf m →
  mask_bits (lead ++ [nq; nk]) (Some m) = Some (Some bits) →
  Forall (λ b, b = false) bits →
  attention query key value (Some m) dropout w
  = attention query key value None dropout w.
Proof.
  intros Hq Hk Wq Wk Wm Hbits Hfalse.
  assert (∀ m0, Some m = Some m0 → wf m0) as Wm' by (by intros ? [= <-]).
  destruct (attention_softmax lead nq nk d query key value (Some m) (Some bits) dropout w
              Hq Hk Wq Wk Wm' Hbits) as [_ ->].
  destruct (attention_softmax lead nq nk d query key value None None dropout w
              Hq Hk Wq Wk) as [_ ->]; [done|done|].
  cbn [fmap option_fmap option_map].
  rewrite (heads_scores_none d (numel lead) nq nk); [done| | | |done].
  - apply shaped3_mats. unfold wf in Wq. rewrite Wq, Hq, numel_app. simpl. lia.
  - apply shaped3_mats. unfold wf in Wk. rewrite Wk, Hk, numel_app. simpl. lia.
  - rewrite (mask_bits_length _ (Some m) bits) by done. rewrite numel_app. simpl. lia.
Qed.

Lemma attention_mask_all_false_witness :
  attention ex_query ex_key ex_value (Some (Tensor [1; 1; 1; 2] [false; false])) None world0
  = attention ex_query ex_key ex_value None None world0.
Proof.
  apply (attention_mask_all_false [1; 1] 1 2 1 ex_query ex_key ex_value
           (Tensor [1; 1; 1; 2] [false; false]) [false; false] None world0);
    [reflexivity | reflexivity | reflexivity | reflexivity | reflexivity
    | reflexivity | by repeat constructor].
Defined.

(** ** [attention]: no key at all *)

Lemma Forall_eq_replicate {A} (x : A) (l : list A) :
  Forall (λ y, y = x) l → l = replicate (length l) x.
Proof. induction 1 as [|y l -> _ IH]; simpl; [done|]. by rewrite <- IH. Qed.

Lemma concat_replicate_replicate {A} n m (x : A) :
  concat (replicate n (replicate m x)) = replicate (n * m) x.
Proof.
  induction n as [|n IH]; simpl; [done|]. by rewrite IH, replicate_add.
Qed.

Lemma concat_replicate_nil {A} n : concat (replicate n (@nil A)) = [].
Proof. induction n as [|n IH]; simpl; done. Qed.

Lemma shaped3_empty_rows {A} c n (xs : list (list (list A))) :
  shaped3 c n 0 xs → xs = replicate c (replicate n []).
Proof.
  intros [Hc HF]. rewrite <- Hc. apply Forall_eq_replicate.
  eapply Forall_impl; [exact HF|]. intros x [Hn Hx]. simpl in *.
  rewrite <- Hn. apply Forall_eq_replicate.
  eapply Forall_impl; [exact Hx|]. intros r Hr. simpl in *. by destruct r.
Qed.

Lemma zip_with_replicate_const {A B C} (f : A → B → C) (a : A) (k : C) c (ys : list B) :
  (∀ y, f a y = k) → length ys = c → zip_with f (replicate c a) ys = replicate c k.
Proof.
  intros Hf. revert ys; induction c as [|c IH]; intros [|y ys] Hl; simpl in *; try done.
  injection Hl as Hl. by rewrite Hf, IH.
Qed.

(** With keys and values of zero entities the call does not fail: the
    weights are empty and every entry of the output is 0. *)
Theorem attention_no_keys lead nq d dv (query key value : tensor R)
    (mask : option (tensor bool)) (bits : option (list bool))
    (dropout : option Dropout) (w : world) :
  shape query = lead ++ [nq; d] →
  shape key = lead ++ [0; d] →
  shape value = lead ++ [0; dv] →
  wf query → wf key → wf value →
  (∀ m, mask = Some m → wf m) →
  mask_bits (lead ++ [nq; 0]) mask = Some bits →
  dropout_idle dropout →
  attention query key value mask dropout w
  = Ok ((Tensor (lead ++ [nq; dv]) (replicate (numel lead * (nq * dv)) 0%R),
         Tensor (lead ++ [nq; 0]) []), w).
Proof.
  intros Hq Hk Hv Wq Wk Wv Wm Hbits Hidle.
  destruct (attention_softmax lead nq 0 d query key value mask bits dropout w
              Hq Hk Wq Wk Wm Hbits) as [HP _].
  rewrite (attention_heads lead nq 0 d dv query key value mask bits dropout w) by done.
  apply shaped3_empty_rows in HP. rewrite HP.
  rewrite (zip_with_replicate_const _ _ (replicate nq (replicate dv 0%R))).
  - unfold flat3. rewrite !fmap_replicate.
    rewrite !concat_replicate_replicate, !concat_replicate_nil. done.
  - intros V. unfold output_spec. by rewrite fmap_replicate.
  - unfold mats. by rewrite length_fmap, length_chunks.
Qed.

Lemma attention_no_keys_witness :
  attention ex_query (Tensor [1; 1; 0; 1] []) (Tensor [1; 1; 0; 1] []) None None world0
  = Ok ((Tensor [1; 1; 1; 1] (replicate (numel [1; 1] * (1 * 1)) 0%R),
         Tensor [1; 1; 1; 0] []), world0).
Proof.
  apply (attention_no_keys [1; 1] 1 1 1 ex_query (Tensor [1; 1; 0; 1] [])
           (Tensor [1; 1; 0; 1] []) None None None world0);
    [reflexivity | reflexivity | reflexivity | reflexivity | reflexivity
    | reflexivity | done | reflexivity | exact I].
Defined.

(** ** [MultiLayerPerceptron]: what the constructor builds *)

Lemma Linear_init_returns (i o : nat) (with_bias : bool) (w : world) :
  ∃ l w',
    Linear_init (PyInt (Z.of_nat i)) (PyInt (Z.of_nat o)) with_bias w = Ok (l, w')
    ∧ heap w' = heap w
    ∧ in_features l = i ∧ out_features l = o ∧ Linear_wf l.
Proof.
  unfold Linear_init. rewrite !(M_bind_lift _ _ _ _ (as_size_of_nat _)).
  destruct with_bias; eexists _, _;
    (split; [reflexivity|]); (split; [reflexivity|]); (split; [reflexivity|]);
    (split; [reflexivity|]); (split; [apply length_chunks|]); simpl.
  - intros b [= <-]. by rewrite length_fmap, length_seq.
  - done.
Qed.

Lemma mapM_Linear_init (ns : list nat) (a k : nat) (w : world) :
  a + k < length ns →
  let sizes := (PyInt ∘ Z.of_nat) <$> ns in
  ∃ ls w',
    mapM (λ i, Linear_init (sizes !!! i) (sizes !!! (i + 1)) true) (seq a k) w
    = Ok (ls, w')
    ∧ heap w' = heap w
    ∧ length ls = k
    ∧ layers_ok ls (ns !!! a) (ns !!! (a + k)).
Proof.
  intros Hlt sizes. revert a w Hlt; induction k as [|k IH]; intros a w Hlt.
  - exists [], w. rewrite Nat.add_0_r. done.
  - cbn [seq mapM].
    assert (sizes !!! a = PyInt (Z.of_nat (ns !!! a))) as ->
      by (unfold sizes; rewrite (list_lookup_total_fmap (PyInt ∘ Z.of_nat) ns a) by lia;
          done).
    assert (sizes !!! (a + 1) = PyInt (Z.of_nat (ns !!! (a + 1)))) as ->
      by (unfold sizes;
          rewrite (list_lookup_total_fmap (PyInt ∘ Z.of_nat) ns (a + 1)) by lia; done).
    destruct (Linear_init_returns (ns !!! a) (ns !!! (a + 1)) true w)
      as (l & w1 & Hl & Hh & Hi & Ho & Hwf).
    destruct (IH (S a) w1) as (ls & w2 & Hls & Hh2 & Hlen & Hok); [lia|].
    exists (l :: ls), w2.
    split; [|split; [congruence|split; [simpl; lia|]]].
    + rewrite (M_bind_ok _ _ _ _ _ Hl), (M_bind_ok _ _ _ _ _ Hls). done.
    + simpl. rewrite Ho. replace (a + 1) with (S a) by lia.
      by replace (a + S k) with (S a + k) by lia.
Qed.

Lemma last_cons_default {A} (x : A) (l : list A) : last (x :: l) = Some (default x (last l)).
Proof.
  revert x; induction l as [|y l IH]; intros x; [done|].
  change (last (x :: y :: l)) with (last (y :: l)). by rewrite !IH.
Qed.

Lemma MultiLayerPerceptron_body_rows (m : MultiLayerPerceptron) i o lead (x : tensor R) :
  (∃ mid, layers_ok (layers m) i mid
          ∧ if truthy (dict_get (mlp_config m) "out")
            then ∃ pr, predict m = Some pr ∧ in_features pr = mid
                       ∧ out_features pr = o ∧ Linear_wf pr
            else mid = o) →
  shape x = lead ++ [i] → wf x →
  MultiLayerPerceptron_body m x
  = Ok (Tensor (lead ++ [o]) (concat (mlp_row m <$> chunks (numel lead) i (data x)))).
Proof.
  intros (mid & Hls & Hout) Hx Wx.
  unfold wf in Wx. rewrite Hx, numel_app in Wx. simpl in Wx.
  assert (Forall (λ r, length r = i) (chunks (numel lead) i (data x))) as Hrows
    by (apply Forall_chunks; lia).
  destruct (forward_layers_rows (activation m) (layers m) lead i mid
              (chunks (numel lead) i (data x)) Hls Hrows) as [Hfw Hmid];
    [apply length_chunks|].
  rewrite concat_chunks in Hfw by lia.
  assert (Tensor (lead ++ [i]) (data x) = x) as Hxx by (destruct x; simpl in *; by subst).
  rewrite Hxx in Hfw.
  unfold MultiLayerPerceptron_body. rewrite Hfw. simpl.
  unfold mlp_row. destruct (truthy (dict_get (mlp_config m) "out")).
  - destruct Hout as (pr & Hpr & Hpi & Hpo & Hpw). rewrite Hpr.
    rewrite (Linear_forward_batched pr lead) by (by rewrite Hpi). simpl.
    rewrite Hpi, Hpo.
    replace (numel lead) with
      (length (layers_row (activation m) (layers m) <$> chunks (numel lead) i (data x))) at 1
      by (by rewrite length_fmap, length_chunks).
    rewrite chunks_concat by done. by rewrite <- list_fmap_compose.
  - by subst o.
Qed.

Lemma MultiLayerPerceptron_init_chain (config : dict) (w : world) (i o : nat)
    (hs : list nat) (act : activation_fn) (vout : pyval) :
  let cfg := Configurable_init MultiLayerPerceptron_default_config config in
  let width := if truthy vout then o else default i (last hs) in
  cfg !! "in" = Some (PyInt (Z.of_nat i)) →
  cfg !! "layers" = Some (PyList ((PyInt ∘ Z.of_nat) <$> hs)) →
  (getitem cfg "activation" ≫= activation_factory) = Ok act →
  cfg !! "out" = Some vout →
  (truthy vout = true → vout = PyInt (Z.of_nat o)) →
  ∃ m w',
    MultiLayerPerceptron_init config w = Ok ((m, cfg), w')
    ∧ heap w' = heap w
    ∧ mlp_config m = cfg ∧ activation m = act
    ∧ length (layers m) = length hs
    ∧ layers_ok (layers m) i (default i (last hs))
    ∧ (predict m = None ↔ truthy vout = false)
    ∧ (∃ mid, layers_ok (layers m) i mid
              ∧ if truthy (dict_get (mlp_config m) "out")
                then ∃ pr, predict m = Some pr ∧ in_features pr = mid
                           ∧ out_features pr = width ∧ Linear_wf pr
                else mid = width)
    ∧ ∀ b (x : tensor R), 0 < b → shape x = [b; i] → wf x →
        ∃ y, MultiLayerPerceptron_forward m x = Ok y ∧ shape y = [b; width].
Proof.
  intros cfg width Hin Hl Hact Hout Hvout.
  destruct (mapM_Linear_init (i :: hs) 0 (length hs) w) as (ls & w1 & Hls & Hh1 & Hlen & Hok);
    [simpl; lia|].
  assert ((i :: hs) !!! (0 + length hs) = default i (last hs)) as Hlast.
  { apply list_lookup_total_correct.
    rewrite <- (last_cons_default i hs), last_lookup. done. }
  rewrite Hlast in Hok. change ((i :: hs) !!! 0) with i in Hok.
  assert (dict_get cfg "out" = vout) as Hget by (unfold dict_get; by rewrite Hout).
  assert (∃ pr w',
            (if truthy vout then
               lift (getitem cfg "out") ≫= λ out,
                 Some <$> Linear_init
                            (default PyNone
                               (last (PyInt (Z.of_nat i) :: ((PyInt ∘ Z.of_nat) <$> hs))))
                            out true
             else mret None) w1 = Ok (pr, w')
            ∧ heap w' = heap w1
            ∧ (pr = None ↔ truthy vout = false)
            ∧ if truthy vout
              then ∃ p0, pr = Some p0 ∧ in_features p0 = default i (last hs)
                         ∧ out_features p0 = o ∧ Linear_wf p0
              else True) as (pr & w2 & Hpr & Hh2 & Hnone & Hsome).
  { destruct (truthy vout) eqn:Ht.
    - rewrite (Hvout eq_refl) in Hout.
      destruct (Linear_init_returns (default i (last hs)) o true w1)
        as (p0 & w2 & Hp & Hh & Hpi & Hpo & Hpw).
      exists (Some p0), w2.
      split; [|split; [done|split; [done|by exists p0]]].
      unfold getitem. rewrite Hout.
      rewrite (M_bind_lift _ _ _ (PyInt (Z.of_nat o))) by done.
      change (PyInt (Z.of_nat i) :: ((PyInt ∘ Z.of_nat) <$> hs))
        with ((PyInt ∘ Z.of_nat) <$> (i :: hs)).
      rewrite fmap_last, last_cons_default. simpl.
      unfold fmap, M_fmap. by rewrite Hp.
    - by exists None, w1. }
  eexists {| mlp_config := cfg; activation := act; layers := ls; predict := pr |}, w2.
  split; [|split; [congruence|split; [done|split; [done|split; [done|split; [done|split;
            [done|split]]]]]]].
  - unfold MultiLayerPerceptron_init. fold cfg.
    assert (getitem cfg "in" = Ok (PyInt (Z.of_nat i))) as Hin'
      by (unfold getitem; by rewrite Hin).
    assert (getitem cfg "layers" ≫= as_list = Ok ((PyInt ∘ Z.of_nat) <$> hs)) as Hl'
      by (unfold getitem; by rewrite Hl).
    rewrite (M_bind_lift _ _ _ _ Hin'), (M_bind_lift _ _ _ _ Hl'). cbv zeta.
    rewrite (M_bind_lift _ _ _ _ Hact).
    assert (length (PyInt (Z.of_nat i) :: ((PyInt ∘ Z.of_nat) <$> hs)) - 1 = length hs)
      as -> by (simpl; rewrite length_fmap; lia).
    eapply M_bind_step; [exact Hls|]. rewrite Hget.
    eapply M_bind_step; [exact Hpr|]. reflexivity.
  - exists (default i (last hs)). split; [done|]. cbn [mlp_config predict].
    rewrite Hget. unfold width. by destruct (truthy vout).
  - intros b x Hb Hx Wx.
    assert (∃ mid, layers_ok ls i mid
                   ∧ if truthy (dict_get cfg "out")
                     then ∃ p0, pr = Some p0 ∧ in_features p0 = mid
                                ∧ out_features p0 = width ∧ Linear_wf p0
                     else mid = width) as Hbody.
    { exists (default i (last hs)). split; [done|]. rewrite Hget. unfold width.
      by destruct (truthy vout). }
    assert (is_Some (cfg !! "reshape")) as [v Hv].
    { unfold cfg, Configurable_init. apply lookup_union_is_Some. right. by eexists. }
    set (m := {| mlp_config := cfg; activation := act; layers := ls; predict := pr |}).
    exists (Tensor ([b] ++ [width])
              (concat (mlp_row m <$> chunks (numel [b]) i (data x)))).
    split; [|reflexivity].
    unfold MultiLayerPerceptron_forward, getitem. cbn [mlp_config m]. rewrite Hv. simpl.
    destruct (truthy v).
    + unfold reshape_batch, torch.shape_at. rewrite Hx. simpl.
      unfold torch.reshape_infer. rewrite Hx. simpl.
      rewrite decide_True
        by (split; [done|]; rewrite (Nat.mul_comm b); apply Nat.Div0.mod_mul).
      rewrite (Nat.mul_comm b), Nat.div_mul, Nat.mul_1_r by lia. simpl.
      apply (MultiLayerPerceptron_body_rows m i width [b] (Tensor [b; i] (data x)));
        [exact Hbody|done|].
      unfold wf in *. simpl. rewrite Wx, Hx. done.
    + simpl. by apply (MultiLayerPerceptron_body_rows m i width [b] x).
Qed.

(** The constructor on a configuration with sizes: it returns a block
    with one layer per entry of [layers], chained from [in] through the
    hidden sizes, and a [predict] layer to [out] exactly when [out] is
    truthy ([None] and [0] build none).  It leaves the other modules
    alone, and the block accepts every non-empty batch of [in]-vectors,
    whatever [reshape] is, and returns rows of the final width. *)
Theorem MultiLayerPerceptron_init_sizes (config : dict) (w : world) (i o : nat)
    (hs : list nat) (act : activation_fn) (vout : pyval) :
  let cfg := Configurable_init MultiLayerPerceptron_default_config config in
  let width := if truthy vout then o else default i (last hs) in
  cfg !! "in" = Some (PyInt (Z.of_nat i)) →
  cfg !! "layers" = Some (PyList ((PyInt ∘ Z.of_nat) <$> hs)) →
  (getitem cfg "activation" ≫= activation_factory) = Ok act →
  cfg !! "out" = Some vout →
  (truthy vout = true → vout = PyInt (Z.of_nat o)) →
  ∃ m w',
    MultiLayerPerceptron_init config w = Ok ((m, cfg), w')
    ∧ heap w' = heap w
    ∧ mlp_config m = cfg ∧ activation m = act
    ∧ length (layers m) = length hs
    ∧ layers_ok (layers m) i (default i (last hs))
    ∧ (predict m = None ↔ truthy vout = false)
    ∧ ∀ b (x : tensor R), 0 < b → shape x = [b; i] → wf x →
        ∃ y, MultiLayerPerceptron_forward m x = Ok y ∧ shape y = [b; width].
Proof.
  intros cfg width Hin Hl Hact Hout Hvout.
  destruct (MultiLayerPerceptron_init_chain config w i o hs act vout Hin Hl Hact Hout Hvout)
    as (m & w' & H1 & H2 & H3 & H4 & H5 & H6 & H7 & _ & H8).
  by exists m, w'.
Qed.

Lemma MultiLayerPerceptron_init_sizes_witness :
  let cfg := Configurable_init MultiLayerPerceptron_default_config ex_mlp_config in
  ∃ m w',
    MultiLayerPerceptron_init ex_mlp_config world0 = Ok ((m, cfg), w')
    ∧ heap w' = heap world0
    ∧ mlp_config m = cfg ∧ activation m = F_relu
    ∧ length (layers m) = length [3; 1]
    ∧ layers_ok (layers m) 2 (default 2 (last [3; 1]))
    ∧ (predict m = None ↔ truthy (PyInt 0) = false)
    ∧ ∀ b (x : tensor R), 0 < b → shape x = [b; 2] → wf x →
        ∃ y, MultiLayerPerceptron_forward m x = Ok y
             ∧ shape y = [b; if truthy (PyInt 0) then 0 else default 2 (last [3; 1])].
Proof.
  apply (MultiLayerPerceptron_init_sizes ex_mlp_config world0 2 0 [3; 1] F_relu (PyInt 0));
    [reflexivity | reflexivity | reflexivity | reflexivity | done].
Defined.

(** ** [MultiLayerPerceptron]: the activation *)

Lemma activation_factory_unknown (a : pyval) :
  a ≠ PyStr "RELU" → a ≠ PyStr "TANH" →
  activation_factory a = Raise (ValueError "Unknown activation_type").
Proof.
  intros H1 H2. unfold activation_factory, py_eq_str.
  destruct a as [| | | |s| |]; try done.
  destruct (String.eqb_spec s "RELU") as [->|_]; [done|].
  destruct (String.eqb_spec s "TANH") as [->|_]; done.
Qed.

(** The activation is looked up before any layer is built: when
    [layers] is a list and the activation is anything but the strings
    ["RELU"] and ["TANH"] (the names are case-sensitive), the constructor
    raises [ValueError], whatever [in] and the sizes are. *)
Theorem MultiLayerPerceptron_init_unknown_activation (config : dict) (w : world)
    (ls : list pyval) (a : pyval) :
  let cfg := Configurable_init MultiLayerPerceptron_default_config config in
  cfg !! "layers" = Some (PyList ls) →
  cfg !! "activation" = Some a →
  a ≠ PyStr "RELU" → a ≠ PyStr "TANH" →
  MultiLayerPerceptron_init config w = Raise (ValueError "Unknown activation_type").
Proof.
  intros cfg Hl Ha H1 H2.
  assert (is_Some (cfg !! "in")) as [v Hin].
  { unfold cfg, Configurable_init. apply lookup_union_is_Some. right. by eexists. }
  unfold MultiLayerPerceptron_init. fold cfg.
  assert (getitem cfg "in" = Ok v) as Hin' by (unfold getitem; by rewrite Hin).
  assert (getitem cfg "layers" ≫= as_list = Ok ls) as Hl'
    by (unfold getitem; by rewrite Hl).
  rewrite (M_bind_lift _ _ _ _ Hin'), (M_bind_lift _ _ _ _ Hl'). cbv zeta.
  unfold getitem. rewrite Ha. simpl. by rewrite activation_factory_unknown.
Qed.

Lemma MultiLayerPerceptron_init_unknown_activation_witness :
  MultiLayerPerceptron_init ex_lowercase_config world0
  = Raise (ValueError "Unknown activation_type").
Proof.
  apply (MultiLayerPerceptron_init_unknown_activation ex_lowercase_config world0
           [PyInt 64; PyInt 64] (PyStr "relu"));
    [reflexivity | reflexivity | done | done].
Defined.

Lemma forward_layers_relu_nonneg (ls : list Linear) (x y : tensor R) :
  ls ≠ [] → forward_layers F_relu ls x = Ok y → Forall (λ v, 0 <= v)%R (data y).
Proof.
  revert x; induction ls as [|l ls IH]; intros x Hne Hfw; [done|].
  simpl in Hfw. destruct (Linear_forward l x) as [z|e]; [|done]. simpl in Hfw.
  destruct ls as [|l2 ls].
  - simpl in Hfw. injection Hfw as <-. unfold torch.relu, tmap. simpl.
    apply Forall_fmap, Forall_true. intros v. simpl. apply Rmax_l.
  - by apply (IH (torch.relu z)).
Qed.

(** A block with the [RELU] activation, at least one layer and no [out]
    returns no negative entry: the activation follows the last layer
    too. *)
Theorem MultiLayerPerceptron_forward_relu_nonneg (self : MultiLayerPerceptron)
    (x y : tensor R) :
  activation self = F_relu →
  layers self ≠ [] →
  truthy (dict_get (mlp_config self) "out") = false →
  MultiLayerPerceptron_forward self x = Ok y →
  Forall (λ v, 0 <= v)%R (data y).
Proof.
  intros Hact Hls Hout Hfw. unfold MultiLayerPerceptron_forward in Hfw.
  destruct (getitem (mlp_config self) "reshape") as [v|e]; [|done]. simpl in Hfw.
  destruct (if truthy v then reshape_batch x else Ok x) as [x'|e]; [|done].
  simpl in Hfw. unfold MultiLayerPerceptron_body in Hfw. rewrite Hout, Hact in Hfw.
  destruct (forward_layers F_relu (layers self) x') as [z|e] eqn:Hz; [|done].
  simpl in Hfw. injection Hfw as <-. by eapply forward_layers_relu_nonneg.
Qed.

Lemma MultiLayerPerceptron_forward_relu_nonneg_witness :
  Forall (λ v, 0 <= v)%R (data (Tensor [2; 1] [Rmax 0 (dot [-1] [1] + 0); Rmax 0 (dot [2] [1] + 0)]%R)).
Proof.
  apply (MultiLayerPerceptron_forward_relu_nonneg (unit_mlp (PyBool false))
           (Tensor [2; 1] [(-1)%R; 2%R]));
    [reflexivity | done | reflexivity | reflexivity].
Defined.

(** ** [MultiLayerPerceptron]: the flattening *)

(** With a truthy [reshape] a batch of any rank is flattened to one row
    per batch element, and each row goes through the block; the block
    must take [prod(rest)] features.  An empty batch is refused: the
    free size of [reshape(0, -1)] cannot be inferred. *)
Theorem MultiLayerPerceptron_forward_flatten (self : MultiLayerPerceptron) (v : pyval)
    (b : nat) (rest : list nat) (x : tensor R) (o : nat) :
  mlp_config self !! "reshape" = Some v → truthy v = true →
  shape x = b :: rest → wf x →
  (∃ mid, layers_ok (layers self) (numel rest) mid
          ∧ if truthy (dict_get (mlp_config self) "out")
            then ∃ pr, predict self = Some pr ∧ in_features pr = mid
                       ∧ out_features pr = o ∧ Linear_wf pr
            else mid = o) →
  MultiLayerPerceptron_forward self x
  = if decide (b = 0) then Raise RuntimeError
    else Ok (Tensor [b; o] (concat (mlp_row self <$> chunks b (numel rest) (data x)))).
Proof.
  intros Hv Ht Hx Wx Hok.
  unfold MultiLayerPerceptron_forward, getitem. rewrite Hv. simpl. rewrite Ht.
  unfold reshape_batch, torch.shape_at. rewrite Hx. simpl.
  unfold torch.reshape_infer. rewrite Hx. simpl.
  destruct (decide (b = 0)) as [->|Hb].
  - rewrite decide_False by lia. done.
  - rewrite decide_True
      by (split; [lia|]; rewrite (Nat.mul_comm b); apply Nat.Div0.mod_mul).
    rewrite (Nat.mul_comm b), Nat.div_mul by lia. simpl.
    rewrite (MultiLayerPerceptron_body_rows self (numel rest) o [b]
               (Tensor [b; numel rest] (data x))); [|done|done|].
    + simpl. by rewrite Nat.mul_1_r.
    + unfold wf in *. simpl. rewrite Wx, Hx. simpl. lia.
Qed.

Lemma MultiLayerPerceptron_forward_flatten_witness :
  MultiLayerPerceptron_forward (unit_mlp (PyStr "True")) (Tensor [2; 1; 1] [1%R; 2%R])
  = if decide (2 = 0) then Raise RuntimeError
    else Ok (Tensor [2; 1]
               (concat (mlp_row (unit_mlp (PyStr "True"))
                          <$> chunks 2 (numel [1; 1]) [1%R; 2%R]))).
Proof.
  apply (MultiLayerPerceptron_forward_flatten (unit_mlp (PyStr "True")) (PyStr "True")
           2 [1; 1] (Tensor [2; 1; 1] [1%R; 2%R]) 1);
    [reflexivity | reflexivity | reflexivity | reflexivity |].
  exists 1. split; [|reflexivity].
  split; [reflexivity|]. split; [apply unit_linear_wf|reflexivity].
Defined.

(** ** [split_input]: the parts and the whole *)

Lemma zip_with_fmap_same {A B C D} (h : B → C → D) (f : A → B) (g : A → C) (l : list A) :
  zip_with h (f <$> l) (g <$> l) = (λ x, h (f x) (g x)) <$> l.
Proof.
  induction l as [|x l IH]; [done|]. rewrite !fmap_cons. cbn [zip_with]. by rewrite IH.
Qed.

Lemma take_rest {A} F N (c : list A) :
  length c = N * F → 1 ≤ N → take F c ++ take ((N - 1) * F) (drop F c) = c.
Proof.
  intros Hc HN. rewrite (take_ge (drop F c)); [apply take_drop|].
  rewrite length_drop. nia.
Qed.

(** The ego and the others that [split_input] returns are the input cut
    in two along the entities: concatenated again along that dimension
    they give the input back; the mask has one entry per entity. *)
Theorem split_input_cat (self : EgoAttentionNetwork) b N F idx (x : tensor R) :
  shape x = [b; N; F] → wf x → 1 ≤ N →
  net_config self !! "presence_feature_idx" = Some (PyInt (Z.of_nat idx)) →
  idx < F →
  ∃ ego others mask,
    split_input self x = Ok (ego, others, mask)
    ∧ shape ego = [b; 1; F] ∧ shape others = [b; N - 1; F] ∧ shape mask = [b; N; 1]
    ∧ torch.cat1 ego others = Ok x.
Proof.
  intros Hx Wx HN Hidx Hlt.
  exists (ego_of b N F x), (others_of b N F x), (presence_of b N F idx x).
  split; [by apply split_input_ok|]. do 3 (split; [done|]).
  unfold wf in Wx. rewrite Hx in Wx. simpl in Wx.
  assert (Forall (λ c, length c = N * F) (chunks b (N * F) (data x))) as Hcs
    by (apply Forall_chunks; lia).
  unfold torch.cat1, ego_of, others_of. cbn [shape data].
  rewrite decide_True by done. simpl numel. rewrite !Nat.mul_1_r, Nat.mul_1_l.
  replace b with (length ((λ c, take F c) <$> chunks b (N * F) (data x))) at 2
    by (by rewrite length_fmap, length_chunks).
  rewrite chunks_concat.
  2:{ apply Forall_fmap. eapply Forall_impl; [exact Hcs|].
      intros c Hc. simpl in *. rewrite length_take. nia. }
  replace b with (length ((λ c, take ((N - 1) * F) (drop F c))
                            <$> chunks b (N * F) (data x))) at 3
    by (by rewrite length_fmap, length_chunks).
  rewrite chunks_concat.
  2:{ apply Forall_fmap. eapply Forall_impl; [exact Hcs|].
      intros c Hc. simpl in *. rewrite length_take, length_drop. nia. }
  rewrite zip_with_fmap_same.
  rewrite (Forall_fmap_ext_1 _ Datatypes.id).
  2:{ eapply Forall_impl; [exact Hcs|]. intros c Hc. simpl in *. by apply take_rest. }
  rewrite list_fmap_id, concat_chunks by lia.
  replace (1 + (N - 1)) with N by lia.
  destruct x as [s d]. simpl in *. by subst s.
Qed.

Lemma split_input_cat_witness :
  ∃ ego others mask,
    split_input ex_net ex_absent = Ok (ego, others, mask)
    ∧ shape ego = [1; 1; 1] ∧ shape others = [1; 2 - 1; 1] ∧ shape mask = [1; 2; 1]
    ∧ torch.cat1 ego others = Ok ex_absent.
Proof.
  apply (split_input_cat ex_net 1 2 1 0 ex_absent);
    [reflexivity | reflexivity | lia | reflexivity | lia].
Defined.

(** ** The network on an input without entities *)

Lemma M_bind_raise {A B} (m : M A) (k : A → M B) (w : world) (e : exn) :
  m w = Raise e → (m ≫= k) w = Raise e.
Proof. unfold mbind, M_bind. by intros ->. Qed.

Lemma concat_fmap_nil {A B} (f : A → list B) (l : list A) :
  (∀ c, f c = []) → concat (f <$> l) = [].
Proof.
  intros Hf. induction l as [|c l IH]; [done|].
  rewrite fmap_cons. cbn [concat]. by rewrite Hf, IH.
Qed.

Lemma split_input_empty (self : EgoAttentionNetwork) b F idx (x : tensor R) :
  shape x = [b; 0; F] →
  net_config self !! "presence_feature_idx" = Some (PyInt (Z.of_nat idx)) →
  idx < F →
  ∃ ego others mask,
    split_input self x = Ok (ego, others, mask)
    ∧ shape ego = [b; 0; F] ∧ data ego = []
    ∧ shape others = [b; 0; F] ∧ data others = [].
Proof.
  intros Hx Hidx Hlt. unfold split_input, torch.slice1, torch.slice2, getitem.
  rewrite Hx, Hidx. simpl.
  pose proof (slice_bounds_one idx F Hlt) as Hb.
  unfold torch.slice_bounds in Hb. injection Hb as Hb1 Hb2. rewrite Hb2, Hb1.
  eexists _, _, _. split; [reflexivity|]. simpl.
  split; [done|]. split; [by apply concat_fmap_nil|].
  split; [done|]. by apply concat_fmap_nil.
Qed.

Lemma EgoAttention_forward_no_ego (self : EgoAttention) fs b
    (ego others : tensor R) (mask : option (tensor bool)) (w : world) :
  att_config self !! "feature_size" = Some (PyInt (Z.of_nat fs)) →
  shape ego = [b; 0; fs] → shape others = [b; 0; fs] →
  0 < b → 0 < fs →
  EgoAttention_forward self ego others mask w = Raise RuntimeError.
Proof.
  intros Hfs He Ho Hb Hpos. unfold EgoAttention_forward. cbv zeta.
  assert (torch.shape_at others 0 = Ok b) as H1 by (unfold torch.shape_at; by rewrite Ho).
  assert (torch.shape_at others 1 = Ok 0) as H2 by (unfold torch.shape_at; by rewrite Ho).
  assert (getitem (att_config self) "feature_size" ≫= as_size = Ok fs) as H3.
  { unfold getitem. rewrite Hfs. simpl. apply as_size_of_nat. }
  rewrite (M_bind_lift _ _ _ _ H1), (M_bind_lift _ _ _ _ H2), (M_bind_lift _ _ _ _ H3).
  apply M_bind_raise. unfold lift, torch.view. rewrite He.
  rewrite decide_False; [done|]. simpl. nia.
Qed.

(** An input with no entity at all, not even the ego, is refused for
    every non-empty batch: the slices are empty and the embeddings go
    through, but the layer cannot view the empty ego as one entity per
    batch element and raises [RuntimeError]. *)
Theorem EgoAttentionNetwork_forward_no_entity fuel (self : EgoAttentionNetwork)
    (w : world) F fs heads fph out idx drop b (x : tensor R) :
  net_ok self (heap w) F fs heads fph out idx drop →
  shape x = [b; 0; F] → 0 < b → 0 < fs →
  EgoAttentionNetwork_forward (call (S fuel)) self x w = Raise RuntimeError
  ∧ get_attention_matrix (call (S fuel)) self x w = Raise RuntimeError.
Proof.
  intros ((me & Hme & Oke) & (mo & Hmo & Oko) & _ & Hatt & Hidx & Hlt) Hx Hb Hfs.
  destruct (split_input_empty self b F idx x Hx Hidx Hlt)
    as (ego & others & mask & Hsplit & Hse & Hde & Hso & Hdo).
  destruct (call_mlp_rows fuel (ego_embedding self) me w F fs [b; 0] ego)
    as (e & Hce & Hshe & _); [done|done|done| |].
  { unfold wf. rewrite Hde, Hse. simpl. lia. }
  destruct (call_mlp_rows fuel (others_embedding self) mo w F fs [b; 0] others)
    as (o & Hco & Hsho & _); [done|done|done| |].
  { unfold wf. rewrite Hdo, Hso. simpl. lia. }
  destruct Hatt as (Hfsz & _).
  pose proof (EgoAttention_forward_no_ego (attention_layer self) fs b e o (Some mask) w
                Hfsz Hshe Hsho Hb Hfs) as Hraise.
  unfold EgoAttentionNetwork_forward, get_attention_matrix.
  rewrite !(M_bind_lift _ _ _ _ Hsplit).
  rewrite !(M_bind_ok _ _ _ _ _ Hce), !(M_bind_ok _ _ _ _ _ Hco).
  by rewrite !(M_bind_raise _ _ _ _ Hraise).
Qed.

Lemma EgoAttentionNetwork_forward_no_entity_witness :
  EgoAttentionNetwork_forward (call 1) ex_net (Tensor [1; 0; 1] []) net_world
  = Raise RuntimeError
  ∧ get_attention_matrix (call 1) ex_net (Tensor [1; 0; 1] []) net_world
    = Raise RuntimeError.
Proof.
  apply (EgoAttentionNetwork_forward_no_entity 0 ex_net net_world 1 1 1 1 1 0
           {| p := 0%R; training := true |} 1 (Tensor [1; 0; 1] []));
    [apply ex_net_ok | reflexivity | lia | lia].
Defined.

(** ** [EgoAttention]: the number of features per head *)

Lemma py_int_div (a b : Z) :
  (0 ≤ a)%Z → (0 < b)%Z → py_int (IZR a / IZR b) = (a / b)%Z.
Proof.
  intros Ha Hb.
  assert (IZR a = IZR b * IZR (a / b) + IZR (a mod b))%R as Hdiv.
  { rewrite <- mult_IZR, <- plus_IZR. f_equal. apply Z.div_mod. lia. }
  assert (0 <= IZR (a mod b) < IZR b)%R as [Hr0 Hr1].
  { pose proof (Z.mod_pos_bound a b Hb). split; [apply IZR_le|apply IZR_lt]; lia. }
  assert (0 < IZR b)%R as Hb' by (apply (IZR_lt 0); lia).
  assert (IZR a / IZR b = IZR (a / b) + IZR (a mod b) / IZR b)%R as Hq
    by (rewrite Hdiv; field; lra).
  assert (0 <= IZR (a mod b) / IZR b < 1)%R as [Hf0 Hf1].
  { split.
    - unfold Rdiv. apply Rmult_le_pos; [done|]. left. by apply Rinv_0_lt_compat.
    - apply (Rmult_lt_reg_r (IZR b)); [done|]. unfold Rdiv.
      rewrite Rmult_assoc, Rinv_l by lra. lra. }
  assert (0 <= IZR (a / b))%R as Hq0 by (apply (IZR_le 0), Z.div_pos; lia).
  unfold py_int. destruct (Rle_dec 0 (IZR a / IZR b)) as [_|Hn]; [|lra].
  symmetry. apply Int_part_spec. lra.
Qed.

(** The constructor divides [feature_size] by [heads] and truncates:
    with [heads] 0 it raises [ZeroDivisionError]; otherwise the layer has
    [feature_size // heads] features per head, whether or not the
    division is exact, and four square layers without bias. *)
Theorem EgoAttention_init_heads (config : dict) (fs : nat) (hd : Z) (w : world) :
  let resolved := Configurable_init EgoAttention_default_config config in
  resolved !! "feature_size" = Some (PyInt (Z.of_nat fs)) →
  resolved !! "heads" = Some (PyInt hd) →
  (0 ≤ hd)%Z →
  if decide (hd = 0%Z) then EgoAttention_init config w = Raise ZeroDivisionError
  else ∃ a w',
      EgoAttention_init config w = Ok ((a, resolved), w')
      ∧ heap w' = heap w
      ∧ att_config a = resolved
      ∧ features_per_head a = (Z.of_nat fs / hd)%Z
      ∧ Forall (λ l, in_features l = fs ∧ out_features l = fs
                     ∧ Linear_wf l ∧ bias l = None)
          [value_all a; key_all a; query_ego a; attention_combine a].
Proof.
  intros resolved Hfs Hhd Hpos. destruct (decide (hd = 0%Z)) as [->|Hnz].
  - unfold EgoAttention_init, getitem. fold resolved. rewrite Hfs, Hhd.
    rewrite (M_bind_lift _ _ _ (PyInt (Z.of_nat fs))) by done.
    rewrite (M_bind_lift _ _ _ (PyInt 0)) by done.
    apply M_bind_raise. unfold lift, py_truediv. simpl.
    by destruct (Req_dec_T 0 0).
  - destruct w as [σ [d n]].
    eexists _, _. split; [by apply (EgoAttention_init_returns config fs hd)|].
    split; [done|]. split; [done|]. split; [apply py_int_div; lia|].
    repeat constructor; simpl; try done; apply length_chunks.
Qed.

Lemma EgoAttention_init_heads_witness :
  let resolved := Configurable_init EgoAttention_default_config
                    {[ "feature_size" := PyInt 5; "heads" := PyInt 2 ]} in
  if decide (2 = 0)%Z
  then EgoAttention_init {[ "feature_size" := PyInt 5; "heads" := PyInt 2 ]} world0
       = Raise ZeroDivisionError
  else ∃ a w',
      EgoAttention_init {[ "feature_size" := PyInt 5; "heads" := PyInt 2 ]} world0
      = Ok ((a, resolved), w')
      ∧ heap w' = heap world0
      ∧ att_config a = resolved
      ∧ features_per_head a = (Z.of_nat 5 / 2)%Z
      ∧ Forall (λ l, in_features l = 5 ∧ out_features l = 5
                     ∧ Linear_wf l ∧ bias l = None)
          [value_all a; key_all a; query_ego a; attention_combine a].
Proof.
  apply (EgoAttention_init_heads {[ "feature_size" := PyInt 5; "heads" := PyInt 2 ]}
           5 2 world0);
    [reflexivity | reflexivity | lia].
Defined.

(** A layer whose [heads] does not divide [feature_size] is constructed
    (with the truncated number of features per head) but cannot be used:
    on every non-empty batch [forward] raises [RuntimeError] when it
    views the keys by head. *)
Theorem EgoAttention_forward_indivisible (self : EgoAttention) fs heads b n
    (ego others : tensor R) (mask : option (tensor bool)) (w : world) :
  att_config self !! "feature_size" = Some (PyInt (Z.of_nat fs)) →
  att_config self !! "heads" = Some (PyInt (Z.of_nat heads)) →
  features_per_head self = (Z.of_nat fs / Z.of_nat heads)%Z →
  in_features (key_all self) = fs → out_features (key_all self) = fs →
  shape ego = [b; 1; fs] → shape others = [b; n; fs] →
  0 < b → 0 < heads → fs `mod` heads ≠ 0 →
  EgoAttention_forward self ego others mask w = Raise RuntimeError.
Proof.
  intros Hfs Hh Hfph Hki Hko He Ho Hb Hheads Hmod.
  unfold EgoAttention_forward. cbv zeta.
  assert (torch.shape_at others 0 = Ok b) as H1 by (unfold torch.shape_at; by rewrite Ho).
  assert (torch.shape_at others 1 = Ok n) as H2 by (unfold torch.shape_at; by rewrite Ho).
  assert (getitem (att_config self) "feature_size" ≫= as_size = Ok fs) as H3.
  { unfold getitem. rewrite Hfs. simpl. apply as_size_of_nat. }
  assert (getitem (att_config self) "heads" ≫= as_size = Ok heads) as H4.
  { unfold getitem. rewrite Hh. simpl. apply as_size_of_nat. }
  assert (size_of_Z (features_per_head self) = Ok (fs / heads)) as H5.
  { rewrite Hfph, <- Nat2Z.inj_div. apply size_of_Z_of_nat. }
  assert (torch.view [b; 1; fs] ego = Ok (Tensor [b; 1; fs] (data ego))) as H6
    by (apply view_ok; by rewrite He).
  assert (torch.cat1 (Tensor [b; 1; fs] (data ego)) others
          = Ok (input_all b n fs ego others)) as H7.
  { unfold torch.cat1. simpl. rewrite Ho. rewrite decide_True by done.
    unfold input_all. simpl. by rewrite !Nat.mul_1_r, !Nat.add_0_r. }
  rewrite (M_bind_lift _ _ _ _ H1), (M_bind_lift _ _ _ _ H2), (M_bind_lift _ _ _ _ H3),
    (M_bind_lift _ _ _ _ H6), (M_bind_lift _ _ _ _ H7).
  rewrite (M_bind_lift _ _ _ _
             (Linear_forward_batched (key_all self) [b; 1 + n]
                (input_all b n fs ego others) ltac:(by rewrite Hki))).
  rewrite (M_bind_lift _ _ _ _ H4), (M_bind_lift _ _ _ _ H5).
  apply M_bind_raise. unfold lift, torch.view. cbn [shape].
  rewrite decide_False; [done|]. rewrite numel_app, Hko. simpl.
  pose proof (Nat.div_mod fs heads ltac:(lia)) as Hdm.
  assert (heads * (fs / heads) < fs) by lia. nia.
Qed.

Lemma EgoAttention_forward_indivisible_witness :
  EgoAttention_forward
    {| att_config := {[ "feature_size" := PyInt 1; "heads" := PyInt 2;
                        "dropout_factor" := PyInt 0 ]};
       features_per_head := 0;
       value_all := unit_linear false; key_all := unit_linear false;
       query_ego := unit_linear false; attention_combine := unit_linear false;
       att_training := true |}
    ex_ego no_others None world0
  = Raise RuntimeError.
Proof.
  apply (EgoAttention_forward_indivisible _ 1 2 1 0 ex_ego no_others None world0);
    [reflexivity | reflexivity | reflexivity | reflexivity | reflexivity
    | reflexivity | reflexivity | lia | lia | done].
Defined.

(** ** The constructors of the composite modules *)

(** The constructor reads [embedding_layer]["in"] by subscript: when the
    resolved embedding configuration has no [in] key, as in the defaults,
    it raises [KeyError] before any block is built, even if the
    top-level [in] is given. *)
Theorem EgoAttentionNetwork_init_embedding_in (factory : dict → M (loc * dict))
    (config emb : dict) (w : world) :
  Configurable_init EgoAttentionNetwork_default_config config !! "embedding_layer"
  = Some (PyDict emb) →
  emb !! "in" = None →
  EgoAttentionNetwork_init factory config w = Raise (KeyError "in").
Proof.
  intros Hemb Hin. unfold EgoAttentionNetwork_init, getitem. cbv zeta.
  rewrite Hemb. rewrite (M_bind_lift _ _ _ emb) by done.
  apply M_bind_raise. by rewrite Hin.
Qed.

Lemma EgoAttentionNetwork_init_embedding_in_witness :
  EgoAttentionNetwork_init (model_factory 1) {[ "in" := PyInt 5 ]} world0
  = Raise (KeyError "in").
Proof.
  apply (EgoAttentionNetwork_init_embedding_in (model_factory 1) {[ "in" := PyInt 5 ]}
           {[ "type" := PyStr "MultiLayerPerceptron";
              "layers" := PyList [PyInt 128; PyInt 128; PyInt 128];
              "reshape" := PyBool false ]} world0);
    [reflexivity | reflexivity].
Defined.

(** The head takes the width of its two layers from the last entry of
    the base module's [layers]: when the base module was built without
    hidden layers, which its own constructor accepts, the head's
    constructor raises [IndexError]. *)
Theorem DuelingNetwork_init_no_hidden (factory : dict → M (loc * dict))
    (config bm0 bm : dict) (v : pyval) (base : loc) (w w1 : world) :
  let resolved := Configurable_init DuelingNetwork_default_config config in
  resolved !! "in" = Some v →
  resolved !! "base_module" = Some (PyDict bm0) →
  factory (<["in" := v]> bm0) w = Ok ((base, bm), w1) →
  bm !! "layers" = Some (PyList []) →
  DuelingNetwork_init factory config w = Raise IndexError.
Proof.
  intros resolved Hin Hbm Hf Hl. unfold DuelingNetwork_init, getitem. fold resolved.
  rewrite Hin, Hbm.
  rewrite (M_bind_lift _ _ _ v) by done.
  rewrite (M_bind_lift _ _ _ bm0) by done.
  rewrite (M_bind_ok _ _ _ _ _ Hf). cbv beta iota. rewrite Hl.
  rewrite (M_bind_lift _ _ _ []) by done.
  assert (is_Some (resolved !! "out")) as [o ->].
  { unfold resolved, Configurable_init. apply lookup_union_is_Some. right. by eexists. }
  rewrite (M_bind_lift _ _ _ o) by done.
  by apply M_bind_raise.
Qed.

Lemma DuelingNetwork_init_no_hidden_witness :
  DuelingNetwork_init (model_factory 1) ex_flat_dueling_config world0 = Raise IndexError.
Proof.
  eapply (DuelingNetwork_init_no_hidden (model_factory 1) ex_flat_dueling_config
            _ _ (PyInt 1) _ world0).
  - reflexivity.
  - reflexivity.
  - eapply model_factory_mlp; [reflexivity|].
    eapply (MultiLayerPerceptron_init_no_layers _ _ F_relu (PyInt 1)); reflexivity.
  - reflexivity.
Defined.

(** ** [DuelingNetwork]: only the differences of the advantages count *)

Lemma Linear_row_bias_shift (wt : list (list R)) (bs : list R) (c : R) i o (r : list R) :
  Linear_row {| in_features := i; out_features := o; weight := wt;
                bias := Some ((λ v, v + c)%R <$> bs) |} r
  = (λ y, y + c)%R <$> Linear_row {| in_features := i; out_features := o; weight := wt;
                                     bias := Some bs |} r.
Proof.
  unfold Linear_row. simpl. generalize (dot r <$> wt). intros y.
  revert bs; induction y as [|a y IH]; intros [|b bs]; try done.
  rewrite !fmap_cons. cbn [zip_with]. rewrite fmap_cons, IH. f_equal. lra.
Qed.

Lemma sumR_plus_const c a : sumR ((λ x, x + c)%R <$> a) = (sumR a + INR (length a) * c)%R.
Proof.
  unfold sumR. induction a as [|x a IH]; [simpl; lra|].
  rewrite fmap_cons. cbn [foldr length]. rewrite IH, S_INR. lra.
Qed.

Lemma dueling_row_shift (v c : R) (a : list R) :
  (λ y, v + y - mean ((λ x, x + c) <$> a))%R <$> ((λ x, x + c)%R <$> a)
  = (λ y, v + y - mean a)%R <$> a.
Proof.
  destruct (decide (a = [])) as [->|Hne]; [done|].
  assert (0 < INR (length a))%R by (apply (lt_INR 0); destruct a; [done|simpl; lia]).
  rewrite <- list_fmap_compose. apply list_fmap_ext. intros _ y _. unfold compose.
  unfold mean. rewrite sumR_plus_const, length_fmap.
  field. lra.
Qed.

(** Adding one constant to the bias of every action of the advantage
    layer does not change what the head returns: the mean that
    [forward] subtracts takes the constant away again. *)
Theorem DuelingNetwork_forward_advantage_shift (call : loc → tensor R → M (tensor R))
    (self : DuelingNetwork) (x repr : tensor R) (w w' : world) (b h out : nat)
    (wt : list (list R)) (bs : list R) (c : R) :
  call (base_module self) x w = Ok (repr, w') →
  shape repr = [b; h] →
  advantage self = {| in_features := h; out_features := out; weight := wt;
                      bias := Some bs |} →
  length wt = out → length bs = out →
  in_features (value self) = h →
  out_features (value self) = 1 →
  Linear_wf (value self) →
  dueling_config self !! "out" = Some (PyInt (Z.of_nat out)) →
  DuelingNetwork_forward call
    {| dueling_config := dueling_config self; base_module := base_module self;
       advantage := {| in_features := h; out_features := out; weight := wt;
                       bias := Some ((λ v, v + c)%R <$> bs) |};
       value := value self |} x w
  = DuelingNetwork_forward call self x w.
Proof.
  intros Hcall Hs Hadv Hwt Hbs Hvi Hvo Hvw Hout.
  rewrite (DuelingNetwork_forward_rows call self x repr w w' b h out); try done;
    [|by rewrite Hadv|by rewrite Hadv|rewrite Hadv; split; [done|by intros ? [= <-]]].
  rewrite (DuelingNetwork_forward_rows call _ x repr w w' b h out); try done;
    [|split; [done|intros ? [= <-]; by rewrite length_fmap]].
  cbn [advantage value]. rewrite Hadv. do 4 f_equal.
  rewrite !zip_with_fmap_r. apply zip_with_ext; [|done|done].
  intros v r. rewrite Linear_row_bias_shift. apply dueling_row_shift.
Qed.

Lemma DuelingNetwork_forward_advantage_shift_witness :
  DuelingNetwork_forward (call 1)
    {| dueling_config := dueling_config ex_dueling; base_module := base_module ex_dueling;
       advantage := {| in_features := 1; out_features := 2; weight := [[1%R]; [3%R]];
                       bias := Some ((λ v, v + 10)%R <$> [0%R; 0%R]) |};
       value := value ex_dueling |} (Tensor [1; 1] [2%R]) dueling_world
  = DuelingNetwork_forward (call 1) ex_dueling (Tensor [1; 1] [2%R]) dueling_world.
Proof.
  apply (DuelingNetwork_forward_advantage_shift (call 1) ex_dueling (Tensor [1; 1] [2%R])
           (Tensor [1; 1] [2%R]) dueling_world dueling_world 1 1 2
           [[1%R]; [3%R]] [0%R; 0%R] 10%R);
    [reflexivity | reflexivity | reflexivity | reflexivity | reflexivity
    | reflexivity | reflexivity | apply unit_linear_wf | reflexivity].
Defined.

(** ** The network with any dropout *)

Lemma EgoAttentionNetwork_forward_total fuel (self : EgoAttentionNetwork)
    (w : world) F fs heads fph out idx drop b N (x : tensor R) :
  net_ok self (heap w) F fs heads fph out idx drop →
  shape x = [b; N; F] → wf x → 1 ≤ N →
  (∃ y w', EgoAttentionNetwork_forward (call (S fuel)) self x w = Ok (y, w')
           ∧ shape y = [b; out] ∧ heap w' = heap w)
  ∧ (∃ att w', get_attention_matrix (call (S fuel)) self x w = Ok (att, w')
               ∧ shape att = [b; heads; 1; N] ∧ heap w' = heap w).
Proof.
  intros Hok Hx Wx HN.
  destruct (EgoAttentionNetwork_pipeline fuel self w F fs heads fph out idx drop b N x)
    as (e & o & He & Ho & Hse & We & Hso & Wo & _); [done..|].
  pose proof Hok as (_ & _ & (mout & Hmout & Okout) & Hatt & Hidx & Hlt).
  destruct (EgoAttention_forward_blend (attention_layer self) fs heads fph drop b (N - 1)
              e o (Some (presence_of b N F idx x)) w)
    as (attended & att & w' & _ & Hsa & Hsp & Hheap & Hfw); try done.
  { intros m [= <-]. split; [simpl; nia|by apply wf_presence_of]. }
  replace (N - 1 + 1) with N in * by lia.
  set (res := Tensor [b; fs] _) in Hfw.
  assert (wf res) as Wres.
  { destruct Hatt as (_ & _ & _ & _ & _ & Hlin).
    apply Forall_cons in Hlin as [_ Hlin]. apply Forall_cons in Hlin as [_ Hlin].
    apply Forall_cons in Hlin as [_ Hlin].
    apply Forall_cons in Hlin as [(Hci & Hco & Hcw) _].
    unfold wf, res. simpl. rewrite length_zip_with, Linear_rows_length, Hco by done.
    unfold wf in We. rewrite We, Hse. simpl. lia. }
  destruct (MultiLayerPerceptron_forward_rows mout fs out [b] res Okout)
    as [Hfy _]; [done|done|].
  unfold EgoAttentionNetwork_forward, get_attention_matrix.
  rewrite !(M_bind_lift _ _ _ _ (split_input_ok self b N F idx x Hx HN Hidx Hlt)).
  rewrite !(M_bind_ok _ _ _ _ _ He), !(M_bind_ok _ _ _ _ _ Ho).
  rewrite !(M_bind_ok _ _ _ _ _ Hfw). split.
  - eexists _, w'. split; [|split; [|done]].
    + rewrite (call_mlp _ _ mout) by (by rewrite Hheap). by rewrite Hfy.
    + reflexivity.
  - by exists att, w'.
Qed.

(** On a well-formed input of at least one entity the forward pass and
    [get_attention_matrix] return for every dropout factor, active or
    not: the output has one row of [out] entries per batch element, the
    weights one row per head and batch element, and no module on the
    heap is touched (only the generator may advance). *)
Theorem EgoAttentionNetwork_forward_returns fuel (self : EgoAttentionNetwork)
    (w : world) F fs heads fph out idx drop b N (x : tensor R) :
  net_ok self (heap w) F fs heads fph out idx drop →
  shape x = [b; N; F] → wf x → 1 ≤ N →
  (∃ y w', EgoAttentionNetwork_forward (call (S fuel)) self x w = Ok (y, w')
           ∧ shape y = [b; out] ∧ heap w' = heap w)
  ∧ (∃ att w', get_attention_matrix (call (S fuel)) self x w = Ok (att, w')
               ∧ shape att = [b; heads; 1; N] ∧ heap w' = heap w).
Proof. apply EgoAttentionNetwork_forward_total. Qed.

Lemma EgoAttentionNetwork_forward_returns_witness :
  (∃ y w', EgoAttentionNetwork_forward (call 1) ex_net ex_absent net_world = Ok (y, w')
           ∧ shape y = [1; 1] ∧ heap w' = heap net_world)
  ∧ (∃ att w', get_attention_matrix (call 1) ex_net ex_absent net_world = Ok (att, w')
               ∧ shape att = [1; 1; 1; 2] ∧ heap w' = heap net_world).
Proof.
  apply (EgoAttentionNetwork_forward_returns 0 ex_net net_world 1 1 1 1 1 0
           {| p := 0%R; training := true |} 1 2 ex_absent);
    [apply ex_net_ok | reflexivity | reflexivity | lia].
Defined.

(** ** A presence feature outside the features *)

Lemma slice_bounds_outside (idx : Z) (F : nat) :
  idx = (-1)%Z ∨ (Z.of_nat F ≤ idx)%Z →
  torch.slice_index (idx + 1) F - torch.slice_index idx F = 0.
Proof.
  intros [->|Hge]; unfold torch.slice_index; simpl.
  - lia.
  - destruct (Z.ltb_spec idx 0); [lia|].
    destruct (Z.ltb_spec (idx + 1) 0); [lia|]. lia.
Qed.

Lemma split_input_outside (self : EgoAttentionNetwork) b N F (idx : Z) (x : tensor R) :
  shape x = [b; N; F] → 1 ≤ N →
  net_config self !! "presence_feature_idx" = Some (PyInt idx) →
  idx = (-1)%Z ∨ (Z.of_nat F ≤ idx)%Z →
  ∃ mask, split_input self x = Ok (ego_of b N F x, others_of b N F x, mask)
          ∧ shape mask = [b; N; 0].
Proof.
  intros Hx HN Hidx Hout. unfold split_input, torch.slice1, torch.slice2, getitem.
  rewrite Hx, Hidx, slice_bounds_first, slice_bounds_rest by done. simpl.
  rewrite (slice_bounds_outside idx F Hout).
  eexists. split.
  - unfold ego_of, others_of. simpl. by rewrite !Nat.mul_1_r, !Nat.add_0_r.
  - reflexivity.
Qed.

Lemma EgoAttention_forward_bad_mask (self : EgoAttention) fs heads fph drop b n
    (ego others : tensor R) (m : tensor bool) (w : world) :
  att_ok self fs heads fph drop →
  shape ego = [b; 1; fs] → shape others = [b; n; fs] →
  numel (shape m) ≠ b * (n + 1) →
  EgoAttention_forward self ego others (Some m) w = Raise RuntimeError.
Proof.
  intros (Hfs & Hh & Hdrop & Hfph & Hdiv & Hlin) He Ho Hm.
  apply Forall_cons in Hlin as [(Hvi & Hvo & Hvw) Hlin].
  apply Forall_cons in Hlin as [(Hki & Hko & Hkw) Hlin].
  apply Forall_cons in Hlin as [(Hqi & Hqo & Hqw) Hlin].
  apply Forall_cons in Hlin as [(Hci & Hco & Hcw) _].
  unfold EgoAttention_forward. cbv zeta.
  assert (torch.shape_at others 0 = Ok b) as H1 by (unfold torch.shape_at; by rewrite Ho).
  assert (torch.shape_at others 1 = Ok n) as H2 by (unfold torch.shape_at; by rewrite Ho).
  assert (getitem (att_config self) "feature_size" ≫= as_size = Ok fs) as H3.
  { unfold getitem. rewrite Hfs. simpl. apply as_size_of_nat. }
  assert (getitem (att_config self) "heads" ≫= as_size = Ok heads) as H4.
  { unfold getitem. rewrite Hh. simpl. apply as_size_of_nat. }
  assert (size_of_Z (features_per_head self) = Ok fph) as H5
    by (rewrite Hfph; apply size_of_Z_of_nat).
  assert (torch.view [b; 1; fs] ego = Ok (Tensor [b; 1; fs] (data ego))) as H6
    by (apply view_ok; by rewrite He).
  assert (torch.cat1 (Tensor [b; 1; fs] (data ego)) others
          = Ok (input_all b n fs ego others)) as H7.
  { unfold torch.cat1. simpl. rewrite Ho. rewrite decide_True by done.
    unfold input_all. simpl. by rewrite !Nat.mul_1_r, !Nat.add_0_r. }
  rewrite (M_bind_lift _ _ _ _ H1), (M_bind_lift _ _ _ _ H2), (M_bind_lift _ _ _ _ H3),
    (M_bind_lift _ _ _ _ H6), (M_bind_lift _ _ _ _ H7).
  destruct (heads_of_ok (key_all self) b (n + 1) heads fph [b; 1 + n]
              (input_all b n fs ego others)) as (k1 & k2 & Hk1 & Hk2 & Hk3);
    [by rewrite Hki | simpl; lia | done | lia |].
  destruct (heads_of_ok (value_all self) b (n + 1) heads fph [b; 1 + n]
              (input_all b n fs ego others)) as (v1 & v2 & Hv1 & Hv2 & Hv3);
    [by rewrite Hvi | simpl; lia | done | lia |].
  destruct (heads_of_ok (query_ego self) b 1 heads fph [b; 1] ego)
    as (q1 & q2 & Hq1 & Hq2 & Hq3);
    [by rewrite Hqi, He | simpl; lia | done | lia |].
  rewrite (M_bind_lift _ _ _ _ Hk1), (M_bind_lift _ _ _ _ H4), (M_bind_lift _ _ _ _ H5),
    (M_bind_lift _ _ _ _ Hk2).
  rewrite (M_bind_lift _ _ _ _ Hv1), (M_bind_lift _ _ _ _ H4), (M_bind_lift _ _ _ _ Hv2).
  rewrite (M_bind_lift _ _ _ _ Hq1), (M_bind_lift _ _ _ _ H4), (M_bind_lift _ _ _ _ Hq2).
  rewrite (M_bind_lift _ _ _ _ Hk3), (M_bind_lift _ _ _ _ Hv3), (M_bind_lift _ _ _ _ Hq3).
  apply M_bind_raise, M_bind_raise. unfold lift, torch.view.
  rewrite decide_False; [done|]. simpl. lia.
Qed.

(** The presence feature is taken by the slice [idx:idx + 1], and a
    slice never raises: with an index at or beyond the number of
    features, and with the index -1 (whose slice [-1:0] is empty), the
    mask has no column, and on a non-empty batch the forward pass raises
    [RuntimeError] in the attention layer, where the mask is viewed with
    one entry per entity. *)
Theorem EgoAttentionNetwork_forward_presence_outside fuel (self : EgoAttentionNetwork)
    (w : world) F fs heads fph drop (idx : Z) b N (x : tensor R) :
  (∃ m, heap w !! ego_embedding self = Some (ModMLP m) ∧ mlp_ok m F fs) →
  (∃ m, heap w !! others_embedding self = Some (ModMLP m) ∧ mlp_ok m F fs) →
  att_ok (attention_layer self) fs heads fph drop →
  net_config self !! "presence_feature_idx" = Some (PyInt idx) →
  idx = (-1)%Z ∨ (Z.of_nat F ≤ idx)%Z →
  shape x = [b; N; F] → wf x → 1 ≤ N → 0 < b →
  EgoAttentionNetwork_forward (call (S fuel)) self x w = Raise RuntimeError
  ∧ get_attention_matrix (call (S fuel)) self x w = Raise RuntimeError.
Proof.
  intros (me & Hme & Oke) (mo & Hmo & Oko) Hatt Hidx Hout Hx Wx HN Hb.
  destruct (split_input_outside self b N F idx x Hx HN Hidx Hout) as (mask & Hsplit & Hsm).
  destruct (call_mlp_rows fuel (ego_embedding self) me w F fs [b; 1] (ego_of b N F x))
    as (e & Hce & Hshe & _); [done|done|done|by apply wf_ego_of|].
  destruct (call_mlp_rows fuel (others_embedding self) mo w F fs [b; N - 1]
              (others_of b N F x))
    as (o & Hco & Hsho & _); [done|done|done|by apply wf_others_of|].
  pose proof (EgoAttention_forward_bad_mask (attention_layer self) fs heads fph drop
                b (N - 1) e o mask w Hatt Hshe Hsho) as Hraise.
  unfold EgoAttentionNetwork_forward, get_attention_matrix.
  rewrite !(M_bind_lift _ _ _ _ Hsplit).
  rewrite !(M_bind_ok _ _ _ _ _ Hce), !(M_bind_ok _ _ _ _ _ Hco).
  rewrite !(M_bind_raise _ _ _ _ (Hraise ltac:(rewrite Hsm; simpl; nia))). done.
Qed.

Lemma EgoAttentionNetwork_forward_presence_outside_witness :
  EgoAttentionNetwork_forward (call 1)
    {| net_config := {[ "presence_feature_idx" := PyInt (-1) ]};
       ego_embedding := 0; others_embedding := 0;
       attention_layer := ex_att (PyInt 0); output_layer := 1 |}
    ex_absent net_world = Raise RuntimeError
  ∧ get_attention_matrix (call 1)
      {| net_config := {[ "presence_feature_idx" := PyInt (-1) ]};
         ego_embedding := 0; others_embedding := 0;
         attention_layer := ex_att (PyInt 0); output_layer := 1 |}
      ex_absent net_world = Raise RuntimeError.
Proof.
  apply (EgoAttentionNetwork_forward_presence_outside 0 _ net_world 1 1 1 1
           {| p := 0%R; training := true |} (-1) 1 2 ex_absent);
    [exists (unit_mlp (PyBool false)); split; [reflexivity|apply unit_mlp_ok]
    | exists (unit_mlp (PyBool false)); split; [reflexivity|apply unit_mlp_ok]
    | apply ex_att_ok | reflexivity | by left | reflexivity | reflexivity | lia | lia].
Defined.

(** ** The factories *)


(** [model_factory] reads the type by subscript and knows three types:
    a configuration without [type] raises [KeyError], and one with any
    other type raises [ValueError] and builds nothing.  ["EgoAttention"],
    the type that the network's default [attention_layer] names, is such
    a type: the network constructs that layer itself. *)
Theorem model_factory_unknown_type fuel (config : dict) (w : world) :
  (config !! "type" = None → model_factory (S fuel) config w = Raise (KeyError "type"))
  ∧ (∀ t, config !! "type" = Some t →
       t ≠ PyStr "MultiLayerPerceptron" → t ≠ PyStr "DuelingNetwork" →
       t ≠ PyStr "EgoAttentionNetwork" →
       model_factory (S fuel) config w = Raise (ValueError "Unknown model type"))
  ∧ ∀ att, EgoAttentionNetwork_default_config !! "attention_layer" = Some (PyDict att) →
      model_factory (S fuel) att w = Raise (ValueError "Unknown model type").
Proof.
  assert (∀ (c : dict) t, c !! "type" = Some t →
            t ≠ PyStr "MultiLayerPerceptron" → t ≠ PyStr "DuelingNetwork" →
            t ≠ PyStr "EgoAttentionNetwork" →
            model_factory (S fuel) c w = Raise (ValueError "Unknown model type")) as Hun.
  { intros c t Ht H1 H2 H3. cbn [model_factory]. unfold getitem. rewrite Ht.
    rewrite (M_bind_lift _ _ _ t) by done. unfold py_eq_str.
    destruct t as [| | | |s| |]; try done.
    destruct (String.eqb_spec s "MultiLayerPerceptron") as [->|_]; [done|].
    destruct (String.eqb_spec s "DuelingNetwork") as [->|_]; [done|].
    destruct (String.eqb_spec s "EgoAttentionNetwork") as [->|_]; done. }
  split; [|split; [apply Hun|]].
  - intros Hty. cbn [model_factory]. unfold getitem. rewrite Hty. done.
  - intros att [= <-]. by apply (Hun _ (PyStr "EgoAttention")).
Qed.

(** ** [DuelingNetwork]: what the constructor builds *)

(** The head sizes both of its layers by the last entry [k] of the base
    module's [layers], not by what the base module returns: the
    constructor gives an advantage layer from [k] to [out] and a value
    layer from [k] to 1.  On a representation of width [k] the head
    returns one row of [out] entries per batch element; on one of any
    other width, as when the base module has its own [out], every
    forward pass raises [RuntimeError]. *)
Theorem DuelingNetwork_init_sizes (factory : dict → M (loc * dict))
    (config bm0 bm : dict) (v : pyval) (base : loc) (w w1 : world)
    (hs : list nat) (k o : nat) :
  let resolved := Configurable_init DuelingNetwork_default_config config in
  resolved !! "in" = Some v →
  resolved !! "out" = Some (PyInt (Z.of_nat o)) →
  resolved !! "base_module" = Some (PyDict bm0) →
  factory (<["in" := v]> bm0) w = Ok ((base, bm), w1) →
  bm !! "layers" = Some (PyList ((PyInt ∘ Z.of_nat) <$> hs)) →
  last hs = Some k →
  ∃ d cfg w',
    DuelingNetwork_init factory config w = Ok ((d, cfg), w')
    ∧ heap w' = heap w1
    ∧ base_module d = base
    ∧ in_features (advantage d) = k ∧ out_features (advantage d) = o
    ∧ in_features (value d) = k ∧ out_features (value d) = 1
    ∧ (∀ (call : loc → tensor R → M (tensor R)) x repr w2 w3 b,
         call base x w2 = Ok (repr, w3) → shape repr = [b; k] →
         ∃ y, DuelingNetwork_forward call d x w2 = Ok (y, w3) ∧ shape y = [b; o])
    ∧ (∀ (call : loc → tensor R → M (tensor R)) x repr w2 w3 b k',
         call base x w2 = Ok (repr, w3) → shape repr = [b; k'] → k' ≠ k →
         DuelingNetwork_forward call d x w2 = Raise RuntimeError).
Proof.
  intros resolved Hin Hout Hbm Hf Hl Hlast.
  destruct (Linear_init_returns k o true w1) as (adv & w2 & Hadv & Hh2 & Hai & Hao & Haw).
  destruct (Linear_init_returns k 1 true w2) as (val & w3 & Hval & Hh3 & Hvi & Hvo & Hvw).
  assert (getitem bm "layers" ≫= as_list = Ok ((PyInt ∘ Z.of_nat) <$> hs)) as Hl'
    by (unfold getitem; by rewrite Hl).
  assert (of_option IndexError (last ((PyInt ∘ Z.of_nat) <$> hs))
          = Ok (PyInt (Z.of_nat k))) as Hw
    by (by rewrite fmap_last, Hlast).
  set (cfg := <["base_module" := PyDict bm]> resolved).
  exists {| dueling_config := cfg; base_module := base; advantage := adv; value := val |},
    cfg, w3.
  split; [|split; [congruence|split; [done|do 4 (split; [done|]); split]]].
  - unfold DuelingNetwork_init, getitem. fold resolved. rewrite Hin, Hbm, Hout.
    rewrite (M_bind_lift _ _ _ v) by done.
    rewrite (M_bind_lift _ _ _ bm0) by done.
    rewrite (M_bind_ok _ _ _ _ _ Hf). cbv beta iota.
    fold (getitem bm "layers").
    rewrite (M_bind_lift _ _ _ _ Hl').
    rewrite (M_bind_lift _ _ _ (PyInt (Z.of_nat o))) by done.
    rewrite (M_bind_lift _ _ _ _ Hw).
    rewrite (M_bind_ok _ _ _ _ _ Hadv).
    rewrite (M_bind_lift _ _ _ _ Hl'), (M_bind_lift _ _ _ _ Hw).
    rewrite (M_bind_ok _ _ _ _ _ Hval). done.
  - intros call x repr wa wb b Hcall Hs. eexists. split.
    + apply (DuelingNetwork_forward_rows call _ x repr wa wb b k o); try done.
      unfold cfg. cbn [dueling_config]. by rewrite lookup_insert_ne.
    + reflexivity.
  - intros call x repr wa wb b k' Hcall Hs Hne.
    unfold DuelingNetwork_forward. rewrite (M_bind_ok _ _ _ _ _ Hcall).
    apply M_bind_raise. unfold lift, Linear_forward. rewrite Hs. cbn [advantage].
    change [b; k'] with ([b] ++ [k']). rewrite split_last_snoc.
    rewrite decide_False by congruence. done.
Qed.

Lemma ex_dueling_base_ok :
  ∃ base bm w1,
    model_factory 1 (<["in" := PyInt 1]>
                       {[ "type" := PyStr "MultiLayerPerceptron";
                          "layers" := PyList [PyInt 1] ]}) world0
    = Ok ((base, bm), w1)
    ∧ bm !! "layers" = Some (PyList ((PyInt ∘ Z.of_nat) <$> [1])).
Proof.
  destruct (MultiLayerPerceptron_init_chain
              (<["in" := PyInt 1]> {[ "type" := PyStr "MultiLayerPerceptron";
                                      "layers" := PyList [PyInt 1] ]})
              world0 1 0 [1] F_relu PyNone)
    as (m & w' & Hinit & _); [reflexivity..|done|].
  eexists _, _, _. split; [eapply model_factory_mlp; [reflexivity|exact Hinit]|].
  reflexivity.
Qed.

Lemma DuelingNetwork_init_sizes_witness :
  ∃ base w1 d cfg w',
    DuelingNetwork_init (model_factory 1) ex_dueling_config world0 = Ok ((d, cfg), w')
    ∧ heap w' = heap w1
    ∧ base_module d = base
    ∧ in_features (advantage d) = 1 ∧ out_features (advantage d) = 2
    ∧ in_features (value d) = 1 ∧ out_features (value d) = 1
    ∧ (∀ (call : loc → tensor R → M (tensor R)) x repr w2 w3 b,
         call base x w2 = Ok (repr, w3) → shape repr = [b; 1] →
         ∃ y, DuelingNetwork_forward call d x w2 = Ok (y, w3) ∧ shape y = [b; 2])
    ∧ (∀ (call : loc → tensor R → M (tensor R)) x repr w2 w3 b k',
         call base x w2 = Ok (repr, w3) → shape repr = [b; k'] → k' ≠ 1 →
         DuelingNetwork_forward call d x w2 = Raise RuntimeError).
Proof.
  destruct ex_dueling_base_ok as (base & bm & w1 & Hf & Hl).
  exists base, w1.
  apply (DuelingNetwork_init_sizes (model_factory 1) ex_dueling_config
           {[ "type" := PyStr "MultiLayerPerceptron"; "layers" := PyList [PyInt 1] ]}
           bm (PyInt 1) base world0 w1 [1] 1 2);
    [reflexivity | reflexivity | reflexivity | exact Hf | exact Hl | reflexivity].
Defined.

(** ** [attention]: the output stays within the values *)

Lemma Forall_zip_with_both {A B C} (P : A → Prop) (Q : B → Prop) (T : C → Prop)
    (f : A → B → C) (l : list A) (k : list B) :
  Forall P l → Forall Q k → (∀ x y, P x → Q y → T (f x y)) → Forall T (zip_with f l k).
Proof.
  intros Hl; revert k; induction Hl as [|x l Hx _ IH]; intros k Hk Hf; [constructor|].
  destruct Hk as [|y k Hy Hk]; simpl; constructor; [by apply Hf|by apply IH].
Qed.

Lemma wsum_range (lo hi : R) dv (p : list R) (V : list (list R)) :
  length p = length V →
  Forall (λ x, 0 <= x)%R p →
  Forall (Forall (λ v, lo <= v <= hi)%R) V →
  Forall (λ y, lo * sumR p <= y <= hi * sumR p)%R (wsum dv p V).
Proof.
  intros Hl Hp; revert V Hl; induction Hp as [|pj p Hpj _ IH]; intros [|vj V] Hl HV;
    simpl in Hl; try done.
  - simpl. apply Forall_replicate. lra.
  - injection Hl as Hl. inversion HV as [|?? Hvj HV']; subst.
    cbn [wsum sumR foldr]. fold (sumR p).
    apply (Forall_zip_with_both (λ a, lo * pj <= a <= hi * pj)%R
             (λ y, lo * sumR p <= y <= hi * sumR p)%R).
    + apply Forall_fmap. eapply Forall_impl; [exact Hvj|]. intros v Hv. simpl. nra.
    + by apply IH.
    + intros a y Ha Hy. lra.
Qed.

Lemma probs_distribution lead nq nk d (query key : tensor R)
    (mask : option (tensor bool)) (bits : option (list bool)) :
  shape query = lead ++ [nq; d] → shape key = lead ++ [nk; d] →
  wf query → wf key →
  (∀ m, mask = Some m → wf m) →
  mask_bits (lead ++ [nq; nk]) mask = Some bits →
  0 < nk →
  Forall (Forall (λ r, length r = nk ∧ Forall (λ x, 0 < x)%R r ∧ sumR r = 1%R))
    (probs_spec <$> heads_scores d (mats (numel lead) nq d (data query))
                      (mats (numel lead) nk d (data key))
                      (mats (numel lead) nq nk <$> bits)).
Proof.
  intros Hq Hk Wq Wk Wm Hbits Hnk. apply Forall_fmap.
  assert (shaped3 (numel lead) nq nk
            (heads_scores d (mats (numel lead) nq d (data query))
               (mats (numel lead) nk d (data key))
               (mats (numel lead) nq nk <$> bits))) as [_ HS].
  { apply shaped3_heads_scores.
    - apply shaped3_mats. unfold wf in Wq. rewrite Wq, Hq, numel_app. simpl. lia.
    - apply shaped3_mats. unfold wf in Wk. rewrite Wk, Hk, numel_app. simpl. lia.
    - intros ms Hms. destruct bits as [bs|]; [|done]. injection Hms as <-.
      apply shaped3_mats. rewrite (mask_bits_length _ mask bs) by done.
      rewrite numel_app. simpl. lia. }
  eapply Forall_impl; [exact HS|]. intros S [_ HSm]. simpl.
  unfold probs_spec. apply Forall_fmap. eapply Forall_impl; [exact HSm|].
  intros s Hs. simpl. split; [unfold torch.softmax_row; by rewrite length_fmap|].
  apply softmax_row_distribution. destruct s; [simpl in Hs; lia|done].
Qed.

(** With at least one key and no active dropout, every entry of the
    output lies between the smallest and the largest entry of the
    values: each output row is an average of the value rows with the
    weights of the call, which a mask changes but cannot push out of
    that range. *)
Theorem attention_output_range lead nq nk d dv (query key value : tensor R)
    (mask : option (tensor bool)) (bits : option (list bool))
    (dropout : option Dropout) (w : world) (lo hi : R) :
  shape query = lead ++ [nq; d] →
  shape key = lead ++ [nk; d] →
  shape value = lead ++ [nk; dv] →
  wf query → wf key → wf value →
  (∀ m, mask = Some m → wf m) →
  mask_bits (lead ++ [nq; nk]) mask = Some bits →
  dropout_idle dropout →
  0 < nk →
  Forall (λ v, lo <= v <= hi)%R (data value) →
  ∃ out pr,
    attention query key value mask dropout w = Ok ((out, pr), w)
    ∧ shape out = lead ++ [nq; dv]
    ∧ Forall (λ y, lo <= y <= hi)%R (data out).
Proof.
  intros Hq Hk Hv Wq Wk Wv Wm Hbits Hidle Hnk Hrange.
  eexists _, _. split; [by eapply attention_heads|]. split; [done|].
  cbn [data]. unfold flat3. apply Forall_concat, Forall_fmap.
  apply (Forall_zip_with_both
           (Forall (λ r, length r = nk ∧ Forall (λ x, 0 < x)%R r ∧ sumR r = 1%R))
           (λ V, length V = nk ∧ Forall (Forall (λ v, lo <= v <= hi)%R) V)).
  - by apply (probs_distribution lead nq nk d query key mask bits).
  - unfold mats. apply Forall_fmap.
    eapply Forall_impl;
      [apply (Forall_chunks_all (λ v, lo <= v <= hi)%R (numel lead) (nk * dv)); exact Hrange|].
    intros c Hc. simpl. split; [apply length_chunks|by apply Forall_chunks_all].
  - intros P V HP [HVn HV]. simpl. apply Forall_concat. unfold output_spec.
    apply Forall_fmap. eapply Forall_impl; [exact HP|].
    intros p (Hpn & Hpos & Hsum). simpl.
    eapply Forall_impl; [apply (wsum_range lo hi dv p V); [congruence| |done]|].
    + eapply Forall_impl; [exact Hpos|]. intros x Hx. simpl in *. lra.
    + intros y Hy. simpl in Hy. rewrite Hsum in Hy. lra.
Qed.

Lemma attention_output_range_witness :
  ∃ out pr,
    attention ex_query ex_key ex_value (Some ex_mask) None world0 = Ok ((out, pr), world0)
    ∧ shape out = [1; 1] ++ [1; 1]
    ∧ Forall (λ y, 7 <= y <= 11)%R (data out).
Proof.
  apply (attention_output_range [1; 1] 1 2 1 1 ex_query ex_key ex_value
           (Some ex_mask) (Some [false; true]) None world0 7 11);
    [reflexivity | reflexivity | reflexivity | reflexivity | reflexivity
    | reflexivity | intros m [= <-]; reflexivity | reflexivity | exact I | lia |].
  repeat constructor; simpl; lra.
Defined.

(** ** [EgoAttentionNetwork]: the sizes of the output block *)

Lemma insert_over {A} (m : gmap string A) (i j : string) (x y z u : A) :
  i ≠ j → <[i := x]> (<[j := y]> (<[j := z]> (<[i := u]> m))) = <[i := x]> (<[j := y]> m).
Proof.
  intros Hij. rewrite insert_insert_eq, (insert_insert_ne _ j i) by done.
  by rewrite insert_insert_eq.
Qed.

Lemma insert_under {A} (m : gmap string A) (o a e : string) (x y z u : A) :
  o ≠ a → o ≠ e →
  <[o := x]> (<[a := y]> (<[e := z]> (<[o := u]> m))) = <[o := x]> (<[a := y]> (<[e := z]> m)).
Proof.
  intros Ha He. rewrite (insert_insert_ne _ e o), (insert_insert_ne _ a o) by done.
  by rewrite insert_insert_eq.
Qed.

(** The constructor overwrites [in] and [out] of the output block's
    configuration (with the feature size of the attention layer and the
    top-level [out]): whatever [output_layer] itself says for these two
    keys, the construction is the same, results, errors and draws. *)
Theorem EgoAttentionNetwork_init_output_layer (factory : dict → M (loc * dict))
    (config outl : dict) (vin vout : pyval) (w : world) :
  EgoAttentionNetwork_init factory
    (<["output_layer" := PyDict (<["in" := vin]> (<["out" := vout]> outl))]> config) w
  = EgoAttentionNetwork_init factory (<["output_layer" := PyDict outl]> config) w.
Proof.
  unfold EgoAttentionNetwork_init, Configurable_init. cbv zeta.
  rewrite <- !insert_union_l.
  set (R := config ∪ EgoAttentionNetwork_default_config).
  unfold getitem.
  rewrite !(lookup_insert_ne _ "output_layer" "embedding_layer") by done.
  rewrite !(lookup_insert_ne _ "output_layer" "in") by done.
  rewrite !(lookup_insert_ne _ "output_layer" "attention_layer") by done.
  rewrite !(lookup_insert_ne _ "output_layer" "out") by done.
  rewrite !lookup_insert_eq.
  repeat match goal with
  | |- (?a ≫= ?f) ?w0 = (?a ≫= ?g) ?w0 =>
      change (match a w0 with Ok (x, w') => f x w' | Raise e => Raise e end
              = match a w0 with Ok (x, w') => g x w' | Raise e => Raise e end);
      destruct (a w0) as [[? ?]|?]; [|reflexivity]; cbv beta
  end.
  rewrite (M_bind_lift _ _ _ (<["in" := vin]> (<["out" := vout]> outl))) by done.
  rewrite (M_bind_lift _ _ _ outl) by done.
  repeat match goal with
  | |- (?a ≫= ?f) ?w0 = (?a ≫= ?g) ?w0 =>
      change (match a w0 with Ok (x, w') => f x w' | Raise e => Raise e end
              = match a w0 with Ok (x, w') => g x w' | Raise e => Raise e end);
      destruct (a w0) as [[? ?]|?]; [|reflexivity]; cbv beta
  | |- context [match ?x with pair _ _ => _ end] => is_var x; destruct x
  end.
  rewrite (insert_over outl "out" "in") by done.
  repeat match goal with
  | |- (?a ≫= ?f) ?w0 = (?a ≫= ?g) ?w0 =>
      change (match a w0 with Ok (x, w') => f x w' | Raise e => Raise e end
              = match a w0 with Ok (x, w') => g x w' | Raise e => Raise e end);
      destruct (a w0) as [[? ?]|?]; [|reflexivity]; cbv beta
  | |- context [match ?x with pair _ _ => _ end] => is_var x; destruct x
  end.
  by rewrite !(insert_under R "output_layer" "attention_layer" "embedding_layer").
Qed.

(** ** From the configuration to a forward pass *)

Lemma EgoAttention_init_att_ok (config : dict) (fs heads : nat) (drop : Dropout)
    (σ : gmap loc module) (d : nat → R) (n : nat) :
  let resolved := Configurable_init EgoAttention_default_config config in
  resolved !! "feature_size" = Some (PyInt (Z.of_nat fs)) →
  resolved !! "heads" = Some (PyInt (Z.of_nat heads)) →
  0 < heads → fs `mod` heads = 0 →
  (getitem resolved "dropout_factor" ≫= Dropout_init) = Ok drop →
  ∃ a w',
    EgoAttention_init config (World σ (Rng d n)) = Ok ((a, resolved), w')
    ∧ heap w' = σ
    ∧ att_ok a fs heads (fs / heads) drop.
Proof.
  intros resolved Hfs Hh Hpos Hmod Hdrop.
  eexists _, _. split; [apply (EgoAttention_init_returns config fs (Z.of_nat heads)); [done|done|lia]|].
  split; [done|].
  split; [done|]. split; [done|]. split; [done|].
  split; [cbn [features_per_head]; rewrite py_int_div, <- Nat2Z.inj_div by lia; done|].
  split.
  { pose proof (Nat.div_mod fs heads ltac:(lia)). lia. }
  repeat constructor; simpl; try done; apply length_chunks.
Qed.

Lemma fresh_insert_ne (σ : gmap loc module) (l : loc) (m : module) :
  fresh (dom (<[l := m]> σ)) ≠ l.
Proof.
  intros Heq. pose proof (is_fresh (dom (<[l := m]> σ))) as Hf.
  rewrite Heq in Hf. apply Hf. rewrite dom_insert. set_solver.
Qed.

Lemma model_factory_dense fuel (config : dict) (w : world) (i o : nat)
    (hs : list nat) (act : activation_fn) (vout vr : pyval) :
  let cfg := Configurable_init MultiLayerPerceptron_default_config config in
  let width := if truthy vout then o else default i (last hs) in
  config !! "type" = Some (PyStr "MultiLayerPerceptron") →
  cfg !! "in" = Some (PyInt (Z.of_nat i)) →
  cfg !! "layers" = Some (PyList ((PyInt ∘ Z.of_nat) <$> hs)) →
  (getitem cfg "activation" ≫= activation_factory) = Ok act →
  cfg !! "out" = Some vout →
  (truthy vout = true → vout = PyInt (Z.of_nat o)) →
  cfg !! "reshape" = Some vr → truthy vr = false →
  ∃ m σ g,
    model_factory (S fuel) config w
    = Ok ((fresh (dom σ), cfg), World (<[fresh (dom σ) := ModMLP m]> σ) g)
    ∧ σ = heap w
    ∧ mlp_ok m i width.
Proof.
  intros cfg width Hty Hin Hl Hact Hout Hvout Hr Hfalsy.
  destruct (MultiLayerPerceptron_init_chain config w i o hs act vout Hin Hl Hact Hout Hvout)
    as (m & w1 & Hinit & Hheap & Hcfg & _ & _ & _ & _ & Hbody & _).
  exists m, (heap w1), (gen w1).
  split; [by apply model_factory_mlp|]. split; [done|].
  split; [|done]. exists vr. by rewrite Hcfg.
Qed.

(** A network built by the constructor from a configuration whose sizes
    fit runs: with dense blocks that do not flatten for the embedding
    (from [F] features to the feature size [fs] of the attention layer)
    and for the output, and [heads] dividing [fs], the construction
    returns, and every forward pass of the new network on a well-formed
    input of at least one entity returns one row of the output width
    per batch element. *)
Theorem EgoAttentionNetwork_init_forward fuel (config emb att outl : dict) (w : world)
    (F fs heads o idx : nat) (hs_e hs_o : list nat) (act_e act_o : activation_fn)
    (ve vr_e vr_o vout : pyval) (drop : Dropout) :
  let resolved := Configurable_init EgoAttentionNetwork_default_config config in
  let cfg_e := Configurable_init MultiLayerPerceptron_default_config emb in
  let cfg_a := Configurable_init EgoAttention_default_config att in
  let cfg_o := Configurable_init MultiLayerPerceptron_default_config
                 (<["out" := vout]> (<["in" := PyInt (Z.of_nat fs)]> outl)) in
  let width := if truthy vout then o else default fs (last hs_o) in
  resolved !! "embedding_layer" = Some (PyDict emb) →
  resolved !! "attention_layer" = Some (PyDict att) →
  resolved !! "output_layer" = Some (PyDict outl) →
  resolved !! "out" = Some vout →
  resolved !! "presence_feature_idx" = Some (PyInt (Z.of_nat idx)) → idx < F →
  emb !! "type" = Some (PyStr "MultiLayerPerceptron") →
  emb !! "in" = Some (PyInt (Z.of_nat F)) →
  cfg_e !! "layers" = Some (PyList ((PyInt ∘ Z.of_nat) <$> hs_e)) →
  default F (last hs_e) = fs →
  (getitem cfg_e "activation" ≫= activation_factory) = Ok act_e →
  cfg_e !! "out" = Some ve → truthy ve = false →
  cfg_e !! "reshape" = Some vr_e → truthy vr_e = false →
  att !! "feature_size" = Some (PyInt (Z.of_nat fs)) →
  cfg_a !! "heads" = Some (PyInt (Z.of_nat heads)) →
  0 < heads → fs `mod` heads = 0 →
  (getitem cfg_a "dropout_factor" ≫= Dropout_init) = Ok drop →
  outl !! "type" = Some (PyStr "MultiLayerPerceptron") →
  cfg_o !! "layers" = Some (PyList ((PyInt ∘ Z.of_nat) <$> hs_o)) →
  (getitem cfg_o "activation" ≫= activation_factory) = Ok act_o →
  (truthy vout = true → vout = PyInt (Z.of_nat o)) →
  cfg_o !! "reshape" = Some vr_o → truthy vr_o = false →
  ∃ net cfg w',
    EgoAttentionNetwork_init (model_factory (S fuel)) config w = Ok ((net, cfg), w')
    ∧ net_ok net (heap w') F fs heads (fs / heads) width idx drop
    ∧ ∀ fuel' b N (x : tensor R), shape x = [b; N; F] → wf x → 1 ≤ N →
        ∃ y w'', EgoAttentionNetwork_forward (call (S fuel')) net x w' = Ok (y, w'')
                 ∧ shape y = [b; width].
Proof.
  intros resolved cfg_e cfg_a cfg_o width Hemb Hatt Houtl Hout Hidx Hlt
    Hety Hein Hel Hefs Heact Heout Hve Her Hvre Hafs Hah Hheads Hmod Hdrop
    Hoty Hol Hoact Hvout Hor Hvro.
  destruct (model_factory_dense fuel emb w F 0 hs_e act_e ve vr_e)
    as (me & σ0 & g0 & Hf1 & Hσ0 & Hoke); try done.
  { by apply lookup_union_Some_l. }
  { by rewrite Hve. }
  rewrite Hve, Hefs in Hoke.
  destruct g0 as [d0 n0].
  set (l1 := fresh (dom σ0)) in *.
  set (σ1 := <[l1 := ModMLP me]> σ0) in *.
  destruct (EgoAttention_init_att_ok att fs heads drop σ1 d0 n0)
    as (a & w2 & Ha & Hh2 & Hoka); try done.
  { by apply lookup_union_Some_l. }
  destruct (model_factory_dense fuel
              (<["out" := vout]> (<["in" := PyInt (Z.of_nat fs)]> outl)) w2
              fs o hs_o act_o vout vr_o)
    as (mo & σ2 & g2 & Hf2 & Hσ2 & Hoko); try done.
  { by rewrite !lookup_insert_ne. }
  { apply lookup_union_Some_l. by rewrite lookup_insert_ne, lookup_insert_eq. }
  { apply lookup_union_Some_l. by rewrite lookup_insert_eq. }
  fold width in Hoko. rewrite Hh2 in Hσ2. subst σ2.
  set (l2 := fresh (dom σ1)) in *.
  assert (l2 ≠ l1) as Hne by apply fresh_insert_ne.
  eexists _, _, _. split; [|split].
  - eapply (EgoAttentionNetwork_init_returns _ config w _ _ _ emb att outl);
      [exact Hemb | exact Hein | | exact Hatt | exact Hafs | exact Houtl | exact Hout
      | exact Hf1 | exact Ha | exact Hf2].
    simpl. destruct (Z.eqb_spec (Z.of_nat F) 0); [lia|done].
  - cbn [heap ego_embedding others_embedding output_layer attention_layer net_config].
    split; [exists me; split; [|done]|].
    { rewrite lookup_insert_ne by done. apply lookup_insert_eq. }
    split; [exists me; split; [|done]|].
    { rewrite lookup_insert_ne by done. apply lookup_insert_eq. }
    split; [exists mo; split; [apply lookup_insert_eq|done]|].
    split; [done|]. split; [|done].
    cbn [net_config]. by rewrite !lookup_insert_ne.
  - intros fuel' b N x Hx Wx HN.
    match goal with
    | |- ∃ y w'', EgoAttentionNetwork_forward _ ?net x ?w0 = _ ∧ _ =>
        destruct (EgoAttentionNetwork_forward_total fuel' net w0 F fs heads (fs / heads)
                    width idx drop b N x) as [(y & w'' & Hy & Hsy & _) _];
          [|done|done|done|by exists y, w'']
    end.
    cbn [heap ego_embedding others_embedding output_layer attention_layer net_config].
    split; [exists me; split; [|done]|].
    { rewrite lookup_insert_ne by done. apply lookup_insert_eq. }
    split; [exists me; split; [|done]|].
    { rewrite lookup_insert_ne by done. apply lookup_insert_eq. }
    split; [exists mo; split; [apply lookup_insert_eq|done]|].
    split; [done|]. split; [|done].
    cbn [net_config]. by rewrite !lookup_insert_ne.
Qed.

Lemma EgoAttentionNetwork_init_forward_witness :
  ∃ net cfg w',
    EgoAttentionNetwork_init (model_factory 1) ex_net_config world0 = Ok ((net, cfg), w')
    ∧ net_ok net (heap w') 1 1 1 (1 / 1)
        (if truthy PyNone then 0 else default 1 (last [])) 0 {| p := 0%R; training := true |}
    ∧ ∀ fuel' b N (x : tensor R), shape x = [b; N; 1] → wf x → 1 ≤ N →
        ∃ y w'', EgoAttentionNetwork_forward (call (S fuel')) net x w' = Ok (y, w'')
                 ∧ shape y = [b; if truthy PyNone then 0 else default 1 (last [])].
Proof.
  apply (EgoAttentionNetwork_init_forward 0 ex_net_config
           {[ "type" := PyStr "MultiLayerPerceptron"; "in" := PyInt 1;
              "layers" := PyList []; "reshape" := PyBool false ]}
           {[ "type" := PyStr "EgoAttention"; "feature_size" := PyInt 1;
              "heads" := PyInt 1 ]}
           {[ "type" := PyStr "MultiLayerPerceptron"; "layers" := PyList [];
              "reshape" := PyBool false ]}
           world0 1 1 1 0 0 [] [] F_relu F_relu PyNone (PyBool false) (PyBool false)
           PyNone {| p := 0%R; training := true |});
    try reflexivity; try lia; try done.
  apply Dropout_init_zero.
Defined.
